(** * The deferred-transaction contract of cothority's byzcoin

    A shallow embedding of the deferred contract of package [contracts] and
    of the contract registry of package [byzcoin], through which it resolves
    the contracts of the instructions it executes, and the properties of the
    specification that are about them.

    Conventions of the embedding:
    - a Go byte slice is a [list byte]; where the code tells [nil] from a
      slice (the [== nil] tests on [Args.Search]) the value is an
      [option bytes], [None] being [nil];
    - [uint64] and [uint32] values are [Z], the wrap-around of conversions
      and of the decrement is written out ([u64], [u32]);
    - a Go [error] is the message it carries, a [string]; [nil] is [None];
    - the three results [(sc, cout, err)] of a contract method are a record
      [Result]; a run-time panic (index out of range, nil dereference) is the
      outcome [Panics];
    - a method with a pointer receiver that assigns to the receiver's data
      returns the new data next to its results (the pointer [s] to the
      service is never assigned). *)

From Stdlib Require Import ZArith Lia Ascii.
From Stdlib Require Init.Byte.
From stdpp Require Import base option strings list gmap pretty.

Local Open Scope string_scope.
Local Open Scope list_scope.
Local Open Scope Z_scope.

(** ** Bytes, integers, errors *)

Definition bytes := list Byte.byte.

(** The byte holding the low eight bits of [z]. *)
Definition byte_of_Z (z : Z) : Byte.byte :=
  byte_of_ascii (ascii_of_N (Z.to_N (z mod 256))).

Definition Z_of_byte (b : Byte.byte) : Z := Z.of_N (Byte.to_N b).

(** [[]byte(s)] *)
Definition bytes_of_string (s : string) : bytes := String.list_byte_of_string s.

(** [uint64(x)] and [uint32(x)]: conversion of an integer, wrapping. *)
Definition u64 (x : Z) : Z := x mod 2 ^ 64.
Definition u32 (x : Z) : Z := x mod 2 ^ 32.

(** The values of the type [uint64]. *)
Definition is_u64 (x : Z) : Prop := 0 <= x < 2 ^ 64.

(** [len(s)] as a Go [int]. *)
Definition len {A} (l : list A) : Z := Z.of_nat (length l).

(** [binary.LittleEndian.PutUint64(buf, v)] on a fresh 8-byte [buf]. *)
Definition LittleEndian_PutUint64 (v : Z) : bytes :=
  map (fun k => byte_of_Z (Z.shiftr v (8 * k))) [0; 1; 2; 3; 4; 5; 6; 7].

(** What a call comes to: it returns, or it panics. *)
Inductive outcome (A : Type) : Type :=
| Returns (a : A)
| Panics.
Arguments Returns {A} a.
Arguments Panics {A}.

(** [binary.LittleEndian.Uint32(b)]: reads [b[0..3]]; a shorter slice makes
    the bounds check [_ = b[3]] panic. *)
Definition LittleEndian_Uint32 (b : bytes) : outcome Z :=
  match b with
  | b0 :: b1 :: b2 :: b3 :: _ =>
      Returns (Z.lor (Z_of_byte b0)
              (Z.lor (Z.shiftl (Z_of_byte b1) 8)
              (Z.lor (Z.shiftl (Z_of_byte b2) 16)
                     (Z.shiftl (Z_of_byte b3) 24))))
  | _ => Panics
  end.

Definition error := string.

(** [errors.New(msg)] *)
Definition errors_New (msg : string) : error := msg.

(** [%d] of [fmt.Errorf]. *)
Definition fmt_d (z : Z) : string := pretty z.

(** ** Package darc: identities, kept abstract *)

Class Darc := {
  (** [darc.Identity] *)
  Identity : Type;
  (** [id.Equal(&id2)] *)
  Identity_Equal : Identity -> Identity -> bool;
  (** [id.Verify(msg, sig)], [None] when the signature is good *)
  Identity_Verify : Identity -> bytes -> bytes -> option error;
  (** [protobuf.Decode(buf, &identity)] *)
  Identity_Decode : bytes -> error + Identity;
}.

(** ** Package byzcoin: instructions, state changes, contracts, registry *)

Module byzcoin.

(** [InstanceID] is a [[32]byte]; [darc.ID] is a byte slice. *)
Definition InstanceID := bytes.
Definition darc_ID := bytes.

Record Argument := {
  Name : string;
  Value : bytes;
}.
Definition Arguments := list Argument.

(** Modelled from the spec: [Arguments.Search], of byzcoin's transaction
    code. Arguments are taken by name (§4.2, §4.3) and a missing one is [nil],
    which the callers test for. The first argument of that name is the one
    found. *)
Fixpoint Search (args : Arguments) (name : string) : option bytes :=
  match args with
  | [] => None
  | a :: rest => if String.eqb (Name a) name then Some (Value a) else Search rest name
  end.

(** A possibly-nil slice where the code only reads its bytes. *)
Definition slice (o : option bytes) : bytes := default [] o.

Record Spawn := {
  Spawn_ContractID : string;
  Spawn_Args : Arguments;
}.

Record Invoke := {
  Invoke_ContractID : string;
  Invoke_Command : string;
  Invoke_Args : Arguments;
}.

Record Delete := {
  Delete_ContractID : string;
}.

Inductive InstrType := SpawnType | InvokeType | DeleteType.

#[export] Instance InstrType_eq_dec : EqDecision InstrType.
Proof. solve_decision. Defined.

(** Modelled from the spec: [Instruction], of byzcoin's transaction code.
    §3 gives an instruction one kind among Spawn, Invoke and Delete, the body
    of that kind, and the signers' identities and signatures (the counters
    are the ones the comment of [hashDeferred] speaks of). The pointers
    [instr.Spawn], [instr.Invoke], [instr.Delete], of which the one of the
    instruction's kind is set, are the three cases of [Body]. *)
Inductive Body :=
| IsSpawn (s : Spawn)
| IsInvoke (i : Invoke)
| IsDelete (d : Delete).

Record Coin := {
  Coin_Name : InstanceID;
  Coin_Value : Z;
}.

Inductive StateAction := Create | Update | Remove.

Record StateChange := NewStateChange {
  StateChange_Action : StateAction;
  StateChange_InstanceID : InstanceID;
  StateChange_ContractID : string;
  StateChange_Value : bytes;
  StateChange_DarcID : darc_ID;
}.

(** The three results of [Spawn], [Invoke] and [Delete]. *)
Record Result := mkResult {
  sc : list StateChange;
  cout : list Coin;
  err : option error;
}.

(** [ReadOnlyStateTrie], the view of the ledger a contract reads:
    [GetValues(key)] gives [(value, version, contractID, darcID)] or an
    error, [GetIndex()] the index of the current block (an [int]). *)
Record ReadOnlyStateTrie := {
  GetValues : bytes -> error + (bytes * Z * string * darc_ID);
  GetIndex : Z;
}.

Section WithDarc.
Context {D : Darc}.

Record Instruction := {
  Instruction_InstanceID : InstanceID;
  Instruction_Body : Body;
  SignerCounter : list Z;
  SignerIdentities : list Identity;
  Signatures : list bytes;
}.

Definition GetType (instr : Instruction) : InstrType :=
  match Instruction_Body instr with
  | IsSpawn _ => SpawnType
  | IsInvoke _ => InvokeType
  | IsDelete _ => DeleteType
  end.

Record ClientTransaction := {
  Instructions : list Instruction;
}.

(** The methods of the interface [Contract] that the deferred contract calls
    on the contract of a proposed instruction. *)
Record Contract := {
  Contract_VerifyDeferredInstruction :
    ReadOnlyStateTrie -> Instruction -> bytes -> option error;
  Contract_Spawn : ReadOnlyStateTrie -> Instruction -> list Coin -> Result;
  Contract_Invoke : ReadOnlyStateTrie -> Instruction -> list Coin -> Result;
  Contract_Delete : ReadOnlyStateTrie -> Instruction -> list Coin -> Result;
}.

(** [ContractFn]: a contract from the bytes of its instance. *)
Definition ContractFn := bytes -> error + Contract.

(** [ContractRegistry]; the mutex orders concurrent calls and has no part in
    what a single call returns. *)
Record ContractRegistry := {
  registry : gmap string ContractFn;
}.

Definition NewContractRegistry : ContractRegistry :=
  {| registry := ∅ |}.

Definition RegisterContract (c : ContractRegistry) (contractName : string)
    (contractFn : ContractFn) : ContractRegistry :=
  {| registry := <[contractName := contractFn]> (registry c) |}.

(** [(fn, exist)] is [Some fn] when [exist], [None] otherwise. *)
Definition GetContractConstructor (c : ContractRegistry) (contractName : string)
    : option ContractFn :=
  registry c !! contractName.

(** Modelled from the spec: [Service], of byzcoin's service code. Its
    [GetContractConstructor] resolves a contract identifier through the
    registry (§4.1, §4.4 step 2). *)
Record Service := {
  contracts : ContractRegistry;
}.

Definition Service_GetContractConstructor (s : Service) (contractName : string)
    : option ContractFn :=
  GetContractConstructor (contracts s) contractName.

End WithDarc.
End byzcoin.

(** ** Control flow of a Go function body *)

(** A statement runs on to the next one with a value, leaves the function
    with [return r], or panics. *)
Inductive flow (R A : Type) : Type :=
| Next (a : A)
| Return (r : R)
| Panic.
Arguments Next {R A} a.
Arguments Return {R A} r.
Arguments Panic {R A}.

#[export] Instance flow_bind {R} : MBind (flow R) := fun A B k m =>
  match m with
  | Next a => k a
  | Return r => Return r
  | Panic => Panic
  end.

(** The function's outcome: what its last statement returns. *)
Definition body {R} (m : flow R R) : outcome R :=
  match m with
  | Next r => Returns r
  | Return r => Returns r
  | Panic => Panics
  end.

(** [v, err := f(); if err != nil { return r(err) }] *)
Definition try {R A} (x : error + A) (r : error -> R) : flow R A :=
  match x with
  | inl e => Return (r e)
  | inr a => Next a
  end.

(** [if err != nil { return r(err) }] *)
Definition check {R} (x : option error) (r : error -> R) : flow R unit :=
  match x with
  | Some e => Return (r e)
  | None => Next tt
  end.

(** [if v == nil { return r }] *)
Definition nonnil {R A} (x : option A) (r : R) : flow R A :=
  match x with
  | None => Return r
  | Some a => Next a
  end.

(** [if b { return r }] *)
Definition leave_if {R} (b : bool) (r : R) : flow R unit :=
  if b then Return r else Next tt.

(** A value whose computation may panic. *)
Definition eval {R A} (x : outcome A) : flow R A :=
  match x with
  | Returns a => Next a
  | Panics => Panic
  end.

(** [l[i]] *)
Definition at_index {R A} (l : list A) (i : nat) : flow R A :=
  match l !! i with
  | Some a => Next a
  | None => Panic
  end.

(** ** Package contracts: the deferred contract *)

Module contracts.
Import byzcoin.

Definition ContractDeferredID : string := "deferred".

Definition defaultNumExecution : Z := 1.

Section Data.
Context {D : Darc}.

Record deferredData := {
  ProposedTransaction : ClientTransaction;
  ExpireBlockIndex : Z;
  InstructionHashes : list bytes;
  NumExecution : Z;
  ExecResult : list bytes;
}.

(** The receiver: the embedded [deferredData] and the service [s]. *)
Record contractDeferred := {
  c_deferredData : deferredData;
  s : Service;
}.

End Data.

(** What the contract, and the ledger that runs it, use of Go's library, of
    protobuf and of byzcoin. *)
Class Platform {D : Darc} := {
  (** [sha256.New()], [Write]s, [Sum(nil)]: the digest of what was written *)
  sha256_Sum : bytes -> bytes;
  (** [instr.DeriveID(what)] *)
  DeriveID : Instruction -> string -> InstanceID;
  (** [strconv.ParseUint(string(b), 10, 64)] *)
  strconv_ParseUint : bytes -> error + Z;
  (** [protobuf.Decode] and [protobuf.Encode] at the types used *)
  Decode_ClientTransaction : bytes -> error + ClientTransaction;
  Encode_deferredData : deferredData -> error + bytes;
  Encode_Instruction : Instruction -> error + bytes;
  (** [c.BasicContract.VerifyInstruction(rst, instr, ctxHash)] *)
  BasicContract_VerifyInstruction :
    ReadOnlyStateTrie -> Instruction -> bytes -> option error;
  (** the error with which the ledger fails an instruction whose run
      panicked *)
  recovered : error;
}.

Section Deferred.
Context {D : Darc} {P : Platform}.

(** [return nil, nil, err] *)
Definition fail (e : error) : Result := mkResult [] [] (Some e).

(** The pointers [instr.Spawn] and [instr.Invoke]: dereferencing the one of
    another kind is a nil dereference. *)
Definition Instruction_Spawn {R} (instr : Instruction) : flow R Spawn :=
  match Instruction_Body instr with
  | IsSpawn sp => Next sp
  | _ => Panic
  end.

Definition Instruction_Invoke {R} (instr : Instruction) : flow R Invoke :=
  match Instruction_Body instr with
  | IsInvoke iv => Next iv
  | _ => Panic
  end.

(** *** hashDeferred *)

(** [h.Write(p)] on the bytes written so far. *)
Definition hash_Write (h : bytes) (p : bytes) : bytes := h ++ p.

Definition hashDeferred (instr : Instruction) (instanceID : bytes) : bytes :=
  let h := [] in
  let h := hash_Write h (Instruction_InstanceID instr) in
  let '(h, args) :=
    match Instruction_Body instr with
    | IsSpawn sp =>
        let h := hash_Write h [byte_of_Z 0] in
        let h := hash_Write h (bytes_of_string (Spawn_ContractID sp)) in
        (h, Spawn_Args sp)
    | IsInvoke iv =>
        let h := hash_Write h [byte_of_Z 1] in
        let h := hash_Write h (bytes_of_string (Invoke_ContractID iv)) in
        (h, Invoke_Args iv)
    | IsDelete d =>
        let h := hash_Write h [byte_of_Z 2] in
        let h := hash_Write h (bytes_of_string (Delete_ContractID d)) in
        (h, [])
    end in
  let h :=
    fold_left (fun h a =>
      let nameBuf := bytes_of_string (Name a) in
      let nameLenBuf := LittleEndian_PutUint64 (u64 (len nameBuf)) in
      let h := hash_Write h nameLenBuf in
      let h := hash_Write h nameBuf in
      let valueLenBuf := LittleEndian_PutUint64 (u64 (len (Value a))) in
      let h := hash_Write h valueLenBuf in
      hash_Write h (Value a)) args h in
  let h := hash_Write h instanceID in
  sha256_Sum h.

(** *** Spawn *)

(** Steps 1 and 2 of [Spawn]: the arguments parsed, the hashes computed,
    and the [deferredData] of step 3 built from them, with the darc of the
    instance the instruction is sent to. *)
Definition Spawn_data (rst : ReadOnlyStateTrie) (inst : Instruction)
    (coins : list Coin) : flow Result (darc_ID * deferredData) :=
  '(_, _, _, darcID) ← try (GetValues rst (Instruction_InstanceID inst))
                          (fun e => mkResult [] coins (Some e));
  sp ← Instruction_Spawn inst;
  proposedTransaction ←
    try (Decode_ClientTransaction (slice (Search (Spawn_Args sp) "proposedTransaction")))
        (fun e => fail (errors_New ("couldn't decode proposedTransaction: " +:+ e)));
  expireBlockIndex ←
    try (strconv_ParseUint (slice (Search (Spawn_Args sp) "expireBlockIndex")))
        (fun e => fail (errors_New ("couldn't convert expireBlockIndex: " +:+ e)));
  let numExecutionBuff := slice (Search (Spawn_Args sp) "NumExecution") in
  NumExecution ←
    (if 0 <? len numExecutionBuff
     then try (strconv_ParseUint numExecutionBuff)
              (fun e => fail (errors_New ("couldn't parse NumExecution: " +:+ e)))
     else Next defaultNumExecution);
  let hash :=
    map (fun proposedInstruction =>
           hashDeferred proposedInstruction (Instruction_InstanceID inst))
        (Instructions proposedTransaction) in
  Next (darcID,
        {| ProposedTransaction := proposedTransaction;
           ExpireBlockIndex := expireBlockIndex;
           InstructionHashes := hash;
           NumExecution := NumExecution;
           ExecResult := [] |}).

Definition Spawn (c : contractDeferred) (rst : ReadOnlyStateTrie)
    (inst : Instruction) (coins : list Coin) : outcome Result :=
  body (
    '(darcID, data) ← Spawn_data rst inst coins;
    dataBuf ← try (Encode_deferredData data)
                  (fun e => fail (errors_New ("couldn't encode deferredData: " +:+ e)));
    Next (mkResult
            [NewStateChange Create (DeriveID inst "") ContractDeferredID dataBuf darcID]
            coins None)).

(** *** Invoke *)

(** [d.ProposedTransaction.Instructions = instrs] *)
Definition set_Instructions (d : deferredData) (instrs : list Instruction)
    : deferredData :=
  {| ProposedTransaction := {| Instructions := instrs |};
     ExpireBlockIndex := ExpireBlockIndex d;
     InstructionHashes := InstructionHashes d;
     NumExecution := NumExecution d;
     ExecResult := ExecResult d |}.

Definition set_SignerIdentities (instr : Instruction) (ids : list Identity)
    : Instruction :=
  {| Instruction_InstanceID := Instruction_InstanceID instr;
     Instruction_Body := Instruction_Body instr;
     SignerCounter := SignerCounter instr;
     SignerIdentities := ids;
     Signatures := Signatures instr |}.

Definition set_Signatures (instr : Instruction) (sigs : list bytes)
    : Instruction :=
  {| Instruction_InstanceID := Instruction_InstanceID instr;
     Instruction_Body := Instruction_Body instr;
     SignerCounter := SignerCounter instr;
     SignerIdentities := SignerIdentities instr;
     Signatures := sigs |}.

Definition set_deferredData (c : contractDeferred) (d : deferredData)
    : contractDeferred :=
  {| c_deferredData := d; s := s c |}.

(** The contract identifier of an instruction, by its kind. *)
Definition contractID_of (instr : Instruction) : string :=
  match Instruction_Body instr with
  | IsSpawn sp => Spawn_ContractID sp
  | IsInvoke iv => Invoke_ContractID iv
  | IsDelete d => Delete_ContractID d
  end.

(** One turn of the loop of "execProposedTx" on the [i]-th proposed
    instruction: its state changes, or the return that ends [Invoke]. *)
Definition execProposedInstr (c : contractDeferred) (rst : ReadOnlyStateTrie)
    (coins : list Coin) (i : nat) (proposedInstr : Instruction)
    : flow (deferredData * Result) (list StateChange) :=
  let instructionType := GetType proposedInstr in
  let contractID := contractID_of proposedInstr in
  fn ← nonnil (Service_GetContractConstructor (s c) contractID)
              (c_deferredData c,
               fail (errors_New "Couldn't get the root function"));
  rootInstructionBuff ←
    try (Encode_Instruction proposedInstr)
        (fun _ => (c_deferredData c,
                   fail (errors_New "Couldn't encode the root instruction buffer")));
  contract ← try (fn rootInstructionBuff)
                 (fun _ => (c_deferredData c,
                            fail (errors_New "Couldn't get the root contract")));
  h ← at_index (InstructionHashes (c_deferredData c)) i;
  check (Contract_VerifyDeferredInstruction contract rst proposedInstr h)
        (fun e => (c_deferredData c,
                   fail ("Verifying the instruction failed: " +:+ e)));;
  let r :=
    match instructionType with
    | SpawnType => Contract_Spawn contract rst proposedInstr coins
    | InvokeType => Contract_Invoke contract rst proposedInstr coins
    | DeleteType => Contract_Delete contract rst proposedInstr coins
    end in
  check (err r)
        (fun e => (c_deferredData c,
                   fail ("Error while executing an instruction: " +:+ e)));;
  Next (sc r).

(** The loop, from the [i]-th instruction on; [instructionIDs] was made with
    one entry per instruction and is filled by index. *)
Fixpoint execLoop (c : contractDeferred) (rst : ReadOnlyStateTrie)
    (coins : list Coin) (i : nat) (instrs : list Instruction)
    (instructionIDs : list bytes) (sc : list StateChange)
    : flow (deferredData * Result) (list bytes * list StateChange) :=
  match instrs with
  | [] => Next (instructionIDs, sc)
  | proposedInstr :: rest =>
      let instructionIDs := <[i := DeriveID proposedInstr ""]> instructionIDs in
      stateChanges ← execProposedInstr c rst coins i proposedInstr;
      execLoop c rst coins (S i) rest instructionIDs (sc ++ stateChanges)
  end.

Definition Invoke (c : contractDeferred) (rst : ReadOnlyStateTrie)
    (inst : Instruction) (coins : list Coin)
    : outcome (deferredData * Result) :=
  body (
    '(_, _, _, darcID) ←
      try (GetValues rst (Instruction_InstanceID inst))
          (fun e => (c_deferredData c, mkResult [] coins (Some e)));
    iv ← Instruction_Invoke inst;
    if String.eqb (Invoke_Command iv) "addProof" then
      indexBuf ← nonnil (Search (Invoke_Args iv) "index")
                        (c_deferredData c, fail (errors_New "Index args is nil"));
      index ← eval (LittleEndian_Uint32 indexBuf);
      let instrs := Instructions (ProposedTransaction (c_deferredData c)) in
      let numInstruction := len instrs in
      leave_if (index >=? u32 numInstruction)
               (c_deferredData c,
                fail ("Index is out of range (" +:+ fmt_d index +:+ " >= "
                        +:+ fmt_d numInstruction +:+ ")"));;
      identityBuf ← nonnil (Search (Invoke_Args iv) "identity")
                           (c_deferredData c, fail (errors_New "Identity args is nil"));
      identity ← try (Identity_Decode identityBuf)
                     (fun _ => (c_deferredData c,
                                fail (errors_New "Couldn't decode Identity")));
      signature ← nonnil (Search (Invoke_Args iv) "signature")
                         (c_deferredData c, fail (errors_New "Signature args is nil"));
      target ← at_index instrs (Z.to_nat index);
      let instrs :=
        <[Z.to_nat index :=
            set_SignerIdentities target (SignerIdentities target ++ [identity])]>
          instrs in
      target ← at_index instrs (Z.to_nat index);
      let instrs :=
        <[Z.to_nat index :=
            set_Signatures target (Signatures target ++ [signature])]>
          instrs in
      let c := set_deferredData c (set_Instructions (c_deferredData c) instrs) in
      cosiDataBuf ← try (Encode_deferredData (c_deferredData c))
                        (fun _ => (c_deferredData c,
                                   fail (errors_New "Couldn't encode deferredData")));
      Next (c_deferredData c,
            mkResult
              [NewStateChange Update (Instruction_InstanceID inst)
                 ContractDeferredID cosiDataBuf darcID]
              coins None)
    else if String.eqb (Invoke_Command iv) "execProposedTx" then
      let instrs := Instructions (ProposedTransaction (c_deferredData c)) in
      let instructionIDs := replicate (length instrs) [] in
      '(instructionIDs, sc) ← execLoop c rst coins 0 instrs instructionIDs [];
      let d := c_deferredData c in
      let d := {| ProposedTransaction := ProposedTransaction d;
                  ExpireBlockIndex := ExpireBlockIndex d;
                  InstructionHashes := InstructionHashes d;
                  NumExecution := NumExecution d;
                  ExecResult := instructionIDs |} in
      let d := {| ProposedTransaction := ProposedTransaction d;
                  ExpireBlockIndex := ExpireBlockIndex d;
                  InstructionHashes := InstructionHashes d;
                  NumExecution := u64 (NumExecution d - 1);
                  ExecResult := ExecResult d |} in
      let c := set_deferredData c d in
      resultBuf ← try (Encode_deferredData (c_deferredData c))
                      (fun _ => (c_deferredData c,
                                 fail (errors_New "Couldn't encode the result")));
      Next (c_deferredData c,
            mkResult
              (sc ++ [NewStateChange Update (Instruction_InstanceID inst)
                        ContractDeferredID resultBuf darcID])
              coins None)
    else
      Return (c_deferredData c,
              fail (errors_New
                      "Deferred contract can only addProof and execProposedTx"))).

(** *** Delete *)

Definition Delete (c : contractDeferred) (rst : ReadOnlyStateTrie)
    (inst : Instruction) (coins : list Coin) : outcome Result :=
  body (
    '(_, _, _, darcID) ← try (GetValues rst (Instruction_InstanceID inst))
                            (fun e => mkResult [] coins (Some e));
    Next (mkResult
            [NewStateChange Remove (Instruction_InstanceID inst)
               ContractDeferredID [] darcID]
            coins None)).

(** *** VerifyInstruction *)

Definition VerifyInstruction (c : contractDeferred) (rst : ReadOnlyStateTrie)
    (instr : Instruction) (ctxHash : bytes) : outcome (option error) :=
  let d := c_deferredData c in
  body (
    check (BasicContract_VerifyInstruction rst instr ctxHash) Some;;
    (if decide (GetType instr = InvokeType) then
       leave_if (NumExecution d <? u64 1)
                (Some (errors_New "Maximum number of executions reached"));;
       let expireBlockIndex := ExpireBlockIndex d in
       let currentIndex := u64 (GetIndex rst) in
       leave_if (currentIndex >? expireBlockIndex)
                (Some ("Current block index is too high (" +:+ fmt_d currentIndex
                         +:+ " > " +:+ fmt_d expireBlockIndex +:+ ")"))
     else Next tt);;
    if decide (GetType instr = InvokeType) then
      iv ← Instruction_Invoke instr;
      if String.eqb (Invoke_Command iv) "addProof" then
        identityBuf ← nonnil (Search (Invoke_Args iv) "identity")
                             (Some (errors_New "Identity args is nil"));
        identity ← try (Identity_Decode identityBuf)
                       (fun _ => Some (errors_New "Couldn't decode Identity"));
        indexBuf ← nonnil (Search (Invoke_Args iv) "index")
                          (Some (errors_New "Index args is nil"));
        index ← eval (LittleEndian_Uint32 indexBuf);
        target ← at_index (Instructions (ProposedTransaction d)) (Z.to_nat index);
        leave_if (existsb (fun storedIdentity => Identity_Equal identity storedIdentity)
                          (SignerIdentities target))
                 (Some (errors_New "Identity already stored"));;
        signature ← nonnil (Search (Invoke_Args iv) "signature")
                           (Some (errors_New "Signature args is nil"));
        h ← at_index (InstructionHashes d) (Z.to_nat index);
        check (Identity_Verify identity h signature)
              (fun _ => Some (errors_New "Bad signature"));;
        Return None
      else Next None
    else Next None).

(** *** An instruction as the ledger runs it *)

(** Modelled from the spec: the ledger's execution of an instruction, of
    byzcoin's service code. §4.6 has [VerifyInstruction] evaluated
    before every Invoke, whose body runs only when the guard let it through.
    A rejected instruction returns the guard's error and nothing else. An
    instruction either fully applies or fully fails within one call (§5), and
    a failure is permanent, with no state change and the instance left as it
    was (§4.3, §4.4): a panic of the guard or of the body is caught by the
    ledger, which fails the instruction with an error like the guard's. *)
Definition verifyThenInvoke (c : contractDeferred) (rst : ReadOnlyStateTrie)
    (inst : Instruction) (ctxHash : bytes) (coins : list Coin)
    : outcome (deferredData * Result) :=
  match VerifyInstruction c rst inst ctxHash with
  | Panics => Returns (c_deferredData c, fail recovered)
  | Returns (Some e) => Returns (c_deferredData c, fail e)
  | Returns None =>
      match Invoke c rst inst coins with
      | Panics => Returns (c_deferredData c, fail recovered)
      | Returns run => Returns run
      end
  end.

(** One verified Invoke that succeeds takes the data of the instance from
    [d] to [d'], whatever the service, the ledger's view and the instruction. *)
Inductive invoked : deferredData -> deferredData -> Prop :=
| invoked_intro srv d rst inst ctxHash coins d' r :
    verifyThenInvoke {| c_deferredData := d; s := srv |} rst inst ctxHash coins
      = Returns (d', r) ->
    err r = None ->
    invoked d d'.

(** Any sequence of verified, successful Invokes. *)
Inductive invoked_star : deferredData -> deferredData -> Prop :=
| invoked_refl d : invoked_star d d
| invoked_step d1 d2 d3 :
    invoked d1 d2 -> invoked_star d2 d3 -> invoked_star d1 d3.

(** *** Commands, errors and operations, in the words of the specification *)

(** [inst] is an Invoke of the command [command]. *)
Definition is_command (inst : Instruction) (command : string) : Prop :=
  exists iv, Instruction_Body inst = IsInvoke iv /\ Invoke_Command iv = command.

(** "execution ceiling reached", "expired" and "duplicate proof" (§4.6), as
    [VerifyInstruction] words them. *)
Definition ceiling_error : error :=
  errors_New "Maximum number of executions reached".

Definition expired_error (currentIndex expireBlockIndex : Z) : error :=
  "Current block index is too high (" +:+ fmt_d currentIndex +:+ " > "
    +:+ fmt_d expireBlockIndex +:+ ")".

Definition is_expired_error (e : error) : Prop :=
  exists currentIndex expireBlockIndex,
    e = expired_error currentIndex expireBlockIndex.

Definition duplicate_error : error := errors_New "Identity already stored".

(** The operations of the contract, and what one returns. *)
Inductive operation := OpSpawn | OpInvoke | OpDelete.

Definition perform (op : operation) (c : contractDeferred)
    (rst : ReadOnlyStateTrie) (inst : Instruction) (coins : list Coin)
    : outcome Result :=
  match op with
  | OpSpawn => Spawn c rst inst coins
  | OpInvoke =>
      match Invoke c rst inst coins with
      | Returns (_, r) => Returns r
      | Panics => Panics
      end
  | OpDelete => Delete c rst inst coins
  end.

(** *** The invariant of the data (§3) *)

(** One stored hash per proposed instruction. *)
Definition one_hash_each (d : deferredData) : Prop :=
  length (InstructionHashes d) = length (Instructions (ProposedTransaction d)).

(** *** The processing of a proposed instruction, in the words of §4.4 *)

(** The call of the target contract that the kind of the instruction selects. *)
Definition dispatch (contract : Contract) (rst : ReadOnlyStateTrie)
    (proposedInstr : Instruction) (coins : list Coin) : Result :=
  match GetType proposedInstr with
  | SpawnType => Contract_Spawn contract rst proposedInstr coins
  | InvokeType => Contract_Invoke contract rst proposedInstr coins
  | DeleteType => Contract_Delete contract rst proposedInstr coins
  end.

(** The steps at which the processing of a proposed instruction, with stored
    hash [h], fails (§4.4): the lookup of its contract in the registry, its
    encoding and the re-hydration of the contract, the deferred verification,
    the dispatch to Spawn, Invoke or Delete. *)
Inductive fails (c : contractDeferred) (rst : ReadOnlyStateTrie)
    (coins : list Coin) (proposedInstr : Instruction) (h : bytes) : Prop :=
| fails_lookup :
    Service_GetContractConstructor (s c) (contractID_of proposedInstr) = None ->
    fails c rst coins proposedInstr h
| fails_encode fn e :
    Service_GetContractConstructor (s c) (contractID_of proposedInstr) = Some fn ->
    Encode_Instruction proposedInstr = inl e ->
    fails c rst coins proposedInstr h
| fails_rehydrate fn buf e :
    Service_GetContractConstructor (s c) (contractID_of proposedInstr) = Some fn ->
    Encode_Instruction proposedInstr = inr buf ->
    fn buf = inl e ->
    fails c rst coins proposedInstr h
| fails_verify fn buf contract e :
    Service_GetContractConstructor (s c) (contractID_of proposedInstr) = Some fn ->
    Encode_Instruction proposedInstr = inr buf ->
    fn buf = inr contract ->
    Contract_VerifyDeferredInstruction contract rst proposedInstr h = Some e ->
    fails c rst coins proposedInstr h
| fails_dispatch fn buf contract e :
    Service_GetContractConstructor (s c) (contractID_of proposedInstr) = Some fn ->
    Encode_Instruction proposedInstr = inr buf ->
    fn buf = inr contract ->
    Contract_VerifyDeferredInstruction contract rst proposedInstr h = None ->
    err (dispatch contract rst proposedInstr coins) = Some e ->
    fails c rst coins proposedInstr h.

(** The state changes of a proposed instruction that passes every step. *)
Definition passes (c : contractDeferred) (rst : ReadOnlyStateTrie)
    (coins : list Coin) (proposedInstr : Instruction) (h : bytes)
    (stateChanges : list StateChange) : Prop :=
  exists fn buf contract,
    Service_GetContractConstructor (s c) (contractID_of proposedInstr) = Some fn
    /\ Encode_Instruction proposedInstr = inr buf
    /\ fn buf = inr contract
    /\ Contract_VerifyDeferredInstruction contract rst proposedInstr h = None
    /\ err (dispatch contract rst proposedInstr coins) = None
    /\ stateChanges = sc (dispatch contract rst proposedInstr coins).

(** *** The canonical hash, in the words of the specification (§4.5) *)

Definition kind_tag (instr : Instruction) : Z :=
  match GetType instr with
  | SpawnType => 0
  | InvokeType => 1
  | DeleteType => 2
  end.

(** The arguments an instruction stores: a Delete has none. *)
Definition arguments_of (instr : Instruction) : Arguments :=
  match Instruction_Body instr with
  | IsSpawn sp => Spawn_Args sp
  | IsInvoke iv => Invoke_Args iv
  | IsDelete _ => []
  end.

(** Length and bytes of the name, then length and bytes of the value. *)
Definition argument_bytes (a : Argument) : bytes :=
  LittleEndian_PutUint64 (len (bytes_of_string (Name a)))
    ++ bytes_of_string (Name a)
    ++ LittleEndian_PutUint64 (len (Value a))
    ++ Value a.

Definition canonical_hash (instr : Instruction) (binding : bytes) : bytes :=
  sha256_Sum
    (Instruction_InstanceID instr
       ++ [byte_of_Z (kind_tag instr)]
       ++ bytes_of_string (contractID_of instr)
       ++ concat (map argument_bytes (arguments_of instr))
       ++ binding).

End Deferred.
End contracts.

(** ** The deferred contract: relations between the data before and after *)

Module deferred.
Import byzcoin contracts.

Section Relations.
Context {D : Darc}.

(** [target] with one more signer: what "addProof" makes of the instruction
    it targets. *)
Definition add_signer (identity : Identity) (signature : bytes)
    (target : Instruction) : Instruction :=
  {| Instruction_InstanceID := Instruction_InstanceID target;
     Instruction_Body := Instruction_Body target;
     SignerCounter := SignerCounter target;
     SignerIdentities := SignerIdentities target ++ [identity];
     Signatures := Signatures target ++ [signature] |}.

(** [instr'] is [instr] with, possibly, more signers at the end. *)
Definition gains_signers (instr instr' : Instruction) : Prop :=
  Instruction_InstanceID instr' = Instruction_InstanceID instr
  /\ Instruction_Body instr' = Instruction_Body instr
  /\ SignerCounter instr' = SignerCounter instr
  /\ SignerIdentities instr `prefix_of` SignerIdentities instr'
  /\ Signatures instr `prefix_of` Signatures instr'.

(** [d'] holds the proposed instructions of [d], each with possibly more
    signers, the same hashes and the same expiry. *)
Definition grows (d d' : deferredData) : Prop :=
  Forall2 gains_signers (Instructions (ProposedTransaction d))
                        (Instructions (ProposedTransaction d'))
  /\ ExpireBlockIndex d' = ExpireBlockIndex d
  /\ InstructionHashes d' = InstructionHashes d.

(** Every proposed instruction has as many signatures as identities. *)
Definition paired (d : deferredData) : Prop :=
  Forall (fun instr => length (SignerIdentities instr) = length (Signatures instr))
         (Instructions (ProposedTransaction d)).

End Relations.
End deferred.

(** ** Package calypso: the write contract and the long-term-secret contract *)

Module calypso.
Import byzcoin contracts.

Definition ContractWriteID : string := "calypsoWrite".
Definition ContractReadID : string := "calypsoRead".
Definition ContractLongTermSecretID : string := "longTermSecret".

(** [a.Equal(b)] on instance identifiers: the bytes are the same. *)
Fixpoint InstanceID_Equal (a b : InstanceID) : bool :=
  match a, b with
  | [], [] => true
  | x :: a, y :: b => Byte.eqb x y && InstanceID_Equal a b
  | _, _ => false
  end.

(** [v == nil || len(v) == 0] *)
Definition nil_or_empty (v : option bytes) : bool :=
  match v with
  | None => true
  | Some b => len b =? 0
  end.

(** What the contracts use of onet, of protobuf, of byzcoin's coins and of
    the calypso structures: rosters and the search in them, the decoding of
    the stored structures, the proof of a write and the payment of a coin. *)
Class Calypso := {
  (** [network.ServerIdentity] and its [ID] *)
  ServerIdentity : Type;
  ServerIdentityID : Type;
  ServerIdentity_ID : ServerIdentity -> ServerIdentityID;
  (** [ro.Search(id)] on the roster of list [ro]: the index it answers,
      which the caller compares with -1 *)
  Roster_Search : list ServerIdentity -> ServerIdentityID -> Z;
  (** [protobuf.DecodeWithConstructors(buf, &info, ...)] to the roster of an
      [LtsInstanceInfo] *)
  Decode_LtsInstanceInfo : bytes -> error + list ServerIdentity;
  (** [Write], its [Cost], [w.CheckProof(suite, darcID)], and
      [protobuf.DecodeWithConstructors(buf, &w, ...)]: the write [w] after
      [buf] was decoded into it *)
  Write : Type;
  Write_Cost : Write -> Coin;
  Decode_Write : Write -> bytes -> error + Write;
  Write_CheckProof : Write -> darc_ID -> option error;
  (** [Read], the write instance it names, and its decoding *)
  Read : Type;
  Read_Write : Read -> InstanceID;
  Decode_Read : bytes -> error + Read;
  (** [coin.SafeSub(v)]: the coin after the payment, or an error *)
  Coin_SafeSub : Coin -> Z -> error + Coin;
}.

Section Contracts.
Context {D : Darc} {P : Platform} {C : Calypso}.

(** [onet.Roster], by its [List]; [LtsInstanceInfo], by its [Roster]. *)
Record Roster := {
  Roster_List : list ServerIdentity;
}.

Record LtsInstanceInfo := {
  LtsInstanceInfo_Roster : Roster;
}.

Definition decode_LtsInstanceInfo (buf : bytes) : error + LtsInstanceInfo :=
  match Decode_LtsInstanceInfo buf with
  | inl e => inl e
  | inr l => inr {| LtsInstanceInfo_Roster := {| Roster_List := l |} |}
  end.

(** *** intersectRosters *)

Definition intersectRosters (r1 r2 : Roster) : Z :=
  fold_left (fun res x =>
               if Roster_Search (Roster_List r1) (ServerIdentity_ID x) =? -1
               then res else res + 1)
            (Roster_List r2) 0.

(** [x] is found in [r1]: the search for its [ID] answers an index. *)
Definition found (r1 : Roster) (x : ServerIdentity) : bool :=
  negb (Roster_Search (Roster_List r1) (ServerIdentity_ID x) =? -1).

(** *** contractLTS *)

Definition contractLTS_Spawn (rst : ReadOnlyStateTrie) (inst : Instruction)
    (coins : list Coin) : outcome Result :=
  body (
    '(_, _, _, darcID) ←
      try (GetValues rst (Instruction_InstanceID inst))
          (fun e => fail ("getting values: " +:+ e));
    sp ← Instruction_Spawn inst;
    leave_if (negb (Spawn_ContractID sp =? ContractLongTermSecretID)%string)
             (fail (errors_New "can only spawn long-term-secret instances"));;
    let infoBuf := Search (Spawn_Args sp) "lts_instance_info" in
    leave_if (nil_or_empty infoBuf)
             (fail (errors_New "need a lts_instance_info argument"));;
    info ← try (decode_LtsInstanceInfo (slice infoBuf))
               (fun e => fail ("passed lts_instance_info argument is invalid: "
                                 +:+ e));
    Next (mkResult
            [NewStateChange Create (DeriveID inst "") ContractLongTermSecretID
               (slice infoBuf) darcID]
            coins None)).

Definition contractLTS_Invoke (rst : ReadOnlyStateTrie) (inst : Instruction)
    (coins : list Coin) : outcome Result :=
  body (
    '(curBuf, _, _, darcID) ←
      try (GetValues rst (Instruction_InstanceID inst))
          (fun e => fail ("getting values: " +:+ e));
    iv ← Instruction_Invoke inst;
    leave_if (negb (Invoke_Command iv =? "reshare")%string)
             (fail (errors_New "can only reshare long-term secrets"));;
    let infoBuf := Search (Invoke_Args iv) "lts_instance_info" in
    leave_if (nil_or_empty infoBuf)
             (fail (errors_New "need a lts_instance_info argument"));;
    newInfo ← try (decode_LtsInstanceInfo (slice infoBuf))
                  (fun e => fail ("passed lts_instance_info argument is invalid: "
                                    +:+ e));
    curInfo ← try (decode_LtsInstanceInfo curBuf)
                  (fun e => fail ("current info is invalid: " +:+ e));
    let n := len (Roster_List (LtsInstanceInfo_Roster curInfo)) in
    let overlap := intersectRosters (LtsInstanceInfo_Roster curInfo)
                                    (LtsInstanceInfo_Roster newInfo) in
    let thr := n - Z.quot (n - 1) 3 in
    leave_if (overlap <? thr)
             (fail (errors_New
                      "new roster does not overlap enough with current roster"));;
    Next (mkResult
            [NewStateChange Update (Instruction_InstanceID inst)
               ContractLongTermSecretID (slice infoBuf) darcID]
            coins None)).

(** *** ContractWrite.Spawn *)

(** The loop that pays for a read: the first coin of the name of the cost
    pays, and is put back at its place; the loop stops there. The result is
    the coins after the loop, or the error of the payment. *)
Fixpoint pay (cost : Coin) (cout : list Coin) : error + list Coin :=
  match cout with
  | [] => inr []
  | coin :: rest =>
      if InstanceID_Equal (Coin_Name coin) (Coin_Name cost)
      then match Coin_SafeSub coin (Coin_Value cost) with
           | inl e => inl e
           | inr coin => inr (coin :: rest)
           end
      else match pay cost rest with
           | inl e => inl e
           | inr rest => inr (coin :: rest)
           end
  end.

(** The receiver is the contract of the write instance: [c.Write] is the
    stored write, whose [Cost] a read pays, and into which the argument of a
    write that is spawned is decoded. *)
Definition ContractWrite_Spawn (c : Write) (rst : ReadOnlyStateTrie)
    (inst : Instruction) (coins : list Coin) : outcome Result :=
  body (
    '(_, _, _, darcID) ←
      try (GetValues rst (Instruction_InstanceID inst))
          (fun e => mkResult [] coins (Some ("getting values: " +:+ e)));
    sp ← Instruction_Spawn inst;
    if (Spawn_ContractID sp =? ContractWriteID)%string then
      let w := Search (Spawn_Args sp) "write" in
      leave_if (nil_or_empty w)
               (mkResult [] coins
                  (Some (errors_New "need a write request in 'write' argument")));;
      c ← try (Decode_Write c (slice w))
              (fun e => mkResult [] coins
                          (Some (errors_New ("couldn't unmarshal write: " +:+ e))));
      let darcID := match Search (Spawn_Args sp) "darcID" with
                    | Some d => d
                    | None => darcID
                    end in
      check (Write_CheckProof c darcID)
            (fun e => mkResult [] coins (Some ("proof of write failed: " +:+ e)));;
      let instID := DeriveID inst "" in
      Next (mkResult [NewStateChange Create instID ContractWriteID (slice w) darcID]
                     coins None)
    else if (Spawn_ContractID sp =? ContractReadID)%string then
      let r := Search (Spawn_Args sp) "read" in
      leave_if (nil_or_empty r) (fail (errors_New "need a read argument"));;
      rd ← try (Decode_Read (slice r))
               (fun e => fail ("passed read argument is invalid: " +:+ e));
      leave_if (negb (InstanceID_Equal (Read_Write rd) (Instruction_InstanceID inst)))
               (fail (errors_New
                        "the read request doesn't reference this write-instance"));;
      cout ← (if Coin_Value (Write_Cost c) >? 0
              then try (pay (Write_Cost c) coins)
                       (fun e => fail ("couldn't pay for read request: " +:+ e))
              else Next coins);
      Next (mkResult
              [NewStateChange Create (DeriveID inst "") ContractReadID (slice r)
                 darcID]
              cout None)
    else
      Return (mkResult [] coins
                (Some (errors_New "can only spawn writes and reads")))).

(** *** stringInSlice *)

Definition stringInSlice (a : string) (list : list string) : bool :=
  existsb (fun b => (b =? a)%string) list.

End Contracts.
End calypso.

(** ** crypto/sha256 (FIPS 180-4), for the worked examples *)

Module SHA256.

Definition add32 (x y : Z) : Z := (x + y) mod 2 ^ 32.
Definition rotr (n x : Z) : Z :=
  Z.lor (Z.shiftr x n) (Z.shiftl x (32 - n) mod 2 ^ 32).
Definition not32 (x : Z) : Z := Z.lxor x (2 ^ 32 - 1).

Definition Ch (x y z : Z) : Z := Z.lxor (Z.land x y) (Z.land (not32 x) z).
Definition Maj (x y z : Z) : Z :=
  Z.lxor (Z.lxor (Z.land x y) (Z.land x z)) (Z.land y z).
Definition bigsigma0 (x : Z) : Z := Z.lxor (Z.lxor (rotr 2 x) (rotr 13 x)) (rotr 22 x).
Definition bigsigma1 (x : Z) : Z := Z.lxor (Z.lxor (rotr 6 x) (rotr 11 x)) (rotr 25 x).
Definition smallsigma0 (x : Z) : Z := Z.lxor (Z.lxor (rotr 7 x) (rotr 18 x)) (Z.shiftr x 3).
Definition smallsigma1 (x : Z) : Z := Z.lxor (Z.lxor (rotr 17 x) (rotr 19 x)) (Z.shiftr x 10).

(** The round constants and the initial hash value. *)
Definition round_constants : list Z :=
  [
   1116352408; 1899447441; 3049323471; 3921009573; 961987163; 1508970993;
   2453635748; 2870763221; 3624381080; 310598401; 607225278; 1426881987;
   1925078388; 2162078206; 2614888103; 3248222580; 3835390401; 4022224774;
   264347078; 604807628; 770255983; 1249150122; 1555081692; 1996064986;
   2554220882; 2821834349; 2952996808; 3210313671; 3336571891; 3584528711;
   113926993; 338241895; 666307205; 773529912; 1294757372; 1396182291;
   1695183700; 1986661051; 2177026350; 2456956037; 2730485921; 2820302411;
   3259730800; 3345764771; 3516065817; 3600352804; 4094571909; 275423344;
   430227734; 506948616; 659060556; 883997877; 958139571; 1322822218;
   1537002063; 1747873779; 1955562222; 2024104815; 2227730452; 2361852424;
   2428436474; 2756734187; 3204031479; 3329325298 ].

Definition initial_hash : list Z :=
  [
   1779033703; 3144134277; 1013904242; 2773480762; 1359893119; 2600822924;
   528734635; 1541459225 ].

(** The message followed by the bit 1, zeros up to 56 modulo 64 bytes, and
    the length in bits on 8 bytes, most significant first. *)
Definition big_endian (width : nat) (v : Z) : list Z :=
  map (fun k => Z.shiftr v (8 * Z.of_nat k) mod 256) (rev (seq 0 width)).

Definition pad (msg : list Z) : list Z :=
  let n := Z.of_nat (length msg) in
  let zeros := Z.to_nat ((55 - n) mod 64) in
  msg ++ [128] ++ replicate zeros 0 ++ big_endian 8 (8 * n).

Definition word_of (b : list Z) : Z :=
  fold_left (fun acc x => Z.lor (Z.shiftl acc 8) x) b 0.

(** The words of a run of bytes, four bytes each. *)
Fixpoint words (fuel : nat) (b : list Z) : list Z :=
  match fuel, b with
  | S fuel, _ :: _ => word_of (take 4 b) :: words fuel (drop 4 b)
  | _, _ => []
  end.

Definition nth_word (l : list Z) (i : nat) : Z := default 0 (l !! i).

(** The message schedule: sixteen words of the block, extended to 64. *)
Definition schedule (block : list Z) : list Z :=
  fold_left (fun w t =>
    w ++ [add32 (add32 (smallsigma1 (nth_word w (t - 2))) (nth_word w (t - 7)))
                (add32 (smallsigma0 (nth_word w (t - 15))) (nth_word w (t - 16)))])
    (seq 16 48) block.

Record regs := { ra : Z; rb : Z; rc : Z; rd : Z; re : Z; rf : Z; rg : Z; rh : Z }.

Definition round (r : regs) (kw : Z * Z) : regs :=
  let t1 := add32 (add32 (add32 (rh r) (bigsigma1 (re r)))
                         (add32 (Ch (re r) (rf r) (rg r)) (fst kw))) (snd kw) in
  let t2 := add32 (bigsigma0 (ra r)) (Maj (ra r) (rb r) (rc r)) in
  {| ra := add32 t1 t2; rb := ra r; rc := rb r; rd := rc r;
     re := add32 (rd r) t1; rf := re r; rg := rf r; rh := rg r |}.

Definition regs_of (h : list Z) : regs :=
  {| ra := nth_word h 0; rb := nth_word h 1; rc := nth_word h 2; rd := nth_word h 3;
     re := nth_word h 4; rf := nth_word h 5; rg := nth_word h 6; rh := nth_word h 7 |}.

Definition compress (h : list Z) (block : list Z) : list Z :=
  let r := fold_left round (zip round_constants (schedule block)) (regs_of h) in
  zip_with add32 h [ra r; rb r; rc r; rd r; re r; rf r; rg r; rh r].

Fixpoint blocks (fuel : nat) (w : list Z) (h : list Z) : list Z :=
  match fuel, w with
  | S fuel, _ :: _ => blocks fuel (drop 16 w) (compress h (take 16 w))
  | _, _ => h
  end.

Definition digest (msg : list Z) : list Z :=
  let p := pad msg in
  let w := words (length p) p in
  concat (map (big_endian 4) (blocks (length w) w initial_hash)).

(** [h := sha256.New(); h.Write(msg); h.Sum(nil)] *)
Definition Sum (msg : bytes) : bytes :=
  map byte_of_Z (digest (map Z_of_byte msg)).

End SHA256.

(** ** A worked scenario (§8): one coin transfer, deferred *)

Module Scenario.
Import byzcoin contracts.

Definition B (str : string) : bytes := bytes_of_string str.

Fixpoint bytes_eqb (a b : bytes) : bool :=
  match a, b with
  | [], [] => true
  | x :: a, y :: b => Byte.eqb x y && bytes_eqb a b
  | _, _ => false
  end.

(** Identities are public keys; the signature of [msg] under the key [id]
    is, for the scenario, the key followed by the message. *)
Definition sign (id msg : bytes) : bytes := id ++ msg.

#[export] Instance darc : Darc := {|
  Identity := bytes;
  Identity_Equal := bytes_eqb;
  Identity_Verify := fun id msg sig =>
    if bytes_eqb sig (sign id msg) then None else Some "signature does not match";
  Identity_Decode := fun buf =>
    match buf with
    | [] => inl "empty identity"
    | _ => inr buf
    end;
|}.

(** Decimal digits, as [strconv.ParseUint(_, 10, 64)] reads them. *)
Definition digit (b : Byte.byte) : option Z :=
  let z := Z_of_byte b in
  if (48 <=? z) && (z <=? 57) then Some (z - 48) else None.

Definition ParseUint (b : bytes) : error + Z :=
  match b with
  | [] => inl "invalid syntax"
  | _ =>
      match fold_left (fun acc x =>
                         match acc, digit x with
                         | Some v, Some dg => Some (10 * v + dg)
                         | _, _ => None
                         end) b (Some 0) with
      | None => inl "invalid syntax"
      | Some v => if v <? 2 ^ 64 then inr v else inl "value out of range"
      end
  end.

(** The proposed instruction: Invoke "transfer" on the contract "coin". *)
Definition transfer : Instruction := {|
  Instruction_InstanceID := B "coin-instance";
  Instruction_Body := IsInvoke {|
    Invoke_ContractID := "coin";
    Invoke_Command := "transfer";
    Invoke_Args := [ {| Name := "coins"; Value := B "5" |};
                     {| Name := "destination"; Value := B "bob" |} ] |};
  SignerCounter := [];
  SignerIdentities := [];
  Signatures := [];
|}.

(** A length-prefixed serialisation stands for protobuf's. *)
Definition ser_bytes (b : bytes) : bytes := LittleEndian_PutUint64 (len b) ++ b.
Definition ser_list {A} (f : A -> bytes) (l : list A) : bytes :=
  LittleEndian_PutUint64 (len l) ++ concat (map f l).
Definition ser_argument (a : Argument) : bytes :=
  ser_bytes (B (Name a)) ++ ser_bytes (Value a).

Definition ser_instruction (instr : Instruction) : bytes :=
  ser_bytes (Instruction_InstanceID instr)
    ++ match Instruction_Body instr with
       | IsSpawn sp =>
           [byte_of_Z 0] ++ ser_bytes (B (Spawn_ContractID sp))
             ++ ser_list ser_argument (Spawn_Args sp)
       | IsInvoke iv =>
           [byte_of_Z 1] ++ ser_bytes (B (Invoke_ContractID iv))
             ++ ser_bytes (B (Invoke_Command iv))
             ++ ser_list ser_argument (Invoke_Args iv)
       | IsDelete d => [byte_of_Z 2] ++ ser_bytes (B (Delete_ContractID d))
       end
    ++ ser_list LittleEndian_PutUint64 (SignerCounter instr)
    ++ ser_list ser_bytes (SignerIdentities instr)
    ++ ser_list ser_bytes (Signatures instr).

Definition ser_deferredData (d : deferredData) : bytes :=
  ser_list ser_instruction (Instructions (ProposedTransaction d))
    ++ LittleEndian_PutUint64 (ExpireBlockIndex d)
    ++ ser_list ser_bytes (InstructionHashes d)
    ++ LittleEndian_PutUint64 (NumExecution d)
    ++ ser_list ser_bytes (ExecResult d).

(** The identifier derived from an instruction: the digest of its
    serialisation and of [what]. *)
Definition derive (instr : Instruction) (what : string) : InstanceID :=
  SHA256.Sum (SHA256.Sum (ser_instruction instr) ++ B what).

#[export] Instance platform : Platform := {|
  sha256_Sum := SHA256.Sum;
  DeriveID := derive;
  strconv_ParseUint := ParseUint;
  Decode_ClientTransaction := fun buf =>
    if bytes_eqb buf (ser_list ser_instruction [transfer])
    then inr {| Instructions := [transfer] |}
    else if bytes_eqb buf [] then inr {| Instructions := [] |}
    else inl "unknown transaction";
  Encode_deferredData := fun d => inr (ser_deferredData d);
  Encode_Instruction := fun instr => inr (ser_instruction instr);
  BasicContract_VerifyInstruction := fun _ _ _ => None;
  recovered := "runtime error";
|}.

(** The contract "coin": a deferred instruction is authorised when one of
    its collected signatures is good for the stored hash; an Invoke updates
    the coin instance and hands back one more coin than it was given. *)
Definition signed (instr : Instruction) (h : bytes) : bool :=
  existsb (fun p => bool_decide (Identity_Verify (fst p) h (snd p) = None))
          (zip (SignerIdentities instr) (Signatures instr)).

Definition change : Coin := {| Coin_Name := B "change"; Coin_Value := 1 |}.

Definition coin : Contract := {|
  Contract_VerifyDeferredInstruction := fun rst instr h =>
    if signed instr h then None else Some "no valid signature";
  Contract_Spawn := fun rst instr coins =>
    mkResult [NewStateChange Create (Instruction_InstanceID instr) "coin" []
                (B "darc")] coins None;
  Contract_Invoke := fun rst instr coins =>
    mkResult [NewStateChange Update (Instruction_InstanceID instr) "coin"
                (B "balance") (B "darc")]
             (coins ++ [change]) None;
  Contract_Delete := fun rst instr coins =>
    mkResult [NewStateChange Remove (Instruction_InstanceID instr) "coin" [] (B "darc")]
             coins None;
|}.

Definition service : Service := {|
  contracts := RegisterContract NewContractRegistry "coin" (fun _ => inr coin);
|}.

(** The ledger at block [i]: every instance is found, under the darc "darc". *)
Definition ledger (i : Z) : ReadOnlyStateTrie := {|
  GetValues := fun _ => inr ([], 0, "darc", B "darc");
  GetIndex := i;
|}.

(** Spawn, sent to the darc's instance. *)
Definition spawn (expire numExecution : string) : Instruction := {|
  Instruction_InstanceID := B "darc-instance";
  Instruction_Body := IsSpawn {|
    Spawn_ContractID := "deferred";
    Spawn_Args :=
      [ {| Name := "proposedTransaction";
           Value := ser_list ser_instruction [transfer] |};
        {| Name := "expireBlockIndex"; Value := B expire |};
        {| Name := "NumExecution"; Value := B numExecution |} ] |};
  SignerCounter := [];
  SignerIdentities := [];
  Signatures := [];
|}.

(** The instance that Spawn creates. *)
Definition deferred_id : InstanceID := derive (spawn "100" "1") "".

Definition invoke (command : string) (args : Arguments) : Instruction := {|
  Instruction_InstanceID := deferred_id;
  Instruction_Body := IsInvoke {|
    Invoke_ContractID := "deferred";
    Invoke_Command := command;
    Invoke_Args := args |};
  SignerCounter := [];
  SignerIdentities := [];
  Signatures := [];
|}.

Definition index_arg (i : Z) : Argument :=
  {| Name := "index";
     Value := map (fun k => byte_of_Z (Z.shiftr i (8 * k))) [0; 1; 2; 3] |}.

Definition alice : bytes := B "alice".
Definition bob : bytes := B "bob".

(** "addProof" by [id] for the proposed instruction [i], signing [h]. *)
Definition addProof (id : bytes) (i : Z) (h : bytes) : Instruction :=
  invoke "addProof"
    [ {| Name := "identity"; Value := id |};
      {| Name := "signature"; Value := sign id h |};
      index_arg i ].

Definition execProposedTx : Instruction := invoke "execProposedTx" [].

(** The stored hash of the proposed instruction. *)
Definition transfer_hash : bytes :=
  hashDeferred transfer (B "darc-instance").

(** The data of the instance as spawned, after Alice's proof, and after its
    execution. *)
Definition spawned (expire numExecution : Z) : deferredData := {|
  ProposedTransaction := {| Instructions := [transfer] |};
  ExpireBlockIndex := expire;
  InstructionHashes := [transfer_hash];
  NumExecution := numExecution;
  ExecResult := [];
|}.

Definition transfer_signed : Instruction :=
  set_Signatures (set_SignerIdentities transfer [alice]) [sign alice transfer_hash].

Definition proved (expire numExecution : Z) : deferredData := {|
  ProposedTransaction := {| Instructions := [transfer_signed] |};
  ExpireBlockIndex := expire;
  InstructionHashes := [transfer_hash];
  NumExecution := numExecution;
  ExecResult := [];
|}.

Definition executed (expire numExecution : Z) : deferredData := {|
  ProposedTransaction := {| Instructions := [transfer_signed] |};
  ExpireBlockIndex := expire;
  InstructionHashes := [transfer_hash];
  NumExecution := numExecution;
  ExecResult := [derive transfer_signed ""];
|}.

(** The contract rebuilt from stored data, as the ledger does per call. *)
Definition instance (d : deferredData) : contractDeferred :=
  {| c_deferredData := d; s := service |}.

Definition pocket : list Coin := [ {| Coin_Name := B "fee"; Coin_Value := 3 |} ].


(** The arguments of "addProof", and its Invoke. *)
Definition proof_args (id : bytes) (i : Z) (h : bytes) : Arguments :=
  [ {| Name := "identity"; Value := id |};
    {| Name := "signature"; Value := sign id h |};
    index_arg i ].

Definition proof_invoke (id : bytes) (i : Z) (h : bytes) : byzcoin.Invoke :=
  {| Invoke_ContractID := "deferred";
     Invoke_Command := "addProof";
     Invoke_Args := proof_args id i h |}.

(** The instance that a second Spawn through the same instance creates, for
    the same transfer with a later expiry, and an "addProof" sent to it. *)
Definition second_id : InstanceID := derive (spawn "200" "1") "".

Definition addProof_second (id : bytes) (i : Z) (h : bytes) : Instruction := {|
  Instruction_InstanceID := second_id;
  Instruction_Body := IsInvoke (proof_invoke id i h);
  SignerCounter := [];
  SignerIdentities := [];
  Signatures := [];
|}.

(** The data of an instance that proposes no instruction. *)
Definition idle (expire numExecution : Z) : deferredData := {|
  ProposedTransaction := {| Instructions := [] |};
  ExpireBlockIndex := expire;
  InstructionHashes := [];
  NumExecution := numExecution;
  ExecResult := [];
|}.

(** *** Calypso *)

(** A node is named by a byte, which is its identifier too; a roster is
    stored as the bytes of its nodes. [Search] answers the first index of
    the identifier, or -1. *)
Fixpoint search_from (i : Z) (l : list Byte.byte) (id : Byte.byte) : Z :=
  match l with
  | [] => -1
  | x :: l => if Byte.eqb x id then i else search_from (i + 1) l id
  end.

(** A write is stored as the decimal digits of its cost, in coins "fee",
    which the decoding puts in the place of the receiver's, and its proof
    holds under the darc "darc"; a read is stored as the
    identifier of the write it asks for. [SafeSub] takes the value from the
    coin when the coin holds as much. *)
#[export] Instance calypso : calypso.Calypso := {|
  calypso.ServerIdentity := Byte.byte;
  calypso.ServerIdentityID := Byte.byte;
  calypso.ServerIdentity_ID := fun x => x;
  calypso.Roster_Search := search_from 0;
  calypso.Decode_LtsInstanceInfo := fun buf => inr buf;
  calypso.Write := Z;
  calypso.Write_Cost := fun w => {| Coin_Name := B "fee"; Coin_Value := w |};
  calypso.Decode_Write := fun _ buf => ParseUint buf;
  calypso.Write_CheckProof := fun w darcID =>
    if bytes_eqb darcID (B "darc") then None else Some "proof for another darc";
  calypso.Read := InstanceID;
  calypso.Read_Write := fun rd => rd;
  calypso.Decode_Read := fun buf => inr buf;
  calypso.Coin_SafeSub := fun coin v =>
    if v <=? Coin_Value coin
    then inr {| Coin_Name := Coin_Name coin; Coin_Value := Coin_Value coin - v |}
    else inl "uint64 underflow";
|}.

(** The roster of the nodes [nodes]. *)
Definition roster (nodes : bytes) : calypso.Roster :=
  @calypso.Build_Roster calypso nodes.

(** The ledger at block [i], where the instances hold the roster [cur]. *)
Definition lts_ledger (cur : bytes) (i : Z) : ReadOnlyStateTrie := {|
  GetValues := fun _ => inr (cur, 0, "longTermSecret", B "darc");
  GetIndex := i;
|}.

Definition lts_args (new : bytes) : Arguments :=
  [ {| Name := "lts_instance_info"; Value := new |} ].

Definition reshare_invoke (new : bytes) : byzcoin.Invoke :=
  {| Invoke_ContractID := "longTermSecret";
     Invoke_Command := "reshare";
     Invoke_Args := lts_args new |}.

Definition reshare (new : bytes) : Instruction := {|
  Instruction_InstanceID := B "lts-instance";
  Instruction_Body := IsInvoke (reshare_invoke new);
  SignerCounter := [];
  SignerIdentities := [];
  Signatures := [];
|}.

Definition lts_spawn (info : bytes) : Instruction := {|
  Instruction_InstanceID := B "darc-instance";
  Instruction_Body := IsSpawn {| Spawn_ContractID := "longTermSecret";
                                 Spawn_Args := lts_args info |};
  SignerCounter := [];
  SignerIdentities := [];
  Signatures := [];
|}.

(** The stored write that costs [v] coins "fee". *)
Definition costing (v : Z) : @calypso.Write calypso := v.

(** The spawn of a write of cost [cost], and of a read of the write
    instance. *)
Definition write_spawn_body (cost : string) : byzcoin.Spawn :=
  {| Spawn_ContractID := "calypsoWrite";
     Spawn_Args := [ {| Name := "write"; Value := B cost |} ] |}.

Definition write_spawn (cost : string) : Instruction := {|
  Instruction_InstanceID := B "darc-instance";
  Instruction_Body := IsSpawn (write_spawn_body cost);
  SignerCounter := [];
  SignerIdentities := [];
  Signatures := [];
|}.

Definition read_spawn_body : byzcoin.Spawn :=
  {| Spawn_ContractID := "calypsoRead";
     Spawn_Args := [ {| Name := "read"; Value := B "write-instance" |} ] |}.

Definition read_spawn : Instruction := {|
  Instruction_InstanceID := B "write-instance";
  Instruction_Body := IsSpawn read_spawn_body;
  SignerCounter := [];
  SignerIdentities := [];
  Signatures := [];
|}.

End Scenario.


(** * Properties *)

Import byzcoin contracts.

(** Unfolds the statements of a function body. *)
Ltac unfold_flow :=
  unfold mbind, flow_bind, try, check, nonnil, leave_if, eval, at_index, body,
    Instruction_Spawn, Instruction_Invoke, fail in *.

(** Follows the function body along its tests. *)
Ltac follow := repeat (case_match; simplify_eq/=).

Section Properties.
Context {D : Darc} {P : Platform}.

(** ** The canonical hash *)

(** Only the low 64 bits of a value reach the bytes [PutUint64] writes. *)
Lemma shiftr_u64_low_byte (v k : Z) :
  0 <= k -> k + 8 <= 64 ->
  Z.shiftr (u64 v) k mod 256 = Z.shiftr v k mod 256.
Proof.
  intros Hk Hk8. unfold u64. change 256 with (2 ^ 8).
  apply Z.bits_inj'. intros n Hn.
  destruct (Z.lt_ge_cases n 8) as [Hlt | Hge].
  - rewrite !Z.mod_pow2_bits_low by lia.
    rewrite !Z.shiftr_spec by lia.
    rewrite Z.mod_pow2_bits_low by lia. reflexivity.
  - rewrite !Z.mod_pow2_bits_high by lia. reflexivity.
Qed.

Lemma PutUint64_u64 (v : Z) :
  LittleEndian_PutUint64 (u64 v) = LittleEndian_PutUint64 v.
Proof.
  unfold LittleEndian_PutUint64, byte_of_Z. cbn [map].
  rewrite !shiftr_u64_low_byte by lia. reflexivity.
Qed.

(** The loop over the arguments writes each argument's bytes in turn. *)
Lemma hash_arguments (args : Arguments) (h : bytes) :
  fold_left (fun h a =>
      let nameBuf := bytes_of_string (Name a) in
      let nameLenBuf := LittleEndian_PutUint64 (u64 (len nameBuf)) in
      let h := hash_Write h nameLenBuf in
      let h := hash_Write h nameBuf in
      let valueLenBuf := LittleEndian_PutUint64 (u64 (len (Value a))) in
      let h := hash_Write h valueLenBuf in
      hash_Write h (Value a)) args h
  = h ++ concat (map argument_bytes args).
Proof.
  revert h. induction args as [| a args IH]; intros h; cbn [fold_left map concat].
  - by rewrite app_nil_r.
  - rewrite IH. unfold hash_Write, argument_bytes.
    rewrite !PutUint64_u64. by rewrite <- !app_assoc.
Qed.

(** The bytes [hashDeferred] writes are those of §4.5, in that order. *)
Lemma hashDeferred_eq_canonical_hash (instr : Instruction) (binding : bytes) :
  hashDeferred instr binding = canonical_hash instr binding.
Proof.
  unfold hashDeferred, canonical_hash, kind_tag, contractID_of, arguments_of, GetType.
  destruct (Instruction_Body instr) as [sp | iv | dl];
    rewrite hash_arguments; unfold hash_Write; cbn [app];
    f_equal; rewrite <- ?app_assoc; cbn [app map concat]; by rewrite ?app_nil_r.
Qed.

(** C5. [hashDeferred] is the function of §4.5: the digest of the
    instruction's instance identifier, the tag of its kind (0 Spawn, 1 Invoke,
    2 Delete), its contract identifier, each argument in stored order as the
    8-byte little-endian length and the bytes of its name, then of its value,
    and last the binding identifier. The signers' counters, identities and
    signatures have no part in it. *)
Theorem hashDeferred_canonical (instr : Instruction) (binding : bytes) :
  hashDeferred instr binding = canonical_hash instr binding
  /\ forall ctrs ids sigs,
       hashDeferred {| Instruction_InstanceID := Instruction_InstanceID instr;
                       Instruction_Body := Instruction_Body instr;
                       SignerCounter := ctrs;
                       SignerIdentities := ids;
                       Signatures := sigs |} binding
       = hashDeferred instr binding.
Proof. split; [apply hashDeferred_eq_canonical_hash | reflexivity]. Qed.

(** ** Spawn *)


Lemma Spawn_data_Return rst inst coins r :
  Spawn_data rst inst coins = Return r -> exists e, err r = Some e.
Proof.
  unfold Spawn_data. unfold_flow. intros H.
  follow; eauto.
Qed.

Lemma Spawn_data_hashes rst inst coins darcID data :
  Spawn_data rst inst coins = Next (darcID, data) ->
  InstructionHashes data
  = map (fun proposedInstruction =>
           hashDeferred proposedInstruction (Instruction_InstanceID inst))
        (Instructions (ProposedTransaction data)).
Proof.
  unfold Spawn_data. unfold_flow. intros H.
  follow; reflexivity.
Qed.

(** What Spawn binds the hashes to. A Spawn that succeeds emits one Create,
    under the identifier derived from the Spawn instruction,
    [DeriveID inst ""]; the data it stores holds, for each proposed
    instruction in order, its canonical hash bound to the identifier of the
    instance the Spawn instruction is addressed to, [inst.InstanceID]. *)
Lemma Spawn_hashes_bound_to_addressed_instance
    (c : contractDeferred) (rst : ReadOnlyStateTrie) (inst : Instruction)
    (coins : list Coin) (r : Result) :
  contracts.Spawn c rst inst coins = Returns r ->
  err r = None ->
  exists darcID data dataBuf,
    Spawn_data rst inst coins = Next (darcID, data)
    /\ Encode_deferredData data = inr dataBuf
    /\ sc r = [NewStateChange Create (DeriveID inst "") ContractDeferredID
                 dataBuf darcID]
    /\ InstructionHashes data
       = map (fun proposedInstruction =>
                canonical_hash proposedInstruction (Instruction_InstanceID inst))
             (Instructions (ProposedTransaction data)).
Proof.
  unfold contracts.Spawn. intros Hrun Hok.
  destruct (Spawn_data rst inst coins) as [[darcID data] | r0 |] eqn:Hdata.
  - exists darcID, data. pose proof (Spawn_data_hashes _ _ _ _ _ Hdata) as Hh.
    unfold_flow. destruct (Encode_deferredData data) as [e | dataBuf];
      simplify_eq/=.
    exists dataBuf. repeat split; [].
    rewrite Hh. apply map_ext. intros instr. apply hashDeferred_eq_canonical_hash.
  - apply Spawn_data_Return in Hdata as [e He]. by simplify_eq/=.
  - simplify_eq/=.
Qed.


(** ** The loop of "execProposedTx" *)

Section Loop.
Variables (c : contractDeferred) (rst : ReadOnlyStateTrie) (coins : list Coin).

Let hashes := InstructionHashes (c_deferredData c).

Lemma execProposedInstr_fails i proposedInstr h :
  hashes !! i = Some h ->
  fails c rst coins proposedInstr h ->
  exists e, execProposedInstr c rst coins i proposedInstr
            = Return (c_deferredData c, fail e).
Proof.
  subst hashes. intros Hh Hfail. unfold execProposedInstr. unfold_flow.
  destruct Hfail as [H1 | fn e H1 H2 | fn buf e H1 H2 H3
    | fn buf contract e H1 H2 H3 H4 | fn buf contract e H1 H2 H3 H4 H5];
    rewrite H1; try rewrite H2; try rewrite H3; rewrite ?Hh; try rewrite H4;
    try (unfold dispatch in H5; rewrite H5);
    eexists; reflexivity.
Qed.

Lemma execProposedInstr_passes i proposedInstr h stateChanges :
  hashes !! i = Some h ->
  passes c rst coins proposedInstr h stateChanges ->
  execProposedInstr c rst coins i proposedInstr = Next stateChanges.
Proof.
  subst hashes. intros Hh (fn & buf & contract & H1 & H2 & H3 & H4 & H5 & ->).
  unfold execProposedInstr. unfold_flow.
  rewrite H1, H2, H3, Hh, H4. unfold dispatch in *. by rewrite H5.
Qed.

Lemma execProposedInstr_Next i proposedInstr stateChanges :
  execProposedInstr c rst coins i proposedInstr = Next stateChanges ->
  exists h, hashes !! i = Some h
            /\ passes c rst coins proposedInstr h stateChanges.
Proof.
  subst hashes. unfold execProposedInstr, passes, dispatch. unfold_flow.
  intros H. follow; naive_solver.
Qed.

Lemma execProposedInstr_Return i proposedInstr r :
  execProposedInstr c rst coins i proposedInstr = Return r ->
  exists e, r = (c_deferredData c, fail e).
Proof.
  unfold execProposedInstr. unfold_flow. intros H. follow; eauto.
Qed.

Lemma execProposedInstr_Panic i proposedInstr :
  execProposedInstr c rst coins i proposedInstr = Panic ->
  hashes !! i = None.
Proof.
  subst hashes. unfold execProposedInstr. unfold_flow. intros H. follow; eauto.
Qed.

(** Either every step passes or one fails, when the hash is there. *)
Lemma passes_or_fails i proposedInstr h :
  hashes !! i = Some h ->
  (exists stateChanges, passes c rst coins proposedInstr h stateChanges)
  \/ fails c rst coins proposedInstr h.
Proof.
  intros Hh.
  destruct (Service_GetContractConstructor (s c) (contractID_of proposedInstr))
    as [fn |] eqn:H1; [| right; by apply fails_lookup].
  destruct (Encode_Instruction proposedInstr) as [e | buf] eqn:H2;
    [right; by eapply fails_encode |].
  destruct (fn buf) as [e | contract] eqn:H3;
    [right; by eapply fails_rehydrate |].
  destruct (Contract_VerifyDeferredInstruction contract rst proposedInstr h)
    as [e |] eqn:H4; [right; by eapply fails_verify |].
  destruct (err (dispatch contract rst proposedInstr coins)) as [e |] eqn:H5;
    [right; by eapply fails_dispatch |].
  left. eexists. exists fn, buf, contract. eauto 10.
Qed.

(** A failing instruction ends the loop with the return of [Invoke]: no
    state change, an error. *)
Lemma execLoop_fails instrs : forall i instructionIDs sc k proposedInstr h,
  instrs !! k = Some proposedInstr ->
  hashes !! (i + k)%nat = Some h ->
  fails c rst coins proposedInstr h ->
  exists e, execLoop c rst coins i instrs instructionIDs sc
            = Return (c_deferredData c, fail e).
Proof.
  induction instrs as [| x rest IH]; intros i ids sc0 k pi h Hk Hh Hfail;
    [done |].
  cbn [execLoop]. destruct k as [| k]; simplify_eq/=.
  - rewrite Nat.add_0_r in Hh.
    destruct (execProposedInstr_fails _ _ _ Hh Hfail) as [e ->].
    by exists e.
  - destruct (execProposedInstr c rst coins i x) as [scs | r |] eqn:Hx; cbn.
    + apply (IH (S i) _ _ k pi h); [done | | done].
      by replace (S i + k)%nat with (i + S k)%nat by lia.
    + apply execProposedInstr_Return in Hx as [e ->]. by exists e.
    + apply execProposedInstr_Panic in Hx.
      assert (i < length hashes)%nat; [| by apply lookup_ge_None in Hx; lia].
      apply lookup_lt_Some in Hh. lia.
Qed.

Lemma execLoop_Return instrs : forall i instructionIDs sc r,
  execLoop c rst coins i instrs instructionIDs sc = Return r ->
  exists e, r = (c_deferredData c, fail e).
Proof.
  induction instrs as [| x rest IH]; intros i ids sc0 r; [done |].
  cbn [execLoop].
  destruct (execProposedInstr c rst coins i x) as [scs | r' |] eqn:Hx; cbn;
    [by apply IH | | done].
  intros [= <-]. by eapply execProposedInstr_Return.
Qed.

(** A loop that runs to its end has filled the identifiers of its
    instructions and gathered their state changes in order. *)
Lemma execLoop_Next instrs : forall i instructionIDs sc instructionIDs' sc',
  (i + length instrs <= length instructionIDs)%nat ->
  execLoop c rst coins i instrs instructionIDs sc = Next (instructionIDs', sc') ->
  instructionIDs'
  = take i instructionIDs
      ++ map (fun proposedInstr => DeriveID proposedInstr "") instrs
      ++ drop (i + length instrs) instructionIDs
  /\ exists nested,
      sc' = sc ++ concat nested
      /\ length nested = length instrs
      /\ forall k proposedInstr,
           instrs !! k = Some proposedInstr ->
           exists h stateChanges,
             hashes !! (i + k)%nat = Some h
             /\ nested !! k = Some stateChanges
             /\ passes c rst coins proposedInstr h stateChanges.
Proof.
  induction instrs as [| x rest IH]; intros i ids sc0 ids' sc' Hlen; cbn [execLoop].
  - intros [= <- <-]. split.
    + cbn. by rewrite Nat.add_0_r, take_drop.
    + exists []. cbn. by rewrite app_nil_r.
  - cbn [length] in Hlen.
    destruct (execProposedInstr c rst coins i x) as [scs | r' |] eqn:Hx; cbn;
      [| done | done].
    intros Hloop. apply IH in Hloop as [Hids (nested & -> & Hn & Hnested)];
      [| unfold InstanceID, bytes in *; rewrite length_insert; lia].
    split.
    + rewrite Hids. cbn [map length].
      unfold InstanceID, bytes in *.
      rewrite (take_S_r _ _ (DeriveID x ""))
        by (apply list_lookup_insert_eq; unfold InstanceID, bytes; lia).
      rewrite take_insert_ge by lia.
      rewrite drop_insert_lt by lia.
      rewrite <- app_assoc. cbn.
      by replace (i + S (length rest))%nat with (S (i + length rest)) by lia.
    + exists (scs :: nested). cbn. rewrite <- app_assoc. repeat split; [by rewrite Hn |].
      intros [| k] pi Hk; simplify_eq/=.
      * apply execProposedInstr_Next in Hx as (h & Hh & Hpass).
        exists h, scs. by rewrite Nat.add_0_r.
      * destruct (Hnested k pi Hk) as (h & scs' & Hh & Hs & Hpass).
        exists h, scs'. by replace (i + S k)%nat with (S i + k)%nat by lia.
Qed.

(** When every instruction passes, the loop runs to its end. *)
Lemma execLoop_passes instrs : forall i instructionIDs sc,
  (forall k proposedInstr,
     instrs !! k = Some proposedInstr ->
     exists h stateChanges,
       hashes !! (i + k)%nat = Some h
       /\ passes c rst coins proposedInstr h stateChanges) ->
  exists instructionIDs' sc',
    execLoop c rst coins i instrs instructionIDs sc = Next (instructionIDs', sc').
Proof.
  induction instrs as [| x rest IH]; intros i ids sc0 Hall; cbn [execLoop];
    [by eauto |].
  destruct (Hall 0%nat x eq_refl) as (h & scs & Hh & Hpass).
  rewrite Nat.add_0_r in Hh.
  rewrite (execProposedInstr_passes _ _ _ _ Hh Hpass). cbn.
  apply IH. intros k pi Hk. destruct (Hall (S k) pi Hk) as (h' & scs' & Hh' & Hp').
  exists h', scs'. by replace (S i + k)%nat with (i + S k)%nat by lia.
Qed.

End Loop.

(** ** Invoke "execProposedTx" *)

(** C1. "execProposedTx" is all or nothing: when the processing of one of the
    proposed instructions fails, at whichever step (lookup of its contract,
    re-hydration, deferred verification, dispatch), [Invoke] returns an error
    with no state change at all, and leaves the data of the instance as they
    were. *)
Theorem execProposedTx_atomic
    (c : contractDeferred) (rst : ReadOnlyStateTrie) (inst : Instruction)
    (coins : list Coin) (k : nat) (proposedInstr : Instruction) (h : bytes) :
  is_command inst "execProposedTx" ->
  Instructions (ProposedTransaction (c_deferredData c)) !! k = Some proposedInstr ->
  InstructionHashes (c_deferredData c) !! k = Some h ->
  fails c rst coins proposedInstr h ->
  exists r e,
    Invoke c rst inst coins = Returns (c_deferredData c, r)
    /\ sc r = []
    /\ err r = Some e.
Proof.
  intros (iv & Hbody & Hcmd) Hk Hh Hfail.
  unfold Invoke. unfold_flow.
  destruct (GetValues rst (Instruction_InstanceID inst))
    as [e | [[[value version] contractID] darcID]]; [by eexists _, _ |].
  rewrite Hbody, Hcmd. cbn.
  destruct (execLoop_fails c rst coins _ 0%nat
              (replicate (length (Instructions (ProposedTransaction (c_deferredData c)))) [])
              [] k proposedInstr h Hk Hh Hfail) as [e ->].
  by eexists _, _.
Qed.

(** What a successful "execProposedTx" returns, the guard aside. *)
Lemma Invoke_execProposedTx_Returns
    (c : contractDeferred) (rst : ReadOnlyStateTrie) (inst : Instruction)
    (coins : list Coin) (d' : deferredData) (r : Result) :
  is_command inst "execProposedTx" ->
  Invoke c rst inst coins = Returns (d', r) ->
  err r = None ->
  let d := c_deferredData c in
  let instrs := Instructions (ProposedTransaction d) in
  d' = {| ProposedTransaction := ProposedTransaction d;
          ExpireBlockIndex := ExpireBlockIndex d;
          InstructionHashes := InstructionHashes d;
          NumExecution := u64 (NumExecution d - 1);
          ExecResult := map (fun proposedInstr => DeriveID proposedInstr "") instrs |}
  /\ cout r = coins
  /\ exists nested resultBuf value version contractID darcID,
      GetValues rst (Instruction_InstanceID inst)
        = inr (value, version, contractID, darcID)
      /\ Encode_deferredData d' = inr resultBuf
      /\ sc r = concat nested
                  ++ [NewStateChange Update (Instruction_InstanceID inst)
                        ContractDeferredID resultBuf darcID]
      /\ length nested = length instrs
      /\ forall k proposedInstr,
           instrs !! k = Some proposedInstr ->
           exists h stateChanges,
             InstructionHashes d !! k = Some h
             /\ nested !! k = Some stateChanges
             /\ passes c rst coins proposedInstr h stateChanges.
Proof.
  intros (iv & Hbody & Hcmd) Hrun Hok d instrs. subst d instrs.
  unfold Invoke in Hrun. unfold_flow.
  destruct (GetValues rst (Instruction_InstanceID inst))
    as [e | [[[value version] contractID] darcID]] eqn:Hget; [by simplify_eq/= |].
  rewrite Hbody, Hcmd in Hrun. cbn in Hrun.
  destruct (execLoop c rst coins 0 _ _ []) as [[ids scs] | r0 |] eqn:Hloop;
    [| | by simplify_eq/=].
  - apply execLoop_Next in Hloop as [Hids (nested & Hsc & Hn & Hnested)];
      [| by rewrite length_replicate].
    cbn in Hids, Hsc.
    rewrite drop_ge, app_nil_r in Hids by (by rewrite length_replicate).
    subst ids scs. cbn in Hrun.
    destruct (Encode_deferredData _) as [e | resultBuf] eqn:Henc in Hrun;
      simplify_eq/=.
    repeat split. exists nested, resultBuf, value, version, contractID, darcID.
    repeat split; try done.
  - apply execLoop_Return in Hloop as [e ->]. by simplify_eq/=.
Qed.

(** ** The guard *)

(** What the guard has checked of an Invoke it lets through. *)
Lemma VerifyInstruction_admits
    (c : contractDeferred) (rst : ReadOnlyStateTrie) (instr : Instruction)
    (ctxHash : bytes) :
  GetType instr = InvokeType ->
  VerifyInstruction c rst instr ctxHash = Returns None ->
  BasicContract_VerifyInstruction rst instr ctxHash = None
  /\ 1 <= NumExecution (c_deferredData c)
  /\ u64 (GetIndex rst) <= ExpireBlockIndex (c_deferredData c).
Proof.
  intros Htype. unfold VerifyInstruction. unfold_flow.
  destruct (BasicContract_VerifyInstruction rst instr ctxHash); [by intros [=] |].
  destruct (decide (GetType instr = InvokeType)); [| done].
  change (u64 1) with 1.
  destruct (NumExecution (c_deferredData c) <? 1) eqn:Hnum; [by intros [=] |].
  destruct (u64 (GetIndex rst) >? ExpireBlockIndex (c_deferredData c)) eqn:Hexp;
    [by intros [=] |].
  intros _. repeat split; lia.
Qed.

(** The two general checks, in the order of the code. *)
Lemma VerifyInstruction_general
    (c : contractDeferred) (rst : ReadOnlyStateTrie) (instr : Instruction)
    (ctxHash : bytes) :
  GetType instr = InvokeType ->
  BasicContract_VerifyInstruction rst instr ctxHash = None ->
  (NumExecution (c_deferredData c) < 1 ->
   VerifyInstruction c rst instr ctxHash = Returns (Some ceiling_error))
  /\ (1 <= NumExecution (c_deferredData c) ->
      u64 (GetIndex rst) > ExpireBlockIndex (c_deferredData c) ->
      VerifyInstruction c rst instr ctxHash
      = Returns (Some (expired_error (u64 (GetIndex rst))
                         (ExpireBlockIndex (c_deferredData c))))).
Proof.
  intros Htype Hbase. unfold VerifyInstruction. unfold_flow.
  rewrite Hbase. destruct (decide (GetType instr = InvokeType)); [| done].
  change (u64 1) with 1. split.
  - intros Hnum. by rewrite (proj2 (Z.ltb_lt _ _) Hnum).
  - intros Hnum Hexp. rewrite (proj2 (Z.ltb_ge _ _) Hnum).
    by rewrite (proj2 (Z.gtb_gt _ _) Hexp).
Qed.

(** An Invoke is never let through once no execution is left. *)
Lemma VerifyInstruction_exhausted
    (c : contractDeferred) (rst : ReadOnlyStateTrie) (instr : Instruction)
    (ctxHash : bytes) :
  GetType instr = InvokeType ->
  NumExecution (c_deferredData c) < 1 ->
  exists e,
    VerifyInstruction c rst instr ctxHash = Returns (Some e)
    /\ (BasicContract_VerifyInstruction rst instr ctxHash = None ->
        e = ceiling_error).
Proof.
  intros Htype Hnum.
  destruct (BasicContract_VerifyInstruction rst instr ctxHash) as [e |] eqn:Hbase.
  - exists e. split; [| done]. unfold VerifyInstruction. unfold_flow.
    by rewrite Hbase.
  - exists ceiling_error. split; [| done].
    by apply VerifyInstruction_general.
Qed.

(** "execProposedTx" has no check of its own. *)
Lemma VerifyInstruction_execProposedTx
    (c : contractDeferred) (rst : ReadOnlyStateTrie) (instr : Instruction)
    (ctxHash : bytes) :
  is_command instr "execProposedTx" ->
  BasicContract_VerifyInstruction rst instr ctxHash = None ->
  1 <= NumExecution (c_deferredData c) ->
  u64 (GetIndex rst) <= ExpireBlockIndex (c_deferredData c) ->
  VerifyInstruction c rst instr ctxHash = Returns None.
Proof.
  intros (iv & Hbody & Hcmd) Hbase Hnum Hexp.
  unfold VerifyInstruction, GetType. unfold_flow.
  rewrite Hbase, Hbody, Hcmd. cbn. change (u64 1) with 1.
  rewrite (proj2 (Z.ltb_ge _ _) Hnum).
  destruct (u64 (GetIndex rst) >? ExpireBlockIndex (c_deferredData c)) eqn:Hgt;
    [apply Z.gtb_gt in Hgt; lia | done].
Qed.

(** ** The run of an instruction *)

(** A run that succeeds is a guard that admits and a body that succeeds. *)
Lemma verifyThenInvoke_success
    (c : contractDeferred) (rst : ReadOnlyStateTrie) (inst : Instruction)
    (ctxHash : bytes) (coins : list Coin) (d' : deferredData) (r : Result) :
  verifyThenInvoke c rst inst ctxHash coins = Returns (d', r) ->
  err r = None ->
  VerifyInstruction c rst inst ctxHash = Returns None
  /\ Invoke c rst inst coins = Returns (d', r).
Proof.
  unfold verifyThenInvoke. intros Hrun Hok.
  destruct (VerifyInstruction c rst inst ctxHash) as [[e |] |];
    [by simplify_eq/= | | by simplify_eq/=].
  destruct (Invoke c rst inst coins) as [run |]; by simplify_eq/=.
Qed.

(** What the guard rejects is rejected with its error. *)
Lemma verifyThenInvoke_rejected
    (c : contractDeferred) (rst : ReadOnlyStateTrie) (inst : Instruction)
    (ctxHash : bytes) (coins : list Coin) (e : error) :
  VerifyInstruction c rst inst ctxHash = Returns (Some e) ->
  verifyThenInvoke c rst inst ctxHash coins
  = Returns (c_deferredData c, mkResult [] [] (Some e)).
Proof. intros Hverify. unfold verifyThenInvoke. by rewrite Hverify. Qed.

(** What the guard admits returns what the body returns. *)
Lemma verifyThenInvoke_admitted
    (c : contractDeferred) (rst : ReadOnlyStateTrie) (inst : Instruction)
    (ctxHash : bytes) (coins : list Coin) (run : deferredData * Result) :
  VerifyInstruction c rst inst ctxHash = Returns None ->
  Invoke c rst inst coins = Returns run ->
  verifyThenInvoke c rst inst ctxHash coins = Returns run.
Proof.
  intros Hverify Hrun. unfold verifyThenInvoke.
  by rewrite Hverify, Hrun.
Qed.

Lemma is_command_Invoke (inst : Instruction) (command : string) :
  is_command inst command -> GetType inst = InvokeType.
Proof. intros (iv & Hbody & _). unfold GetType. by rewrite Hbody. Qed.

(** C4. When "execProposedTx" goes through, guard and body, the data written
    have [ExecResult] set to the identifiers derived from the proposed
    instructions, in stored order, whatever it held before, and
    [NumExecution] lower by exactly 1, the rest as it was; the state changes
    are those of the proposed instructions in order, followed by one Update
    of the deferred instance with the new data. *)
Theorem execProposedTx_success
    (c : contractDeferred) (rst : ReadOnlyStateTrie) (inst : Instruction)
    (ctxHash : bytes) (coins : list Coin) (d' : deferredData) (r : Result) :
  is_command inst "execProposedTx" ->
  is_u64 (NumExecution (c_deferredData c)) ->
  verifyThenInvoke c rst inst ctxHash coins = Returns (d', r) ->
  err r = None ->
  let d := c_deferredData c in
  let instrs := Instructions (ProposedTransaction d) in
  ExecResult d' = map (fun proposedInstr => DeriveID proposedInstr "") instrs
  /\ NumExecution d' = NumExecution d - 1
  /\ ProposedTransaction d' = ProposedTransaction d
  /\ ExpireBlockIndex d' = ExpireBlockIndex d
  /\ InstructionHashes d' = InstructionHashes d
  /\ exists nested resultBuf value version contractID darcID,
      GetValues rst (Instruction_InstanceID inst)
        = inr (value, version, contractID, darcID)
      /\ Encode_deferredData d' = inr resultBuf
      /\ sc r = concat nested
                  ++ [NewStateChange Update (Instruction_InstanceID inst)
                        ContractDeferredID resultBuf darcID]
      /\ length nested = length instrs
      /\ forall k proposedInstr,
           instrs !! k = Some proposedInstr ->
           exists h stateChanges,
             InstructionHashes d !! k = Some h
             /\ nested !! k = Some stateChanges
             /\ passes c rst coins proposedInstr h stateChanges.
Proof.
  intros Hcmd Hu64 Hrun Hok d instrs. subst d instrs.
  apply verifyThenInvoke_success in Hrun as [Hverify Hrun]; [| done].
  apply VerifyInstruction_admits in Hverify as (_ & Hnum & _);
    [| by eapply is_command_Invoke].
  destruct (Invoke_execProposedTx_Returns c rst inst coins d' r Hcmd Hrun Hok)
    as (-> & _ & Hsc).
  cbn [ExecResult NumExecution ProposedTransaction ExpireBlockIndex
       InstructionHashes].
  repeat split; [| exact Hsc].
  unfold u64, is_u64 in *. apply Z.mod_small. lia.
Qed.




(** C6, as the code has it. An Invoke, of any command, that passes the base
    check while the current block index is above [ExpireBlockIndex] is
    rejected: with the expiry error when at least one execution is left,
    however many, and with the error of the execution ceiling when none is,
    that check coming first. *)
Theorem VerifyInstruction_expired
    (c : contractDeferred) (rst : ReadOnlyStateTrie) (instr : Instruction)
    (ctxHash : bytes) :
  GetType instr = InvokeType ->
  BasicContract_VerifyInstruction rst instr ctxHash = None ->
  u64 (GetIndex rst) > ExpireBlockIndex (c_deferredData c) ->
  exists e,
    VerifyInstruction c rst instr ctxHash = Returns (Some e)
    /\ (1 <= NumExecution (c_deferredData c) ->
        e = expired_error (u64 (GetIndex rst)) (ExpireBlockIndex (c_deferredData c)))
    /\ (NumExecution (c_deferredData c) < 1 -> e = ceiling_error).
Proof.
  intros Htype Hbase Hexp.
  destruct (VerifyInstruction_general c rst instr ctxHash Htype Hbase)
    as [Hceiling Hexpired].
  destruct (Z.lt_ge_cases (NumExecution (c_deferredData c)) 1) as [Hlt | Hge].
  - exists ceiling_error. split; [by apply Hceiling |]. split; [lia | done].
  - eexists. split; [by apply Hexpired |]. split; [done | lia].
Qed.

(** ** Invoke "addProof" *)

(** C8, as the code has it. An "addProof" whose identity is already among
    the signers collected for the instruction it targets is rejected by the
    guard, and the instruction as a whole returns that error with no state
    change and the data of the instance as they were. The error is the one of
    the duplicate proof when the checks that come first pass: the base check,
    an execution left, the block index not above [ExpireBlockIndex]; when
    one of them fails it is the error of the first that does. *)
Theorem addProof_duplicate_rejected
    (c : contractDeferred) (rst : ReadOnlyStateTrie) (instr : Instruction)
    (ctxHash : bytes) (coins : list Coin) (iv : byzcoin.Invoke)
    (identityBuf indexBuf : bytes) (identity stored : Identity) (index : Z)
    (target : Instruction) :
  Instruction_Body instr = IsInvoke iv ->
  Invoke_Command iv = "addProof" ->
  Search (Invoke_Args iv) "identity" = Some identityBuf ->
  Identity_Decode identityBuf = inr identity ->
  Search (Invoke_Args iv) "index" = Some indexBuf ->
  LittleEndian_Uint32 indexBuf = Returns index ->
  Instructions (ProposedTransaction (c_deferredData c)) !! Z.to_nat index
    = Some target ->
  stored ∈ SignerIdentities target ->
  Identity_Equal identity stored = true ->
  exists e,
    VerifyInstruction c rst instr ctxHash = Returns (Some e)
    /\ verifyThenInvoke c rst instr ctxHash coins
       = Returns (c_deferredData c, mkResult [] [] (Some e))
    /\ (BasicContract_VerifyInstruction rst instr ctxHash = None ->
        1 <= NumExecution (c_deferredData c) ->
        u64 (GetIndex rst) <= ExpireBlockIndex (c_deferredData c) ->
        e = duplicate_error)
    /\ (forall base,
          BasicContract_VerifyInstruction rst instr ctxHash = Some base ->
          e = base)
    /\ (BasicContract_VerifyInstruction rst instr ctxHash = None ->
        NumExecution (c_deferredData c) < 1 ->
        e = ceiling_error)
    /\ (BasicContract_VerifyInstruction rst instr ctxHash = None ->
        1 <= NumExecution (c_deferredData c) ->
        u64 (GetIndex rst) > ExpireBlockIndex (c_deferredData c) ->
        e = expired_error (u64 (GetIndex rst))
              (ExpireBlockIndex (c_deferredData c))).
Proof.
  intros Hbody Hcmd Hidentity Hid Hidx Hindex Htarget Hin Heq.
  assert (existsb (fun storedIdentity => Identity_Equal identity storedIdentity)
                  (SignerIdentities target) = true) as Hdup.
  { apply existsb_exists. exists stored. split; [by apply list_elem_of_In | done]. }
  assert (exists e,
    VerifyInstruction c rst instr ctxHash = Returns (Some e)
    /\ e = match BasicContract_VerifyInstruction rst instr ctxHash with
           | Some base => base
           | None =>
               if NumExecution (c_deferredData c) <? 1 then ceiling_error
               else if u64 (GetIndex rst) >? ExpireBlockIndex (c_deferredData c)
                    then expired_error (u64 (GetIndex rst))
                           (ExpireBlockIndex (c_deferredData c))
                    else duplicate_error
           end) as (e & Hverify & He).
  { unfold VerifyInstruction, GetType. unfold_flow.
    destruct (BasicContract_VerifyInstruction rst instr ctxHash) as [e |];
      [by exists e |].
    rewrite Hbody. cbn. change (u64 1) with 1.
    destruct (NumExecution (c_deferredData c) <? 1) eqn:Hnum;
      [by eexists |].
    destruct (u64 (GetIndex rst) >? ExpireBlockIndex (c_deferredData c)) eqn:Hexp;
      [by eexists |].
    rewrite Hcmd. cbn. rewrite Hidentity, Hid, Hidx, Hindex, Htarget, Hdup.
    by exists duplicate_error. }
  exists e. split; [done |]. split; [by apply verifyThenInvoke_rejected |].
  destruct (BasicContract_VerifyInstruction rst instr ctxHash) as [base |].
  { repeat split; try done. by intros ? [= <-]. }
  destruct (NumExecution (c_deferredData c) <? 1) eqn:Hnum.
  { apply Z.ltb_lt in Hnum. repeat split; try done; intros; lia. }
  apply Z.ltb_ge in Hnum.
  destruct (u64 (GetIndex rst) >? ExpireBlockIndex (c_deferredData c)) eqn:Hexp.
  { apply Z.gtb_gt in Hexp. repeat split; try done; intros; lia. }
  rewrite Z.gtb_ltb in Hexp. apply Z.ltb_ge in Hexp.
  repeat split; try done; intros; lia.
Qed.

(** ** The execution counter *)

(** A successful [Invoke] leaves [NumExecution] as it was, or, for
    "execProposedTx", takes one from it in [uint64]. *)
Lemma Invoke_NumExecution
    (c : contractDeferred) (rst : ReadOnlyStateTrie) (inst : Instruction)
    (coins : list Coin) (d' : deferredData) (r : Result) :
  Invoke c rst inst coins = Returns (d', r) ->
  err r = None ->
  NumExecution d' = NumExecution (c_deferredData c)
  \/ NumExecution d' = u64 (NumExecution (c_deferredData c) - 1).
Proof.
  unfold Invoke. unfold_flow. intros Hrun Hok.
  destruct (GetValues rst (Instruction_InstanceID inst))
    as [e | [[[value version] contractID] darcID]]; [by simplify_eq/= |].
  destruct (Instruction_Body inst) as [sp | iv | dl]; [done | | done].
  destruct (Invoke_Command iv =? "addProof")%string.
  - left. follow; done.
  - destruct (Invoke_Command iv =? "execProposedTx")%string; [| by simplify_eq/=].
    right.
    destruct (execLoop c rst coins 0 _ _ []) as [[ids scs] | r0 |] eqn:Hloop;
      [follow; done | | done].
    apply execLoop_Return in Hloop as [e ->]. by simplify_eq/=.
Qed.

(** One verified Invoke never raises the counter, and lowers it by one at
    most, with no wrap-around. *)
Lemma invoked_NumExecution (d d' : deferredData) :
  invoked d d' ->
  is_u64 (NumExecution d) ->
  NumExecution d' = NumExecution d
  \/ (1 <= NumExecution d /\ NumExecution d' = NumExecution d - 1).
Proof.
  intros [srv d0 rst inst ctxHash coins d0' r Hrun Hok] Hu64.
  apply verifyThenInvoke_success in Hrun as [Hverify Hrun]; [| done].
  assert (GetType inst = InvokeType) as Htype.
  { unfold Invoke in Hrun. unfold_flow. unfold GetType.
    destruct (GetValues rst (Instruction_InstanceID inst))
      as [e | [[[value version] contractID] darcID]]; [by simplify_eq/= |].
    by destruct (Instruction_Body inst). }
  apply VerifyInstruction_admits in Hverify as (_ & Hnum & _); [| done].
  destruct (Invoke_NumExecution _ _ _ _ _ _ Hrun Hok) as [-> | ->]; [by left |].
  right. cbn in *. split; [done |].
  unfold u64, is_u64 in *. apply Z.mod_small. lia.
Qed.

(** What a successful [Invoke] stores: the Update of the instance, last of
    the state changes, carries the encoding of the new data. *)
Lemma Invoke_stores
    (c : contractDeferred) (rst : ReadOnlyStateTrie) (inst : Instruction)
    (coins : list Coin) (d' : deferredData) (r : Result) :
  Invoke c rst inst coins = Returns (d', r) ->
  err r = None ->
  exists before buf darcID,
    Encode_deferredData d' = inr buf
    /\ sc r = before ++ [NewStateChange Update (Instruction_InstanceID inst)
                           ContractDeferredID buf darcID].
Proof.
  unfold Invoke. unfold_flow. intros Hrun Hok.
  destruct (GetValues rst (Instruction_InstanceID inst))
    as [e | [[[value version] contractID] darcID]]; [by simplify_eq/= |].
  destruct (Instruction_Body inst) as [sp | iv | dl]; [done | | done].
  destruct (Invoke_Command iv =? "addProof")%string.
  - follow. eexists [], _, _. split; reflexivity.
  - destruct (Invoke_Command iv =? "execProposedTx")%string; [| by simplify_eq/=].
    destruct (execLoop c rst coins 0 _ _ []) as [[ids scs] | r0 |] eqn:Hloop;
      [| | done].
    + follow. eexists _, _, _. split; reflexivity.
    + apply execLoop_Return in Hloop as [e ->]. by simplify_eq/=.
Qed.

(** Spawn builds the data with one stored hash per proposed instruction, and
    a successful [Invoke] changes neither number. *)
Lemma Spawn_data_one_hash_each rst inst coins darcID data :
  Spawn_data rst inst coins = Next (darcID, data) -> one_hash_each data.
Proof.
  intros Hdata. unfold one_hash_each.
  rewrite (Spawn_data_hashes _ _ _ _ _ Hdata). apply length_map.
Qed.

Lemma Invoke_one_hash_each
    (c : contractDeferred) (rst : ReadOnlyStateTrie) (inst : Instruction)
    (coins : list Coin) (d' : deferredData) (r : Result) :
  Invoke c rst inst coins = Returns (d', r) ->
  err r = None ->
  one_hash_each (c_deferredData c) -> one_hash_each d'.
Proof.
  unfold Invoke, one_hash_each. unfold_flow. intros Hrun Hok Hinv.
  destruct (GetValues rst (Instruction_InstanceID inst))
    as [e | [[[value version] contractID] darcID]]; [by simplify_eq/= |].
  destruct (Instruction_Body inst) as [sp | iv | dl]; [done | | done].
  destruct (Invoke_Command iv =? "addProof")%string.
  - follow. by rewrite !length_insert.
  - destruct (Invoke_Command iv =? "execProposedTx")%string; [| by simplify_eq/=].
    destruct (execLoop c rst coins 0 _ _ []) as [[ids scs] | r0 |] eqn:Hloop;
      [by follow | | done].
    apply execLoop_Return in Hloop as [e ->]. by simplify_eq/=.
Qed.

(** C9. Along any sequence of verified Invokes the stored [NumExecution]
    never increases (and stays a [uint64]): the decrement of "execProposedTx"
    cannot wrap around, the guard letting the Invoke through only when
    [NumExecution] is at least 1. *)
Theorem NumExecution_never_increases (d d' : deferredData) :
  is_u64 (NumExecution d) ->
  invoked_star d d' ->
  is_u64 (NumExecution d') /\ NumExecution d' <= NumExecution d.
Proof.
  intros Hu64 Hstar. induction Hstar as [d | d1 d2 d3 Hstep Hstar IH].
  - split; [done | lia].
  - destruct (invoked_NumExecution _ _ Hstep Hu64) as [Heq | [Hge Heq]].
    + rewrite Heq in IH. by apply IH.
    + assert (is_u64 (NumExecution d2)) as Hu64' by (unfold is_u64 in *; lia).
      destruct (IH Hu64') as [Hu Hle]. split; [done | lia].
Qed.

(** C7. From an instance with one execution left, an "execProposedTx" that
    the guard admits and whose proposed instructions all pass succeeds and
    leaves no execution; from then on the guard rejects every Invoke, of any
    command, with the error of the execution ceiling when the base check
    passes (with the error of the base check otherwise), and the rejected
    Invoke changes nothing. *)
Theorem execProposedTx_exactly_once
    (c : contractDeferred) (rst : ReadOnlyStateTrie) (inst : Instruction)
    (ctxHash : bytes) (coins : list Coin) :
  NumExecution (c_deferredData c) = 1 ->
  is_command inst "execProposedTx" ->
  BasicContract_VerifyInstruction rst inst ctxHash = None ->
  u64 (GetIndex rst) <= ExpireBlockIndex (c_deferredData c) ->
  (exists found, GetValues rst (Instruction_InstanceID inst) = inr found) ->
  (forall k proposedInstr,
     Instructions (ProposedTransaction (c_deferredData c)) !! k = Some proposedInstr ->
     exists h stateChanges,
       InstructionHashes (c_deferredData c) !! k = Some h
       /\ passes c rst coins proposedInstr h stateChanges) ->
  (forall d, exists buf, Encode_deferredData d = inr buf) ->
  exists d' r,
    verifyThenInvoke c rst inst ctxHash coins = Returns (d', r)
    /\ err r = None
    /\ NumExecution d' = 0
    /\ forall srv rst2 inst2 ctxHash2 coins2,
         GetType inst2 = InvokeType ->
         exists e,
           verifyThenInvoke {| c_deferredData := d'; s := srv |}
             rst2 inst2 ctxHash2 coins2
           = Returns (d', mkResult [] [] (Some e))
           /\ (BasicContract_VerifyInstruction rst2 inst2 ctxHash2 = None ->
               e = ceiling_error).
Proof.
  intros Hone Hcmd Hbase Hexp [[[[value version] contractID] darcID] Hget]
    Hpass Henc.
  pose proof Hcmd as (iv & Hbody & Hname).
  unfold verifyThenInvoke at 1.
  rewrite VerifyInstruction_execProposedTx by (done || lia).
  destruct (execLoop_passes c rst coins
              (Instructions (ProposedTransaction (c_deferredData c))) 0%nat
              (replicate (length (Instructions (ProposedTransaction (c_deferredData c)))) [])
              [] Hpass) as (ids & scs & Hloop).
  unfold Invoke. unfold_flow. rewrite Hget, Hbody, Hname. cbn.
  rewrite Hloop. cbn.
  match goal with |- context [Encode_deferredData ?d] =>
    destruct (Henc d) as [buf ->] end.
  eexists _, _. split; [reflexivity |]. split; [done |].
  rewrite Hone. split; [done |].
  intros srv rst2 inst2 ctxHash2 coins2 Htype.
  match goal with |- context [verifyThenInvoke ?c2 _ _ _ _] =>
    destruct (VerifyInstruction_exhausted c2 rst2 inst2 ctxHash2 Htype)
      as (e & Hverify & He);
      [cbn [NumExecution c_deferredData]; by change (u64 (1 - 1)) with 0 |] end.
  exists e. split; [| done]. by apply verifyThenInvoke_rejected.
Qed.

(** ** Coins *)

(** C10, as the code has it. Spawn, Invoke ("addProof" as well as
    "execProposedTx") and Delete hand back the coins they were given when
    they return without error, whatever coins the contracts of the proposed
    instructions returned. A call that returns an error returns the coins it
    was given when the lookup of the instance failed, the error being the
    one of the lookup, and none otherwise ([return nil, nil, err]). *)
Theorem coins_returned_unchanged
    (op : operation) (c : contractDeferred) (rst : ReadOnlyStateTrie)
    (inst : Instruction) (coins : list Coin) (r : Result) :
  perform op c rst inst coins = Returns r ->
  (err r = None -> cout r = coins)
  /\ (forall e,
        err r = Some e ->
        match GetValues rst (Instruction_InstanceID inst) with
        | inl lookup => e = lookup /\ cout r = coins
        | inr _ => cout r = []
        end).
Proof.
  destruct op; cbn [perform].
  - unfold contracts.Spawn, Spawn_data. unfold_flow. intros Hrun.
    destruct (GetValues rst (Instruction_InstanceID inst))
      as [lookup | [[[value version] contractID] darcID]].
    + simplify_eq/=. split; [done |]. by intros e [= <-].
    + follow; (split; [done || by intros [=] | by intros e' [=]]).
  - destruct (Invoke c rst inst coins) as [[d' r'] |] eqn:Hrun; [| done].
    intros [= ->]. revert Hrun.
    unfold Invoke. unfold_flow. intros Hrun.
    destruct (GetValues rst (Instruction_InstanceID inst))
      as [lookup | [[[value version] contractID] darcID]].
    { simplify_eq/=. split; [done |]. by intros e [= <-]. }
    destruct (Instruction_Body inst) as [sp | iv | dl]; [done | | done].
    destruct (Invoke_Command iv =? "addProof")%string.
    + follow; (split; [done || by intros [=] | by intros e' [=]]).
    + destruct (Invoke_Command iv =? "execProposedTx")%string;
        [| simplify_eq/=; by split].
      destruct (execLoop c rst coins 0 _ _ []) as [[ids scs] | r0 |] eqn:Hloop;
        [| | done].
      * follow; (split; [done || by intros [=] | by intros e' [=]]).
      * apply execLoop_Return in Hloop as [e ->]. simplify_eq/=.
        by split.
  - unfold contracts.Delete. unfold_flow. intros Hrun.
    destruct (GetValues rst (Instruction_InstanceID inst))
      as [lookup | [[[value version] contractID] darcID]].
    + simplify_eq/=. split; [done |]. by intros e [= <-].
    + simplify_eq/=. split; [done |]. by intros e [=].
Qed.

End Properties.

(** * Further properties of the deferred contract *)

Import deferred.

Section MoreProperties.
Context {D : Darc} {P : Platform}.

(** ** Decoding the index *)

Lemma Z_of_byte_range (b : Byte.byte) : 0 <= Z_of_byte b < 2 ^ 8.
Proof.
  unfold Z_of_byte. pose proof (Byte.to_N_bounded b). split; [lia |].
  change (2 ^ 8) with 256. lia.
Qed.

Lemma Z_of_byte_high_bits (b : Byte.byte) (n : Z) :
  8 <= n -> Z.testbit (Z_of_byte b) n = false.
Proof.
  intros Hn. pose proof (Z_of_byte_range b) as [Hlo Hhi].
  apply (proj1 (Z.bounded_iff_bits_nonneg 8 (Z_of_byte b) ltac:(lia) Hlo));
    [exact Hhi | exact Hn].
Qed.

(** The index read is a [uint32]. *)
Lemma LittleEndian_Uint32_range (b : bytes) (v : Z) :
  LittleEndian_Uint32 b = Returns v -> 0 <= v < 2 ^ 32.
Proof.
  destruct b as [| b0 [| b1 [| b2 [| b3 rest]]]]; try done.
  intros [= <-].
  pose proof (Z_of_byte_range b0). pose proof (Z_of_byte_range b1).
  pose proof (Z_of_byte_range b2). pose proof (Z_of_byte_range b3).
  assert (0 <= Z.lor (Z_of_byte b0)
              (Z.lor (Z.shiftl (Z_of_byte b1) 8)
              (Z.lor (Z.shiftl (Z_of_byte b2) 16)
                     (Z.shiftl (Z_of_byte b3) 24)))) as Hnonneg.
  { repeat (apply Z.lor_nonneg; split); try apply Z.shiftl_nonneg; lia. }
  split; [exact Hnonneg |].
  apply (Z.bounded_iff_bits_nonneg 32); [lia | exact Hnonneg |].
  intros n Hn. rewrite !Z.lor_spec, !Z.shiftl_spec by lia.
  rewrite !Z_of_byte_high_bits by lia. reflexivity.
Qed.

(** ** The guard on instructions that are not an Invoke *)

(** X1. On a Spawn or a Delete the guard is the base check and nothing more:
    neither the executions left nor the expiry are looked at, so that an
    instance that is exhausted or expired can still be deleted. *)
Theorem VerifyInstruction_not_Invoke
    (c : contractDeferred) (rst : ReadOnlyStateTrie) (instr : Instruction)
    (ctxHash : bytes) :
  GetType instr <> InvokeType ->
  VerifyInstruction c rst instr ctxHash
  = Returns (BasicContract_VerifyInstruction rst instr ctxHash).
Proof.
  intros Htype. unfold VerifyInstruction. unfold_flow.
  destruct (BasicContract_VerifyInstruction rst instr ctxHash); [done |].
  by destruct (decide (GetType instr = InvokeType)).
Qed.

(** ** Errors and state changes *)

(** X2. No operation returns state changes along with an error: whenever
    Spawn, Invoke or Delete returns an error, the list of state changes is
    empty. *)
Theorem error_without_state_change
    (op : operation) (c : contractDeferred) (rst : ReadOnlyStateTrie)
    (inst : Instruction) (coins : list Coin) (r : Result) (e : error) :
  perform op c rst inst coins = Returns r ->
  err r = Some e ->
  sc r = [].
Proof.
  destruct op; cbn [perform].
  - unfold contracts.Spawn, Spawn_data. unfold_flow. intros Hrun Herr.
    follow; done.
  - destruct (Invoke c rst inst coins) as [[d' r'] |] eqn:Hrun; [| done].
    intros [= ->] Herr. revert Hrun.
    unfold Invoke. unfold_flow. intros Hrun.
    destruct (GetValues rst (Instruction_InstanceID inst))
      as [e0 | [[[value version] contractID] darcID]]; [by simplify_eq/= |].
    destruct (Instruction_Body inst) as [sp | iv | dl]; [done | | done].
    destruct (Invoke_Command iv =? "addProof")%string; [follow; done |].
    destruct (Invoke_Command iv =? "execProposedTx")%string;
      [| by simplify_eq/=].
    destruct (execLoop c rst coins 0 _ _ []) as [[ids scs] | r0 |] eqn:Hloop;
      [follow; done | | done].
    apply execLoop_Return in Hloop as [e0 ->]. by simplify_eq/=.
  - unfold contracts.Delete. unfold_flow. intros Hrun Herr. follow; done.
Qed.

(** ** What "addProof" writes *)

(** What a successful "addProof" returns. *)
Lemma Invoke_addProof_Returns
    (c : contractDeferred) (rst : ReadOnlyStateTrie) (inst : Instruction)
    (iv : byzcoin.Invoke) (coins : list Coin) (d' : deferredData) (r : Result) :
  Instruction_Body inst = IsInvoke iv ->
  Invoke_Command iv = "addProof" ->
  Invoke c rst inst coins = Returns (d', r) ->
  err r = None ->
  let d := c_deferredData c in
  let instrs := Instructions (ProposedTransaction d) in
  exists indexBuf index identityBuf identity signature target buf darcID,
    Search (Invoke_Args iv) "index" = Some indexBuf
    /\ LittleEndian_Uint32 indexBuf = Returns index
    /\ Search (Invoke_Args iv) "identity" = Some identityBuf
    /\ Identity_Decode identityBuf = inr identity
    /\ Search (Invoke_Args iv) "signature" = Some signature
    /\ instrs !! Z.to_nat index = Some target
    /\ d' = set_Instructions d
              (<[Z.to_nat index := add_signer identity signature target]> instrs)
    /\ Encode_deferredData d' = inr buf
    /\ sc r = [NewStateChange Update (Instruction_InstanceID inst)
                 ContractDeferredID buf darcID]
    /\ cout r = coins.
Proof.
  intros Hbody Hcmd Hrun Hok d instrs. subst d instrs.
  unfold Invoke in Hrun. unfold_flow.
  destruct (GetValues rst (Instruction_InstanceID inst))
    as [e | [[[value version] contractID] darcID]]; [by simplify_eq/= |].
  rewrite Hbody, Hcmd in Hrun. cbn in Hrun.
  destruct (Search (Invoke_Args iv) "index") as [indexBuf |];
    [| by simplify_eq/=].
  destruct (LittleEndian_Uint32 indexBuf) as [index |] eqn:Hindex; [| done].
  destruct (index >=? _); [by simplify_eq/= |].
  destruct (Search (Invoke_Args iv) "identity") as [identityBuf |];
    [| by simplify_eq/=].
  destruct (Identity_Decode identityBuf) as [e | identity] eqn:Hid;
    [by simplify_eq/= |].
  destruct (Search (Invoke_Args iv) "signature") as [signature |];
    [| by simplify_eq/=].
  destruct (Instructions (ProposedTransaction (c_deferredData c)) !! Z.to_nat index)
    as [target |] eqn:Htarget; [| done].
  rewrite list_lookup_insert_eq in Hrun by (by eapply lookup_lt_Some).
  rewrite list_insert_insert_eq in Hrun.
  destruct (Encode_deferredData _) as [e | buf] eqn:Henc in Hrun;
    simplify_eq/=.
  exists indexBuf, index, identityBuf, identity, signature, target, buf, darcID.
  repeat split; done.
Qed.

(** X3. A successful "addProof" appends the decoded identity and the
    signature, as given, to the signers of the proposed instruction at the
    index, leaves the other instructions and the rest of the data as they
    were, returns the coins, and emits a single Update of the instance
    carrying the encoding of the new data. *)
Theorem addProof_appends
    (c : contractDeferred) (rst : ReadOnlyStateTrie) (inst : Instruction)
    (iv : byzcoin.Invoke) (coins : list Coin) (d' : deferredData) (r : Result) :
  Instruction_Body inst = IsInvoke iv ->
  Invoke_Command iv = "addProof" ->
  Invoke c rst inst coins = Returns (d', r) ->
  err r = None ->
  let d := c_deferredData c in
  let instrs := Instructions (ProposedTransaction d) in
  exists indexBuf index identityBuf identity signature target buf darcID,
    Search (Invoke_Args iv) "index" = Some indexBuf
    /\ LittleEndian_Uint32 indexBuf = Returns index
    /\ Search (Invoke_Args iv) "identity" = Some identityBuf
    /\ Identity_Decode identityBuf = inr identity
    /\ Search (Invoke_Args iv) "signature" = Some signature
    /\ instrs !! Z.to_nat index = Some target
    /\ d' = set_Instructions d
              (<[Z.to_nat index := add_signer identity signature target]> instrs)
    /\ Encode_deferredData d' = inr buf
    /\ sc r = [NewStateChange Update (Instruction_InstanceID inst)
                 ContractDeferredID buf darcID]
    /\ cout r = coins.
Proof. apply Invoke_addProof_Returns. Qed.

(** ** The data along verified Invokes *)

(** What a successful [Invoke] makes of the data: one more signer on one
    proposed instruction, or a new [ExecResult] and one execution less. *)
Lemma Invoke_data
    (c : contractDeferred) (rst : ReadOnlyStateTrie) (inst : Instruction)
    (coins : list Coin) (d' : deferredData) (r : Result) :
  Invoke c rst inst coins = Returns (d', r) ->
  err r = None ->
  let d := c_deferredData c in
  let instrs := Instructions (ProposedTransaction d) in
  (exists i identity signature target,
     instrs !! i = Some target
     /\ d' = set_Instructions d (<[i := add_signer identity signature target]> instrs))
  \/ (exists instructionIDs,
       d' = {| ProposedTransaction := ProposedTransaction d;
               ExpireBlockIndex := ExpireBlockIndex d;
               InstructionHashes := InstructionHashes d;
               NumExecution := u64 (NumExecution d - 1);
               ExecResult := instructionIDs |}).
Proof.
  intros Hrun Hok d instrs. subst d instrs.
  unfold Invoke in Hrun. unfold_flow.
  destruct (GetValues rst (Instruction_InstanceID inst))
    as [e | [[[value version] contractID] darcID]]; [by simplify_eq/= |].
  destruct (Instruction_Body inst) as [sp | iv | dl]; [done | | done].
  destruct (Invoke_Command iv =? "addProof")%string.
  - left.
    destruct (Search (Invoke_Args iv) "index") as [indexBuf |];
      [| by simplify_eq/=].
    destruct (LittleEndian_Uint32 indexBuf) as [index |]; [| done].
    destruct (index >=? _); [by simplify_eq/= |].
    destruct (Search (Invoke_Args iv) "identity") as [identityBuf |];
      [| by simplify_eq/=].
    destruct (Identity_Decode identityBuf) as [e | identity];
      [by simplify_eq/= |].
    destruct (Search (Invoke_Args iv) "signature") as [signature |];
      [| by simplify_eq/=].
    destruct (Instructions (ProposedTransaction (c_deferredData c)) !! Z.to_nat index)
      as [target |] eqn:Htarget; [| done].
    rewrite list_lookup_insert_eq in Hrun by (by eapply lookup_lt_Some).
    rewrite list_insert_insert_eq in Hrun.
    destruct (Encode_deferredData _) as [e | buf] in Hrun; simplify_eq/=.
    by exists (Z.to_nat index), identity, signature, target.
  - right.
    destruct (Invoke_Command iv =? "execProposedTx")%string;
      [| by simplify_eq/=].
    destruct (execLoop c rst coins 0 _ _ []) as [[ids scs] | r0 |] eqn:Hloop;
      [| | done].
    + destruct (Encode_deferredData _) as [e | buf] in Hrun; simplify_eq/=.
      by exists ids.
    + apply execLoop_Return in Hloop as [e ->]. by simplify_eq/=.
Qed.

(** A verified Invoke that succeeds is an Invoke the guard let through. *)
Lemma invoked_inv (d d' : deferredData) :
  invoked d d' ->
  exists srv rst inst ctxHash coins r,
    GetType inst = InvokeType
    /\ VerifyInstruction {| c_deferredData := d; s := srv |} rst inst ctxHash
       = Returns None
    /\ Invoke {| c_deferredData := d; s := srv |} rst inst coins = Returns (d', r)
    /\ err r = None.
Proof.
  intros [srv d0 rst inst ctxHash coins d0' r Hrun Hok].
  apply verifyThenInvoke_success in Hrun as [Hverify Hrun]; [| done].
  exists srv, rst, inst, ctxHash, coins, r. repeat split; try done.
  unfold Invoke in Hrun. unfold_flow. unfold GetType.
  destruct (GetValues rst (Instruction_InstanceID inst))
    as [e | [[[value version] contractID] darcID]]; [by simplify_eq/= |].
  by destruct (Instruction_Body inst).
Qed.

Lemma gains_signers_refl (instr : Instruction) : gains_signers instr instr.
Proof. by repeat split. Qed.

Lemma gains_signers_trans (x y z : Instruction) :
  gains_signers x y -> gains_signers y z -> gains_signers x z.
Proof.
  intros (H1 & H2 & H3 & H4 & H5) (G1 & G2 & G3 & G4 & G5).
  repeat split; try congruence; by etrans.
Qed.

Lemma Forall2_gains_signers_refl (instrs : list Instruction) :
  Forall2 gains_signers instrs instrs.
Proof.
  apply Forall_Forall2_diag, Forall_forall.
  intros instr _. apply gains_signers_refl.
Qed.

Lemma grows_refl (d : deferredData) : grows d d.
Proof. repeat split. apply Forall2_gains_signers_refl. Qed.

Lemma grows_trans (d1 d2 d3 : deferredData) :
  grows d1 d2 -> grows d2 d3 -> grows d1 d3.
Proof.
  intros (H1 & H2 & H3) (G1 & G2 & G3). repeat split; try congruence.
  eapply Forall2_trans; [| exact H1 | exact G1].
  intros x y z. apply gains_signers_trans.
Qed.

Lemma invoked_grows (d d' : deferredData) : invoked d d' -> grows d d'.
Proof.
  intros (srv & rst & inst & ctxHash & coins & r & _ & _ & Hrun & Hok)%invoked_inv.
  destruct (Invoke_data _ _ _ _ _ _ Hrun Hok)
    as [(i & identity & signature & target & Htarget & ->) | (ids & ->)];
    cbn [c_deferredData] in *.
  - repeat split. cbn.
    rewrite <- (list_insert_id _ _ _ Htarget) at 1.
    apply Forall2_insert; [apply Forall2_gains_signers_refl |].
    repeat split; cbn; by apply prefix_app_r.
  - repeat split. apply Forall2_gains_signers_refl.
Qed.

Lemma star_grows (d d' : deferredData) :
  invoked_star d d' -> grows d d'.
Proof.
  induction 1 as [d | d1 d2 d3 Hstep Hstar IH]; [apply grows_refl |].
  eapply grows_trans; [by apply invoked_grows | exact IH].
Qed.

(** X4. Along any sequence of verified Invokes the proposed transaction
    keeps its instructions, in number and order, each with the same target,
    body and counters and the signers it had, more being added at the end
    only; the stored hashes and the expiry never change. *)
Theorem invoked_star_grows (d d' : deferredData) :
  invoked_star d d' -> grows d d'.
Proof. apply star_grows. Qed.

(** The hash reads the target and the body of the instruction only. *)
Lemma hashDeferred_gains_signers (instr instr' : Instruction) (binding : bytes) :
  gains_signers instr instr' ->
  hashDeferred instr' binding = hashDeferred instr binding.
Proof.
  intros (H1 & H2 & _). unfold hashDeferred. by rewrite H1, H2.
Qed.

(** X5. The hashes stored at Spawn stay the hashes of the stored
    instructions: in every state reached from a Spawn through verified
    Invokes, the stored hashes are, in order, the canonical hashes of the
    proposed instructions as they are stored then, bound to the instance the
    Spawn was sent to, one per instruction. *)
Theorem hashes_stay_canonical
    (rst : ReadOnlyStateTrie) (inst : Instruction) (coins : list Coin)
    (darcID : darc_ID) (d0 d : deferredData) :
  Spawn_data rst inst coins = Next (darcID, d0) ->
  invoked_star d0 d ->
  InstructionHashes d
  = map (fun proposedInstr =>
           hashDeferred proposedInstr (Instruction_InstanceID inst))
        (Instructions (ProposedTransaction d))
  /\ one_hash_each d.
Proof.
  intros Hspawn Hstar.
  assert (InstructionHashes d
          = map (fun proposedInstr =>
                   hashDeferred proposedInstr (Instruction_InstanceID inst))
                (Instructions (ProposedTransaction d))) as Heq.
  { apply Spawn_data_hashes in Hspawn.
    induction Hstar as [d | d1 d2 d3 Hstep Hstar IH]; [done |].
    apply IH. apply invoked_grows in Hstep as (Hinstrs & _ & ->).
    rewrite Hspawn. clear -Hinstrs.
    induction Hinstrs as [| x y l k Hxy Hlk IHl]; [done |].
    cbn. f_equal; [| exact IHl].
    symmetry. by apply hashDeferred_gains_signers. }
  split; [exact Heq |]. unfold one_hash_each. rewrite Heq. apply length_map.
Qed.

Lemma invoked_paired (d d' : deferredData) :
  paired d -> invoked d d' -> paired d'.
Proof.
  intros Hp (srv & rst & inst & ctxHash & coins & r & _ & _ & Hrun & Hok)%invoked_inv.
  destruct (Invoke_data _ _ _ _ _ _ Hrun Hok)
    as [(i & identity & signature & target & Htarget & ->) | (ids & ->)];
    cbn [c_deferredData] in *; [| done].
  unfold paired in *. cbn. apply Forall_insert; [done |].
  cbn. rewrite !length_app. cbn.
  rewrite Forall_lookup in Hp. by rewrite (Hp _ _ Htarget).
Qed.

(** X6. Identities and signatures stay paired: when every proposed
    instruction holds as many signatures as identities, it still does after
    any sequence of verified Invokes. *)
Theorem invoked_star_paired (d d' : deferredData) :
  paired d -> invoked_star d d' -> paired d'.
Proof.
  intros Hp Hstar. induction Hstar as [d | d1 d2 d3 Hstep Hstar IH]; [done |].
  apply IH. by eapply invoked_paired.
Qed.

(** X7. An instance with no execution left is frozen: no verified Invoke
    succeeds on it, so that the data reached from it are the data
    themselves. *)
Theorem exhausted_is_frozen (d d' : deferredData) :
  NumExecution d < 1 -> invoked_star d d' -> d' = d.
Proof.
  intros Hnum Hstar. destruct Hstar as [d | d1 d2 d3 Hstep Hstar]; [done |].
  apply invoked_inv in Hstep
    as (srv & rst & inst & ctxHash & coins & r & Htype & Hverify & _ & _).
  apply VerifyInstruction_admits in Hverify as (_ & Hge & _); [| done].
  cbn in Hge. lia.
Qed.

(** ** The guard of "addProof" *)

Lemma existsb_false_Forall {A} (f : A -> bool) (l : list A) :
  (forall x, x ∈ l -> f x = false) -> existsb f l = false.
Proof.
  intros Hall. destruct (existsb f l) eqn:Hex; [| done].
  apply existsb_exists in Hex as (x & Hin & Hfx).
  apply list_elem_of_In in Hin. by rewrite (Hall x Hin) in Hfx.
Qed.

(** X8. Past the general checks, the guard of "addProof" decides on the
    signature: for an identity that has not signed the targeted instruction
    yet, the Invoke is let through exactly when the identity verifies the
    signature against the hash stored at the index, and is rejected with
    "Bad signature" otherwise. *)
Theorem VerifyInstruction_addProof_signature
    (c : contractDeferred) (rst : ReadOnlyStateTrie) (instr : Instruction)
    (ctxHash : bytes) (iv : byzcoin.Invoke) (identityBuf indexBuf signature h : bytes)
    (identity : Identity) (index : Z) (target : Instruction) :
  Instruction_Body instr = IsInvoke iv ->
  Invoke_Command iv = "addProof" ->
  BasicContract_VerifyInstruction rst instr ctxHash = None ->
  1 <= NumExecution (c_deferredData c) ->
  u64 (GetIndex rst) <= ExpireBlockIndex (c_deferredData c) ->
  Search (Invoke_Args iv) "identity" = Some identityBuf ->
  Identity_Decode identityBuf = inr identity ->
  Search (Invoke_Args iv) "index" = Some indexBuf ->
  LittleEndian_Uint32 indexBuf = Returns index ->
  Instructions (ProposedTransaction (c_deferredData c)) !! Z.to_nat index
    = Some target ->
  (forall stored, stored ∈ SignerIdentities target ->
                  Identity_Equal identity stored = false) ->
  Search (Invoke_Args iv) "signature" = Some signature ->
  InstructionHashes (c_deferredData c) !! Z.to_nat index = Some h ->
  VerifyInstruction c rst instr ctxHash
  = Returns (match Identity_Verify identity h signature with
             | None => None
             | Some _ => Some (errors_New "Bad signature")
             end).
Proof.
  intros Hbody Hcmd Hbase Hnum Hexp Hidentity Hid Hidx Hindex Htarget Hnew
    Hsig Hh.
  unfold VerifyInstruction, GetType. unfold_flow.
  rewrite Hbase, Hbody. cbn. change (u64 1) with 1.
  rewrite (proj2 (Z.ltb_ge _ _) Hnum).
  destruct (u64 (GetIndex rst) >? ExpireBlockIndex (c_deferredData c)) eqn:Hgt;
    [apply Z.gtb_gt in Hgt; lia |].
  rewrite Hcmd. cbn. rewrite Hidentity, Hid, Hidx, Hindex, Htarget.
  rewrite (existsb_false_Forall
             (fun storedIdentity => Identity_Equal identity storedIdentity)
             _ Hnew), Hsig, Hh.
  by destruct (Identity_Verify identity h signature).
Qed.

(** What the guard has read of an "addProof" it lets through. *)
Lemma VerifyInstruction_addProof_admitted
    (c : contractDeferred) (rst : ReadOnlyStateTrie) (instr : Instruction)
    (ctxHash : bytes) (iv : byzcoin.Invoke) :
  Instruction_Body instr = IsInvoke iv ->
  Invoke_Command iv = "addProof" ->
  VerifyInstruction c rst instr ctxHash = Returns None ->
  exists identityBuf identity indexBuf index target signature,
    Search (Invoke_Args iv) "identity" = Some identityBuf
    /\ Identity_Decode identityBuf = inr identity
    /\ Search (Invoke_Args iv) "index" = Some indexBuf
    /\ LittleEndian_Uint32 indexBuf = Returns index
    /\ Instructions (ProposedTransaction (c_deferredData c)) !! Z.to_nat index
       = Some target
    /\ Search (Invoke_Args iv) "signature" = Some signature.
Proof.
  intros Hbody Hcmd. unfold VerifyInstruction, GetType. unfold_flow.
  rewrite Hbody. cbn. intros Hverify.
  destruct (BasicContract_VerifyInstruction rst instr ctxHash); [done |].
  destruct (NumExecution (c_deferredData c) <? u64 1); [done |].
  destruct (u64 (GetIndex rst) >? ExpireBlockIndex (c_deferredData c)); [done |].
  rewrite Hcmd in Hverify. cbn in Hverify.
  destruct (Search (Invoke_Args iv) "identity") as [identityBuf |]; [| done].
  destruct (Identity_Decode identityBuf) as [e | identity] eqn:Hid; [done |].
  destruct (Search (Invoke_Args iv) "index") as [indexBuf |]; [| done].
  destruct (LittleEndian_Uint32 indexBuf) as [index |] eqn:Hindex; [| done].
  destruct (Instructions (ProposedTransaction (c_deferredData c)) !! Z.to_nat index)
    as [target |] eqn:Htarget; [| done].
  destruct (existsb _ _); [done |].
  destruct (Search (Invoke_Args iv) "signature") as [signature |]; [| done].
  by exists identityBuf, identity, indexBuf, index, target, signature.
Qed.

(** X9. An "addProof" that the guard lets through goes through: its
    arguments were read and its index found in range by the guard already,
    so that the body fails only if the instance is not found or the new data
    cannot be encoded (the proposed instructions being fewer than 2^32, for
    the comparison in [uint32] to be the one of the lengths). *)
Theorem admitted_addProof_succeeds
    (c : contractDeferred) (rst : ReadOnlyStateTrie) (inst : Instruction)
    (ctxHash : bytes) (coins : list Coin) :
  is_command inst "addProof" ->
  VerifyInstruction c rst inst ctxHash = Returns None ->
  len (Instructions (ProposedTransaction (c_deferredData c))) < 2 ^ 32 ->
  (exists found, GetValues rst (Instruction_InstanceID inst) = inr found) ->
  (forall d, exists buf, Encode_deferredData d = inr buf) ->
  exists d' r,
    verifyThenInvoke c rst inst ctxHash coins = Returns (d', r)
    /\ err r = None.
Proof.
  intros (iv & Hbody & Hcmd) Hverify Hlen
    [[[[value version] contractID] darcID] Hget] Henc.
  destruct (VerifyInstruction_addProof_admitted _ _ _ _ _ Hbody Hcmd Hverify)
    as (identityBuf & identity & indexBuf & index & target & signature
        & Hidentity & Hid & Hidx & Hindex & Htarget & Hsig).
  unfold verifyThenInvoke. rewrite Hverify.
  unfold Invoke. unfold_flow. rewrite Hget, Hbody, Hcmd. cbn.
  rewrite Hidx, Hindex.
  pose proof (LittleEndian_Uint32_range _ _ Hindex) as [Hlo Hhi].
  pose proof (lookup_lt_Some _ _ _ Htarget) as Hlt.
  assert ((index >=? u32 (len (Instructions (ProposedTransaction (c_deferredData c)))))
          = false) as ->.
  { unfold u32. rewrite Z.mod_small by (unfold len in *; lia).
    rewrite Z.geb_leb. apply Z.leb_gt. unfold len. lia. }
  rewrite Hidentity, Hid, Hsig, Htarget.
  rewrite list_lookup_insert_eq by done.
  match goal with |- context [Encode_deferredData ?d] =>
    destruct (Henc d) as [buf ->] end.
  by eexists _, _.
Qed.

(** An "addProof" by an identity that a stored signer of the targeted
    instruction equals is rejected by the guard, by this check or by one
    that comes before. *)
Lemma VerifyInstruction_duplicate
    (c : contractDeferred) (rst : ReadOnlyStateTrie) (instr : Instruction)
    (ctxHash : bytes) (iv : byzcoin.Invoke) (identityBuf indexBuf : bytes)
    (identity stored : Identity) (index : Z) (target : Instruction) :
  Instruction_Body instr = IsInvoke iv ->
  Invoke_Command iv = "addProof" ->
  Search (Invoke_Args iv) "identity" = Some identityBuf ->
  Identity_Decode identityBuf = inr identity ->
  Search (Invoke_Args iv) "index" = Some indexBuf ->
  LittleEndian_Uint32 indexBuf = Returns index ->
  Instructions (ProposedTransaction (c_deferredData c)) !! Z.to_nat index
    = Some target ->
  stored ∈ SignerIdentities target ->
  Identity_Equal identity stored = true ->
  exists e, VerifyInstruction c rst instr ctxHash = Returns (Some e).
Proof.
  intros Hbody Hcmd Hidentity Hid Hidx Hindex Htarget Hin Heq.
  assert (existsb (fun storedIdentity => Identity_Equal identity storedIdentity)
                  (SignerIdentities target) = true) as Hdup.
  { apply existsb_exists. exists stored. split; [by apply list_elem_of_In | done]. }
  unfold VerifyInstruction, GetType. unfold_flow.
  destruct (BasicContract_VerifyInstruction rst instr ctxHash) as [e |];
    [by exists e |].
  rewrite Hbody. cbn.
  destruct (NumExecution (c_deferredData c) <? u64 1); [by eexists |].
  destruct (u64 (GetIndex rst) >? ExpireBlockIndex (c_deferredData c));
    [by eexists |].
  rewrite Hcmd. cbn. rewrite Hidentity, Hid, Hidx, Hindex, Htarget, Hdup.
  by eexists.
Qed.

(** X10. An identity proves an instruction once: after a successful
    "addProof" of an identity for the instruction at an index, and whatever
    verified Invokes follow, the guard rejects every "addProof" for that
    index by an identity equal to it. *)
Theorem addProof_at_most_once
    (c : contractDeferred) (rst : ReadOnlyStateTrie) (inst : Instruction)
    (iv : byzcoin.Invoke) (coins : list Coin) (d1 : deferredData) (r : Result)
    (identityBuf indexBuf : bytes) (identity : Identity) (index : Z)
    (d2 : deferredData) (srv2 : Service) (rst2 : ReadOnlyStateTrie)
    (inst2 : Instruction) (iv2 : byzcoin.Invoke) (ctxHash2 : bytes)
    (identityBuf2 indexBuf2 : bytes) (identity2 : Identity) :
  Instruction_Body inst = IsInvoke iv ->
  Invoke_Command iv = "addProof" ->
  Search (Invoke_Args iv) "identity" = Some identityBuf ->
  Identity_Decode identityBuf = inr identity ->
  Search (Invoke_Args iv) "index" = Some indexBuf ->
  LittleEndian_Uint32 indexBuf = Returns index ->
  Invoke c rst inst coins = Returns (d1, r) ->
  err r = None ->
  invoked_star d1 d2 ->
  Instruction_Body inst2 = IsInvoke iv2 ->
  Invoke_Command iv2 = "addProof" ->
  Search (Invoke_Args iv2) "identity" = Some identityBuf2 ->
  Identity_Decode identityBuf2 = inr identity2 ->
  Search (Invoke_Args iv2) "index" = Some indexBuf2 ->
  LittleEndian_Uint32 indexBuf2 = Returns index ->
  Identity_Equal identity2 identity = true ->
  exists e,
    VerifyInstruction {| c_deferredData := d2; s := srv2 |} rst2 inst2 ctxHash2
    = Returns (Some e).
Proof.
  intros Hbody Hcmd Hidentity Hid Hidx Hindex Hrun Hok Hstar
    Hbody2 Hcmd2 Hidentity2 Hid2 Hidx2 Hindex2 Heq.
  destruct (Invoke_addProof_Returns _ _ _ _ _ _ _ Hbody Hcmd Hrun Hok)
    as (indexBuf' & index' & identityBuf' & identity' & signature & target
        & buf & darcID & Hidx' & Hindex' & Hidentity' & Hid' & _ & Htarget
        & -> & _).
  rewrite Hidx in Hidx'. injection Hidx' as <-.
  rewrite Hindex in Hindex'. injection Hindex' as <-.
  rewrite Hidentity in Hidentity'. injection Hidentity' as <-.
  rewrite Hid in Hid'. injection Hid' as <-.
  apply star_grows in Hstar as (Hinstrs & _). cbn in Hinstrs.
  destruct (Forall2_lookup_l _ _ _ (Z.to_nat index)
              (add_signer identity signature target) Hinstrs)
    as (target2 & Htarget2 & (_ & _ & _ & Hids & _)).
  { apply list_lookup_insert_eq. by eapply lookup_lt_Some. }
  eapply (VerifyInstruction_duplicate _ _ _ _ _ _ _ identity2 identity);
    try done.
  eapply elem_of_prefix; [| exact Hids]. cbn. set_solver.
Qed.

(** ** The body of Invoke and its bounds *)

Lemma LittleEndian_Uint32_Returns (b : bytes) :
  (4 <= length b)%nat -> exists v, LittleEndian_Uint32 b = Returns v.
Proof.
  destruct b as [| b0 [| b1 [| b2 [| b3 rest]]]]; cbn; try lia.
  intros _. by eexists.
Qed.

Lemma execLoop_no_Panic (c : contractDeferred) (rst : ReadOnlyStateTrie)
    (coins : list Coin) (instrs : list Instruction) :
  forall i instructionIDs sc,
    (i + length instrs <= length (InstructionHashes (c_deferredData c)))%nat ->
    execLoop c rst coins i instrs instructionIDs sc <> Panic.
Proof.
  induction instrs as [| x rest IH]; intros i ids sc0 Hlen; [done |].
  cbn [execLoop length] in *.
  destruct (execProposedInstr c rst coins i x) as [scs | r |] eqn:Hx; cbn;
    [apply IH; lia | done |].
  apply execProposedInstr_Panic in Hx. apply lookup_ge_None in Hx. lia.
Qed.

(** X11. The body of Invoke does not panic on an Invoke instruction: with
    one stored hash per proposed instruction, and an index argument of four
    bytes at least when the command is "addProof", it returns, for every
    command, index and state of the ledger. *)
Theorem Invoke_returns
    (c : contractDeferred) (rst : ReadOnlyStateTrie) (inst : Instruction)
    (iv : byzcoin.Invoke) (coins : list Coin) :
  Instruction_Body inst = IsInvoke iv ->
  one_hash_each (c_deferredData c) ->
  (forall indexBuf,
     Invoke_Command iv = "addProof" ->
     Search (Invoke_Args iv) "index" = Some indexBuf ->
     (4 <= length indexBuf)%nat) ->
  exists d' r, Invoke c rst inst coins = Returns (d', r).
Proof.
  intros Hbody Hhashes Hfour. unfold Invoke. unfold_flow.
  destruct (GetValues rst (Instruction_InstanceID inst))
    as [e | [[[value version] contractID] darcID]]; [by eexists _, _ |].
  rewrite Hbody.
  destruct (Invoke_Command iv =? "addProof")%string eqn:Hcmd.
  - apply String.eqb_eq in Hcmd.
    destruct (Search (Invoke_Args iv) "index") as [indexBuf |] eqn:Hidx;
      [| by eexists _, _].
    destruct (LittleEndian_Uint32_Returns indexBuf (Hfour _ Hcmd eq_refl))
      as [index Hindex].
    rewrite Hindex.
    pose proof (LittleEndian_Uint32_range _ _ Hindex) as [Hlo Hhi].
    destruct (index >=? _) eqn:Hrange; [by eexists _, _ |].
    destruct (Search (Invoke_Args iv) "identity") as [identityBuf |];
      [| by eexists _, _].
    destruct (Identity_Decode identityBuf) as [e | identity]; [by eexists _, _ |].
    destruct (Search (Invoke_Args iv) "signature") as [signature |];
      [| by eexists _, _].
    rewrite Z.geb_leb in Hrange. apply Z.leb_gt in Hrange.
    assert (Z.to_nat index
            < length (Instructions (ProposedTransaction (c_deferredData c))))%nat
      as Hlt.
    { unfold u32, len in Hrange.
      pose proof (Z.mod_le (Z.of_nat (length (Instructions (ProposedTransaction
                    (c_deferredData c))))) (2 ^ 32)
                    ltac:(lia) ltac:(lia)).
      lia. }
    destruct (lookup_lt_is_Some_2 _ _ Hlt) as [target ->].
    rewrite list_lookup_insert_eq by done.
    destruct (Encode_deferredData _); by eexists _, _.
  - destruct (Invoke_Command iv =? "execProposedTx")%string;
      [| by eexists _, _].
    destruct (execLoop c rst coins 0 _ _ []) as [[ids scs] | [d0 r0] |] eqn:Hloop;
      cbn.
    + destruct (Encode_deferredData _); by eexists _, _.
    + by eexists _, _.
    + exfalso. revert Hloop. apply execLoop_no_Panic.
      unfold one_hash_each in Hhashes. lia.
Qed.

(** X12. The body of "addProof" checks the range of the index before it
    writes: an index that is not below the number of proposed instructions
    (as a [uint32]) makes Invoke return the range error, with no state
    change and the data as they were. *)
Theorem addProof_out_of_range_error
    (c : contractDeferred) (rst : ReadOnlyStateTrie) (inst : Instruction)
    (iv : byzcoin.Invoke) (coins : list Coin) (indexBuf : bytes) (index : Z) :
  Instruction_Body inst = IsInvoke iv ->
  Invoke_Command iv = "addProof" ->
  (exists found, GetValues rst (Instruction_InstanceID inst) = inr found) ->
  Search (Invoke_Args iv) "index" = Some indexBuf ->
  LittleEndian_Uint32 indexBuf = Returns index ->
  u32 (len (Instructions (ProposedTransaction (c_deferredData c)))) <= index ->
  Invoke c rst inst coins
  = Returns (c_deferredData c,
             mkResult [] []
               (Some ("Index is out of range (" +:+ fmt_d index +:+ " >= "
                        +:+ fmt_d (len (Instructions (ProposedTransaction
                                                       (c_deferredData c))))
                        +:+ ")"))).
Proof.
  intros Hbody Hcmd [[[[value version] contractID] darcID] Hget] Hidx Hindex
    Hrange.
  unfold Invoke. unfold_flow. rewrite Hget, Hbody, Hcmd. cbn.
  rewrite Hidx, Hindex.
  by rewrite (proj2 (Z.geb_le _ _) Hrange).
Qed.

(** ** "execProposedTx": the empty transaction, and execution again *)

(** X13. A deferred instance whose proposed transaction holds no
    instruction executes: "execProposedTx" calls no contract, sets
    [ExecResult] to the empty list, takes one execution and emits the Update
    of the instance alone. *)
Theorem execProposedTx_empty
    (c : contractDeferred) (rst : ReadOnlyStateTrie) (inst : Instruction)
    (coins : list Coin) (value : bytes) (version : Z) (contractID : string)
    (darcID : darc_ID) (buf : bytes) :
  is_command inst "execProposedTx" ->
  Instructions (ProposedTransaction (c_deferredData c)) = [] ->
  GetValues rst (Instruction_InstanceID inst)
    = inr (value, version, contractID, darcID) ->
  let d' := {| ProposedTransaction := ProposedTransaction (c_deferredData c);
               ExpireBlockIndex := ExpireBlockIndex (c_deferredData c);
               InstructionHashes := InstructionHashes (c_deferredData c);
               NumExecution := u64 (NumExecution (c_deferredData c) - 1);
               ExecResult := [] |} in
  Encode_deferredData d' = inr buf ->
  Invoke c rst inst coins
  = Returns (d', mkResult [NewStateChange Update (Instruction_InstanceID inst)
                             ContractDeferredID buf darcID]
                   coins None).
Proof.
  intros (iv & Hbody & Hcmd) Hempty Hget d' Henc. subst d'.
  unfold Invoke. unfold_flow. rewrite Hget, Hbody, Hcmd, Hempty. cbn.
  match goal with |- context [Encode_deferredData ?d] =>
    change (Encode_deferredData d) with
      (Encode_deferredData
         {| ProposedTransaction := ProposedTransaction (c_deferredData c);
            ExpireBlockIndex := ExpireBlockIndex (c_deferredData c);
            InstructionHashes := InstructionHashes (c_deferredData c);
            NumExecution := u64 (NumExecution (c_deferredData c) - 1);
            ExecResult := [] |}) end.
  by rewrite Henc.
Qed.

Lemma passes_same_service (c c' : contractDeferred) (rst : ReadOnlyStateTrie)
    (coins : list Coin) (proposedInstr : Instruction) (h : bytes)
    (stateChanges : list StateChange) :
  s c' = s c ->
  passes c rst coins proposedInstr h stateChanges ->
  passes c' rst coins proposedInstr h stateChanges.
Proof. unfold passes. by intros ->. Qed.

(** The loop reads the service and the stored hashes of the receiver only. *)
Lemma execLoop_Next_ext (c c' : contractDeferred) (rst : ReadOnlyStateTrie)
    (coins : list Coin) (instrs : list Instruction) :
  s c' = s c ->
  InstructionHashes (c_deferredData c') = InstructionHashes (c_deferredData c) ->
  forall i instructionIDs sc out,
    execLoop c rst coins i instrs instructionIDs sc = Next out ->
    execLoop c' rst coins i instrs instructionIDs sc = Next out.
Proof.
  intros Hs Hh. induction instrs as [| x rest IH]; intros i ids sc0 out;
    [done |].
  cbn [execLoop].
  destruct (execProposedInstr c rst coins i x) as [scs | r |] eqn:Hx; cbn;
    [| done | done].
  apply execProposedInstr_Next in Hx as (h & Hhash & Hpass).
  rewrite <- Hh in Hhash.
  rewrite (execProposedInstr_passes c' rst coins i x h scs Hhash
             (passes_same_service c c' _ _ _ _ _ Hs Hpass)).
  cbn. apply IH.
Qed.

(** X14. While executions are left the proposed transaction executes
    again: after a verified "execProposedTx" on an instance with two
    executions at least, the same instruction on the same view of the ledger
    goes through once more, with the same [ExecResult], the same state
    changes of the proposed instructions, and one execution less again. *)
Theorem execProposedTx_again
    (c : contractDeferred) (rst : ReadOnlyStateTrie) (inst : Instruction)
    (ctxHash : bytes) (coins : list Coin) (d1 : deferredData) (r1 : Result) :
  is_command inst "execProposedTx" ->
  is_u64 (NumExecution (c_deferredData c)) ->
  2 <= NumExecution (c_deferredData c) ->
  verifyThenInvoke c rst inst ctxHash coins = Returns (d1, r1) ->
  err r1 = None ->
  (forall d, exists buf, Encode_deferredData d = inr buf) ->
  exists d2 r2 nested update1 update2,
    verifyThenInvoke {| c_deferredData := d1; s := s c |} rst inst ctxHash coins
    = Returns (d2, r2)
    /\ err r2 = None
    /\ ExecResult d2 = ExecResult d1
    /\ NumExecution d2 = NumExecution (c_deferredData c) - 2
    /\ sc r1 = nested ++ [update1]
    /\ sc r2 = nested ++ [update2].
Proof.
  intros Hcmd Hu64 Htwo Hrun Hok Henc.
  pose proof Hcmd as (iv & Hbody & Hname).
  apply verifyThenInvoke_success in Hrun as [Hverify Hrun]; [| done].
  apply VerifyInstruction_admits in Hverify as (Hbase & _ & Hexp);
    [| by eapply is_command_Invoke].
  unfold Invoke in Hrun. unfold_flow.
  destruct (GetValues rst (Instruction_InstanceID inst))
    as [e | [[[value version] contractID] darcID]] eqn:Hget;
    [by simplify_eq/= |].
  rewrite Hbody, Hname in Hrun. cbn in Hrun.
  destruct (execLoop c rst coins 0 _ _ []) as [[ids scs] | r0 |] eqn:Hloop;
    [| | by simplify_eq/=].
  2: { apply execLoop_Return in Hloop as [e ->]. by simplify_eq/=. }
  cbn in Hrun.
  destruct (Encode_deferredData _) as [e | buf1] in Hrun; simplify_eq/=.
  unfold verifyThenInvoke.
  rewrite VerifyInstruction_execProposedTx; cbn; try done.
  2: { unfold u64, is_u64 in *. rewrite Z.mod_small; lia. }
  unfold Invoke. unfold_flow. cbn. rewrite Hget, Hbody, Hname. cbn.
  match goal with |- context [execLoop ?c' rst coins 0 ?l ?ids0 []] =>
    rewrite (execLoop_Next_ext c c' rst coins l eq_refl eq_refl 0%nat ids0 []
               _ Hloop) end.
  cbn.
  match goal with |- context [Encode_deferredData ?d] =>
    destruct (Henc d) as [buf2 ->] end.
  eexists _, _, scs, _, _. split; [reflexivity |]. cbn.
  repeat split. unfold u64, is_u64 in *.
  rewrite (Z.mod_small (NumExecution (c_deferredData c) - 1)) by lia.
  rewrite Z.mod_small; lia.
Qed.

(** ** Spawn: what is not given *)

(** X15. Spawn stores an empty [ExecResult], and one execution when the
    argument "NumExecution" is missing or empty. *)
Theorem Spawn_defaults
    (rst : ReadOnlyStateTrie) (inst : Instruction) (sp : byzcoin.Spawn)
    (coins : list Coin) (darcID : darc_ID) (d : deferredData) :
  Instruction_Body inst = IsSpawn sp ->
  Spawn_data rst inst coins = Next (darcID, d) ->
  ExecResult d = []
  /\ (slice (Search (Spawn_Args sp) "NumExecution") = [] -> NumExecution d = 1).
Proof.
  intros Hbody. unfold Spawn_data. unfold_flow. rewrite Hbody.
  intros Hrun.
  destruct (GetValues rst (Instruction_InstanceID inst))
    as [e | [[[value version] contractID] darcID0]]; [done |].
  destruct (Decode_ClientTransaction _) as [e | tx]; [done |].
  destruct (strconv_ParseUint _) as [e | expire]; [done |].
  split.
  - destruct (0 <? len _); [destruct (strconv_ParseUint _) |];
      by simplify_eq/=.
  - intros Hnil. rewrite Hnil in Hrun. cbn in Hrun. by simplify_eq/=.
Qed.

(** ** The registry *)

(** X16. The registry gives back, for a name, the constructor registered
    last under it, and none for a name that was never registered: a
    registration under a name replaces the one before and leaves the other
    names as they were. *)
Theorem registry_lookup
    (c : ContractRegistry) (contractName name : string) (contractFn : ContractFn) :
  GetContractConstructor (RegisterContract c contractName contractFn) name
  = (if decide (contractName = name) then Some contractFn
     else GetContractConstructor c name)
  /\ GetContractConstructor NewContractRegistry name = None.
Proof.
  unfold GetContractConstructor, RegisterContract, NewContractRegistry. cbn.
  split; [apply lookup_insert | apply lookup_empty].
Qed.

(** ** The canonical hash does not delimit the contract identifier *)

Lemma bytes_of_string_app (s1 s2 : string) :
  bytes_of_string (s1 +:+ s2) = bytes_of_string s1 ++ bytes_of_string s2.
Proof.
  induction s1 as [| a s1 IH]; [done |].
  unfold bytes_of_string, String.list_byte_of_string in *.
  change (String a s1 +:+ s2) with (String a (s1 +:+ s2)). cbn. by f_equal.
Qed.

(** X17. The contract identifier is written without its length: a Spawn of
    contract [c] with the arguments [a :: args] and a Spawn, on the same
    instance, of the contract whose identifier is [c] followed by the bytes
    written for [a], with the arguments [args], have the same hash, for every
    binding identifier and every digest function. *)
Theorem hashDeferred_contract_id_not_delimited
    (iid : InstanceID) (contractID : string) (a : Argument) (args : Arguments)
    (ctrs : list Z) (ids : list Identity) (sigs : list bytes) (binding : bytes) :
  let instr1 := {| Instruction_InstanceID := iid;
                   Instruction_Body :=
                     IsSpawn {| Spawn_ContractID := contractID;
                                Spawn_Args := a :: args |};
                   SignerCounter := ctrs; SignerIdentities := ids;
                   Signatures := sigs |} in
  let instr2 := {| Instruction_InstanceID := iid;
                   Instruction_Body :=
                     IsSpawn {| Spawn_ContractID :=
                                  contractID
                                    +:+ String.string_of_list_byte (argument_bytes a);
                                Spawn_Args := args |};
                   SignerCounter := ctrs; SignerIdentities := ids;
                   Signatures := sigs |} in
  instr1 <> instr2
  /\ hashDeferred instr1 binding = hashDeferred instr2 binding.
Proof.
  intros instr1 instr2. split.
  - intros Heq. apply (f_equal (fun i => length (arguments_of i))) in Heq.
    cbn in Heq. lia.
  - rewrite !hashDeferred_eq_canonical_hash.
    unfold canonical_hash, kind_tag, contractID_of, arguments_of, GetType.
    subst instr1 instr2.
    cbn [Instruction_Body Instruction_InstanceID Spawn_ContractID Spawn_Args
         map concat].
    rewrite bytes_of_string_app.
    unfold bytes_of_string at 3.
    rewrite String.list_byte_of_string_of_list_byte.
    by rewrite <- !app_assoc.
Qed.

End MoreProperties.

(** * Properties of the calypso contracts *)

Import calypso.

Section CalypsoProperties.
Context {D : Darc} {P : Platform} {C : Calypso}.

Lemma InstanceID_Equal_eq (a b : InstanceID) :
  InstanceID_Equal a b = true <-> a = b.
Proof.
  revert b. induction a as [| x a IH]; intros [| y b]; cbn; try done.
  rewrite andb_true_iff, IH. split.
  - intros [Hxy ->]. by rewrite (Byte.byte_dec_bl _ _ Hxy).
  - intros [= -> ->]. split; [by apply Byte.byte_dec_lb | done].
Qed.

(** ** The overlap of two rosters *)

Lemma intersectRosters_fold (r1 : Roster) (l : list ServerIdentity) (acc : Z) :
  fold_left (fun res x =>
               if Roster_Search (Roster_List r1) (ServerIdentity_ID x) =? -1
               then res else res + 1) l acc
  = acc + len (List.filter (found r1) l).
Proof.
  revert acc. induction l as [| x l IH]; intros acc; cbn.
  - unfold len. cbn. lia.
  - rewrite IH. unfold found at 2.
    destruct (Roster_Search _ _ =? -1); cbn; unfold len; cbn [length]; lia.
Qed.

Lemma intersectRosters_count (r1 r2 : Roster) :
  intersectRosters r1 r2 = len (List.filter (found r1) (Roster_List r2)).
Proof. unfold intersectRosters. by rewrite intersectRosters_fold. Qed.

Lemma filter_length_le {A} (f : A -> bool) (l : list A) :
  (length (List.filter f l) <= length l)%nat.
Proof. induction l as [| x l IH]; cbn; [lia |]. destruct (f x); cbn; lia. Qed.

Lemma filter_length_all {A} (f : A -> bool) (l : list A) :
  length (List.filter f l) = length l <-> Forall (fun x => f x = true) l.
Proof.
  induction l as [| x l IH]; cbn.
  - split; [constructor | done].
  - pose proof (filter_length_le f l). destruct (f x) eqn:Hx; cbn.
    + split.
      * intros [= Hlen]. constructor; [done | by apply IH].
      * intros Hall. inversion Hall; subst. f_equal. by apply IH.
    + split; [lia |]. intros Hall. inversion Hall; congruence.
Qed.

Lemma filter_length_none {A} (f : A -> bool) (l : list A) :
  length (List.filter f l) = 0%nat <-> Forall (fun x => f x = false) l.
Proof.
  induction l as [| x l IH]; cbn.
  - split; [constructor | done].
  - destruct (f x) eqn:Hx; cbn.
    + split; [done |]. intros Hall. inversion Hall; congruence.
    + rewrite IH. split.
      * intros Hall. by constructor.
      * intros Hall. by inversion Hall.
Qed.

Lemma intersectRosters_nonneg (r1 r2 : Roster) :
  0 <= intersectRosters r1 r2.
Proof. rewrite intersectRosters_count. unfold len. lia. Qed.

(** X18. The overlap counts the entries of the second roster that are found
    in the first, each as often as it is listed: it lies between zero and
    the length of the second roster, reaches that length exactly when every
    entry is found, and is zero exactly when none is. *)
Theorem intersectRosters_bounds (r1 r2 : Roster) :
  0 <= intersectRosters r1 r2 <= len (Roster_List r2)
  /\ (intersectRosters r1 r2 = len (Roster_List r2)
      <-> Forall (fun x => found r1 x = true) (Roster_List r2))
  /\ (intersectRosters r1 r2 = 0
      <-> Forall (fun x => found r1 x = false) (Roster_List r2)).
Proof.
  rewrite intersectRosters_count. unfold len.
  pose proof (filter_length_le (found r1) (Roster_List r2)).
  split; [lia |]. split.
  - rewrite <- filter_length_all. lia.
  - rewrite <- filter_length_none. lia.
Qed.

(** ** The threshold of a reshare *)

(** The threshold [n - (n-1)/3] is the least number above two thirds of
    [n]. *)
Lemma threshold_two_thirds (n overlap : Z) :
  0 <= n -> 0 <= overlap ->
  (overlap <? n - Z.quot (n - 1) 3) = false <-> n = 0 \/ 2 * n < 3 * overlap.
Proof.
  intros Hn Ho. rewrite Z.ltb_ge.
  destruct (decide (n = 0)) as [-> | Hn0].
  - change (0 - Z.quot (0 - 1) 3) with 0. split; [by left | lia].
  - rewrite Z.quot_div_nonneg by lia.
    pose proof (Z.div_mod (n - 1) 3 ltac:(lia)) as Hdiv.
    pose proof (Z.mod_pos_bound (n - 1) 3 ltac:(lia)) as Hmod.
    split; [intros Hle; right; lia | intros [Hz | Hlt]; lia].
Qed.

(** What a "reshare" whose arguments decode returns. *)
Lemma reshare_runs
    (rst : ReadOnlyStateTrie) (inst : Instruction) (coins : list Coin)
    (iv : byzcoin.Invoke) (curBuf infoBuf : bytes) (version : Z)
    (contractID : string) (darcID : darc_ID) (cur new : list ServerIdentity) :
  GetValues rst (Instruction_InstanceID inst)
  = inr (curBuf, version, contractID, darcID) ->
  Instruction_Body inst = IsInvoke iv ->
  Invoke_Command iv = "reshare" ->
  Search (Invoke_Args iv) "lts_instance_info" = Some infoBuf ->
  infoBuf <> [] ->
  Decode_LtsInstanceInfo infoBuf = inr new ->
  Decode_LtsInstanceInfo curBuf = inr cur ->
  contractLTS_Invoke rst inst coins
  = Returns
      (if intersectRosters {| Roster_List := cur |} {| Roster_List := new |}
          <? len cur - Z.quot (len cur - 1) 3
       then fail "new roster does not overlap enough with current roster"
       else mkResult
              [NewStateChange Update (Instruction_InstanceID inst)
                 ContractLongTermSecretID infoBuf darcID]
              coins None).
Proof.
  intros Hvalues Hbody Hcommand Hsearch Hnonempty Hnew Hcur.
  assert (nil_or_empty (Some infoBuf) = false) as Hinfo.
  { cbn. destruct infoBuf; [done |]. apply Z.eqb_neq. unfold len.
    cbn [length]. lia. }
  unfold contractLTS_Invoke, decode_LtsInstanceInfo. unfold_flow.
  rewrite Hvalues, Hbody, Hcommand, Hsearch, Hinfo. cbn.
  rewrite Hnew, Hcur. cbn -[intersectRosters Z.quot Z.ltb Z.sub len].
  by destruct (_ <? _).
Qed.

(** X19. A "reshare" whose arguments decode is accepted exactly when the
    current roster is empty or the overlap of the two rosters is above two
    thirds of the current roster; accepted, it updates the instance with the
    bytes of the argument and returns the coins; refused, it returns
    neither state changes nor coins. *)
Theorem reshare_two_thirds
    (rst : ReadOnlyStateTrie) (inst : Instruction) (coins : list Coin)
    (iv : byzcoin.Invoke) (curBuf infoBuf : bytes) (version : Z)
    (contractID : string) (darcID : darc_ID) (cur new : list ServerIdentity) :
  GetValues rst (Instruction_InstanceID inst)
  = inr (curBuf, version, contractID, darcID) ->
  Instruction_Body inst = IsInvoke iv ->
  Invoke_Command iv = "reshare" ->
  Search (Invoke_Args iv) "lts_instance_info" = Some infoBuf ->
  infoBuf <> [] ->
  Decode_LtsInstanceInfo infoBuf = inr new ->
  Decode_LtsInstanceInfo curBuf = inr cur ->
  let n := len cur in
  let overlap := intersectRosters {| Roster_List := cur |}
                                  {| Roster_List := new |} in
  exists r,
    contractLTS_Invoke rst inst coins = Returns r
    /\ (err r = None <-> n = 0 \/ 2 * n < 3 * overlap)
    /\ (err r = None ->
        r = mkResult
              [NewStateChange Update (Instruction_InstanceID inst)
                 ContractLongTermSecretID infoBuf darcID]
              coins None)
    /\ (err r <> None -> sc r = [] /\ cout r = []).
Proof.
  intros Hvalues Hbody Hcommand Hsearch Hnonempty Hnew Hcur n overlap.
  pose proof (threshold_two_thirds n overlap) as Hthr.
  assert (0 <= n) as Hn by (unfold n, len; lia).
  assert (0 <= overlap) as Ho by apply intersectRosters_nonneg.
  specialize (Hthr Hn Ho).
  rewrite (reshare_runs rst inst coins iv curBuf infoBuf version contractID
             darcID cur new) by done.
  fold n overlap.
  destruct (overlap <? n - Z.quot (n - 1) 3) eqn:Hlt; cbn.
  - eexists. split; [reflexivity |]. cbn.
    split; [| split; [done | done]].
    split; [done |]. intros Hok. apply Hthr in Hok. done.
  - eexists. split; [reflexivity |]. cbn.
    split; [| split; [done | done]].
    split; [intros _; by apply Hthr | done].
Qed.

Lemma filter_length_submseteq {A} (f : A -> bool) (l1 l2 : list A) :
  l1 ⊆+ l2 -> (length (List.filter f l1) <= length (List.filter f l2))%nat.
Proof.
  induction 1 as [| x l1 l2 _ IH | x y l | x l1 l2 _ IH | l1 l2 l3 _ IH1 _ IH2];
    cbn.
  - lia.
  - destruct (f x); cbn; lia.
  - destruct (f x), (f y); cbn; lia.
  - destruct (f x); cbn; lia.
  - lia.
Qed.

(** X20. Provided the search finds the members of a roster, a "reshare" to a
    roster that holds every node of the current one, in any order and
    whatever it adds to them, is accepted. *)
Theorem reshare_keeping_every_node
    (rst : ReadOnlyStateTrie) (inst : Instruction) (coins : list Coin)
    (iv : byzcoin.Invoke) (curBuf infoBuf : bytes) (version : Z)
    (contractID : string) (darcID : darc_ID) (cur new : list ServerIdentity) :
  (forall (l : list ServerIdentity) (x : ServerIdentity),
     x ∈ l -> Roster_Search l (ServerIdentity_ID x) <> -1) ->
  GetValues rst (Instruction_InstanceID inst)
  = inr (curBuf, version, contractID, darcID) ->
  Instruction_Body inst = IsInvoke iv ->
  Invoke_Command iv = "reshare" ->
  Search (Invoke_Args iv) "lts_instance_info" = Some infoBuf ->
  infoBuf <> [] ->
  Decode_LtsInstanceInfo infoBuf = inr new ->
  Decode_LtsInstanceInfo curBuf = inr cur ->
  cur ⊆+ new ->
  contractLTS_Invoke rst inst coins
  = Returns (mkResult
               [NewStateChange Update (Instruction_InstanceID inst)
                  ContractLongTermSecretID infoBuf darcID]
               coins None).
Proof.
  intros Hfinds Hvalues Hbody Hcommand Hsearch Hnonempty Hnew Hcur Hsub.
  rewrite (reshare_runs rst inst coins iv curBuf infoBuf version contractID
             darcID cur new) by done.
  set (n := len cur).
  set (overlap := intersectRosters _ _).
  assert (n <= overlap) as Hle.
  { unfold overlap, n. rewrite intersectRosters_count. cbn [Roster_List].
    pose proof (filter_length_submseteq (found {| Roster_List := cur |}) _ _
                  Hsub) as Hlen.
    assert (length (List.filter (found {| Roster_List := cur |}) cur)
            = length cur) as Hall.
    { apply filter_length_all, Forall_forall. intros x Hx.
      unfold found. cbn [Roster_List]. apply negb_true_iff, Z.eqb_neq.
      by apply Hfinds. }
    unfold len. lia. }
  assert (0 <= n) as Hn by (unfold n, len; lia).
  assert ((overlap <? n - Z.quot (n - 1) 3) = false) as ->; [| done].
  apply threshold_two_thirds; lia.
Qed.

(** ** What the long-term-secret contract returns *)

(** X21. Spawn and Invoke of the long-term-secret contract return either an
    error, with neither state changes nor coins, or the coins as given and
    one state change of the contract "longTermSecret" whose value is not
    empty and decodes to an [LtsInstanceInfo]. *)
Theorem contractLTS_result
    (rst : ReadOnlyStateTrie) (inst : Instruction) (coins : list Coin)
    (r : Result) :
  contractLTS_Spawn rst inst coins = Returns r
  \/ contractLTS_Invoke rst inst coins = Returns r ->
  (err r <> None /\ sc r = [] /\ cout r = [])
  \/ (err r = None /\ cout r = coins
      /\ exists change roster,
          sc r = [change]
          /\ StateChange_ContractID change = ContractLongTermSecretID
          /\ StateChange_Value change <> []
          /\ Decode_LtsInstanceInfo (StateChange_Value change) = inr roster).
Proof.
  assert (forall v : option bytes, nil_or_empty v = false -> slice v <> [])
    as Hslice.
  { intros [[| b v] |]; cbn; done. }
  unfold contractLTS_Spawn, contractLTS_Invoke, decode_LtsInstanceInfo.
  unfold_flow. intros [Hrun | Hrun].
  - destruct (GetValues rst (Instruction_InstanceID inst))
      as [e | [[[value version] contractID] darcID]];
      [simplify_eq/=; left; done |].
    destruct (Instruction_Body inst) as [sp | iv | dl]; [| done | done].
    destruct (negb _); [simplify_eq/=; left; done |].
    destruct (nil_or_empty _) eqn:Hinfo; [simplify_eq/=; left; done |].
    destruct (Decode_LtsInstanceInfo _) as [e | roster] eqn:Hdecode;
      simplify_eq/=; [left; done |].
    right. split; [done |]. split; [done |].
    eexists _, roster. split; [reflexivity |]. cbn.
    split; [done |]. split; [by apply Hslice | done].
  - destruct (GetValues rst (Instruction_InstanceID inst))
      as [e | [[[value version] contractID] darcID]];
      [simplify_eq/=; left; done |].
    destruct (Instruction_Body inst) as [sp | iv | dl]; [done | | done].
    destruct (negb _); [simplify_eq/=; left; done |].
    destruct (nil_or_empty _) eqn:Hinfo; [simplify_eq/=; left; done |].
    destruct (Decode_LtsInstanceInfo (slice _)) as [e | roster] eqn:Hdecode;
      [simplify_eq/=; left; done |].
    destruct (Decode_LtsInstanceInfo value) as [e | cur];
      [simplify_eq/=; left; done |].
    cbn -[intersectRosters Z.quot Z.ltb Z.sub len] in Hrun.
    destruct (_ <? _); simplify_eq/=; [left; done |].
    right. split; [done |]. split; [done |].
    eexists _, roster. split; [reflexivity |]. cbn.
    split; [done |]. split; [by apply Hslice | done].
Qed.

(** ** Spawning writes and reads *)

Lemma pay_length (cost : Coin) (coins cout : list Coin) :
  pay cost coins = inr cout -> length cout = length coins.
Proof.
  revert cout. induction coins as [| coin coins IH]; intros cout; cbn.
  - by intros [= <-].
  - destruct (InstanceID_Equal _ _).
    + destruct (Coin_SafeSub _ _); [done |]. by intros [= <-].
    + destruct (pay cost coins) as [e | rest]; [done |].
      intros [= <-]. cbn. f_equal. by apply IH.
Qed.

Lemma pay_no_coin (cost : Coin) (coins : list Coin) :
  Forall (fun coin => Coin_Name coin <> Coin_Name cost) coins ->
  pay cost coins = inr coins.
Proof.
  induction 1 as [| coin coins Hname _ IH]; cbn; [done |].
  destruct (InstanceID_Equal _ _) eqn:Hequal.
  - by apply InstanceID_Equal_eq in Hequal.
  - by rewrite IH.
Qed.

Lemma pay_first_coin (cost : Coin) (coins : list Coin) (i : nat) (coin : Coin) :
  coins !! i = Some coin ->
  Coin_Name coin = Coin_Name cost ->
  (forall (j : nat) (before : Coin),
     (j < i)%nat -> coins !! j = Some before ->
     Coin_Name before <> Coin_Name cost) ->
  pay cost coins
  = match Coin_SafeSub coin (Coin_Value cost) with
    | inl e => inl e
    | inr paid => inr (<[i := paid]> coins)
    end.
Proof.
  revert i. induction coins as [| first coins IH]; intros i Hi Hname Hbefore;
    [done |].
  destruct i as [| i]; cbn in *.
  - injection Hi as ->.
    apply InstanceID_Equal_eq in Hname. by rewrite Hname.
  - destruct (InstanceID_Equal _ _) eqn:Hequal.
    + apply InstanceID_Equal_eq in Hequal.
      by destruct (Hbefore 0%nat first ltac:(lia) eq_refl).
    + rewrite (IH i Hi Hname).
      * by destruct (Coin_SafeSub _ _).
      * intros j before Hj Hlookup. apply (Hbefore (S j) before); [lia | done].
Qed.

(** What the spawn of a read returns, once its argument is decoded and
    names the write instance. *)
Lemma read_runs
    (c : Write) (rst : ReadOnlyStateTrie) (inst : Instruction)
    (coins : list Coin) (sp : byzcoin.Spawn) (value r : bytes) (version : Z)
    (contractID : string) (darcID : darc_ID) (rd : Read) :
  GetValues rst (Instruction_InstanceID inst)
  = inr (value, version, contractID, darcID) ->
  Instruction_Body inst = IsSpawn sp ->
  Spawn_ContractID sp = ContractReadID ->
  Search (Spawn_Args sp) "read" = Some r ->
  r <> [] ->
  Decode_Read r = inr rd ->
  Read_Write rd = Instruction_InstanceID inst ->
  ContractWrite_Spawn c rst inst coins
  = Returns
      (match (if Coin_Value (Write_Cost c) >? 0
              then pay (Write_Cost c) coins else inr coins) with
       | inl e => fail ("couldn't pay for read request: " +:+ e)
       | inr cout =>
           mkResult
             [NewStateChange Create (DeriveID inst "") ContractReadID r darcID]
             cout None
       end).
Proof.
  intros Hvalues Hbody Hcontract Hsearch Hnonempty Hdecode Hwrite.
  assert (nil_or_empty (Some r) = false) as Hread.
  { cbn. destruct r; [done |]. apply Z.eqb_neq. unfold len.
    cbn [length]. lia. }
  apply InstanceID_Equal_eq in Hwrite.
  unfold ContractWrite_Spawn. unfold_flow.
  rewrite Hvalues, Hbody, Hcontract, Hsearch, Hread. cbn.
  rewrite Hdecode, Hwrite. cbn.
  destruct (Coin_Value (Write_Cost c) >? 0); [| done].
  by destruct (pay _ _).
Qed.

(** X22. A read of a write that costs something is paid by the first of the
    coins that bears the name of the cost, and by it alone: when the payment
    goes through the coins are returned with that one coin replaced by what
    is left of it, the others as they were; when it does not, the error is
    returned with neither state changes nor coins. *)
Theorem read_paid_by_first_coin
    (c : Write) (rst : ReadOnlyStateTrie) (inst : Instruction)
    (coins : list Coin) (sp : byzcoin.Spawn) (value r : bytes) (version : Z)
    (contractID : string) (darcID : darc_ID) (rd : Read) (i : nat)
    (coin : Coin) :
  GetValues rst (Instruction_InstanceID inst)
  = inr (value, version, contractID, darcID) ->
  Instruction_Body inst = IsSpawn sp ->
  Spawn_ContractID sp = ContractReadID ->
  Search (Spawn_Args sp) "read" = Some r ->
  r <> [] ->
  Decode_Read r = inr rd ->
  Read_Write rd = Instruction_InstanceID inst ->
  0 < Coin_Value (Write_Cost c) ->
  coins !! i = Some coin ->
  Coin_Name coin = Coin_Name (Write_Cost c) ->
  (forall (j : nat) (before : Coin),
     (j < i)%nat -> coins !! j = Some before ->
     Coin_Name before <> Coin_Name (Write_Cost c)) ->
  ContractWrite_Spawn c rst inst coins
  = Returns
      (match Coin_SafeSub coin (Coin_Value (Write_Cost c)) with
       | inl e => fail ("couldn't pay for read request: " +:+ e)
       | inr paid =>
           mkResult
             [NewStateChange Create (DeriveID inst "") ContractReadID r darcID]
             (<[i := paid]> coins) None
       end).
Proof.
  intros Hvalues Hbody Hcontract Hsearch Hnonempty Hdecode Hwrite Hcost Hi
    Hname Hbefore.
  rewrite (read_runs c rst inst coins sp value r version contractID darcID rd)
    by done.
  assert ((Coin_Value (Write_Cost c) >? 0) = true) as ->.
  { rewrite Z.gtb_ltb. by apply Z.ltb_lt. }
  rewrite (pay_first_coin _ _ i coin) by done.
  by destruct (Coin_SafeSub _ _).
Qed.

(** X23. A read is spawned without any payment when the write costs nothing
    or when none of the coins bears the name of the cost: the coins are
    returned as they were given, the list of them being empty included. *)
Theorem read_without_payment
    (c : Write) (rst : ReadOnlyStateTrie) (inst : Instruction)
    (coins : list Coin) (sp : byzcoin.Spawn) (value r : bytes) (version : Z)
    (contractID : string) (darcID : darc_ID) (rd : Read) :
  GetValues rst (Instruction_InstanceID inst)
  = inr (value, version, contractID, darcID) ->
  Instruction_Body inst = IsSpawn sp ->
  Spawn_ContractID sp = ContractReadID ->
  Search (Spawn_Args sp) "read" = Some r ->
  r <> [] ->
  Decode_Read r = inr rd ->
  Read_Write rd = Instruction_InstanceID inst ->
  Coin_Value (Write_Cost c) <= 0
  \/ Forall (fun coin => Coin_Name coin <> Coin_Name (Write_Cost c)) coins ->
  ContractWrite_Spawn c rst inst coins
  = Returns
      (mkResult
         [NewStateChange Create (DeriveID inst "") ContractReadID r darcID]
         coins None).
Proof.
  intros Hvalues Hbody Hcontract Hsearch Hnonempty Hdecode Hwrite Hfree.
  rewrite (read_runs c rst inst coins sp value r version contractID darcID rd)
    by done.
  destruct (Coin_Value (Write_Cost c) >? 0) eqn:Hcost; [| done].
  destruct Hfree as [Hzero | Hnone].
  - rewrite Z.gtb_ltb in Hcost. apply Z.ltb_lt in Hcost. lia.
  - by rewrite pay_no_coin.
Qed.

(** X24. A write that is spawned is stored as the bytes of the argument
    "write", as they were given; the write that results from decoding them
    into the write of the receiver is the one whose proof was checked, and
    it was checked against the darc the instance is created under: the darc
    of the argument "darcID" when it is given, the darc of the spawning
    instance when it is not. The coins are returned as they were given. *)
Theorem write_stored_under_checked_darc
    (c : Write) (rst : ReadOnlyStateTrie) (inst : Instruction)
    (coins : list Coin) (sp : byzcoin.Spawn) (r : Result) :
  ContractWrite_Spawn c rst inst coins = Returns r ->
  Instruction_Body inst = IsSpawn sp ->
  Spawn_ContractID sp = ContractWriteID ->
  err r = None ->
  exists (w : bytes) (write : Write) (value : bytes) (version : Z)
         (contractID : string) (darcID : darc_ID),
    GetValues rst (Instruction_InstanceID inst)
    = inr (value, version, contractID, darcID)
    /\ Search (Spawn_Args sp) "write" = Some w
    /\ w <> []
    /\ Decode_Write c w = inr write
    /\ let darcID := default darcID (Search (Spawn_Args sp) "darcID") in
       Write_CheckProof write darcID = None
       /\ r = mkResult
                [NewStateChange Create (DeriveID inst "") ContractWriteID w
                   darcID]
                coins None.
Proof.
  intros Hrun Hbody Hcontract Hok. revert Hrun.
  unfold ContractWrite_Spawn. unfold_flow. rewrite Hbody, Hcontract. cbn.
  destruct (GetValues rst (Instruction_InstanceID inst))
    as [e | [[[value version] contractID] darcID]]; [by intros [= <-] |].
  destruct (Search (Spawn_Args sp) "write") as [w |] eqn:Hsearch; cbn;
    [| by intros [= <-]].
  destruct (len w =? 0) eqn:Hlen; [by intros [= <-] |].
  destruct (Decode_Write c w) as [e | write] eqn:Hdecode; [by intros [= <-] |].
  destruct (Write_CheckProof write _) as [e |] eqn:Hproof; [by intros [= <-] |].
  intros [= <-].
  exists w, write, value, version, contractID, darcID.
  repeat split; try done.
  intros ->. by apply Z.eqb_neq in Hlen.
Qed.

(** X25. Whatever it is asked to spawn, the write contract returns either an
    error with no state change, or one state change and as many coins as it
    was given. *)
Theorem ContractWrite_Spawn_result
    (c : Write) (rst : ReadOnlyStateTrie) (inst : Instruction)
    (coins : list Coin) (r : Result) :
  ContractWrite_Spawn c rst inst coins = Returns r ->
  (err r <> None /\ sc r = [])
  \/ (err r = None /\ length (sc r) = 1%nat /\ length (cout r) = length coins).
Proof.
  unfold ContractWrite_Spawn. unfold_flow.
  destruct (GetValues rst (Instruction_InstanceID inst))
    as [e | [[[value version] contractID] darcID]];
    [intros [= <-]; left; done |].
  destruct (Instruction_Body inst) as [sp | iv | dl]; [| done | done].
  destruct (Spawn_ContractID sp =? ContractWriteID)%string.
  - destruct (nil_or_empty _); [intros [= <-]; left; done |].
    destruct (Decode_Write _); [intros [= <-]; left; done |].
    destruct (Write_CheckProof _ _); intros [= <-]; [left | right]; done.
  - destruct (Spawn_ContractID sp =? ContractReadID)%string;
      [| intros [= <-]; left; done].
    destruct (nil_or_empty _); [intros [= <-]; left; done |].
    destruct (Decode_Read _); [intros [= <-]; left; done |].
    destruct (negb _); [intros [= <-]; left; done |].
    destruct (Coin_Value (Write_Cost c) >? 0); cbn.
    + destruct (pay _ _) as [e | cout] eqn:Hpay; intros [= <-];
        [left; done | right].
      split; [done |]. split; [done |]. cbn. by apply (pay_length (Write_Cost c)).
    + intros [= <-]. right. done.
Qed.

(** ** stringInSlice *)

(** X26. [stringInSlice] answers whether the string is an element of the
    slice. *)
Theorem stringInSlice_elem_of (a : string) (list : list string) :
  stringInSlice a list = true <-> a ∈ list.
Proof.
  unfold stringInSlice. rewrite existsb_exists, list_elem_of_In. split.
  - intros (b & Hin & Heq). by apply String.eqb_eq in Heq as ->.
  - intros Hin. exists a. split; [done | apply String.eqb_refl].
Qed.

End CalypsoProperties.
(** * The scenario, run *)

Import Scenario.

(** Spawn creates the instance under the derived identifier, with the hash
    of the transfer; at block 10 Alice adds her proof; at block 20 the
    transaction is executed, which leaves no execution. *)
Example scenario_Spawn :
  contracts.Spawn (instance (spawned 0 0)) (ledger 5) (spawn "100" "1") pocket
  = Returns (mkResult
               [NewStateChange Create deferred_id "deferred"
                  (ser_deferredData (spawned 100 1)) (B "darc")]
               pocket None).
Proof. vm_compute. reflexivity. Qed.

Example scenario_addProof :
  verifyThenInvoke (instance (spawned 100 1)) (ledger 10)
    (addProof alice 0 transfer_hash) [] pocket
  = Returns (proved 100 1,
             mkResult
               [NewStateChange Update deferred_id "deferred"
                  (ser_deferredData (proved 100 1)) (B "darc")]
               pocket None).
Proof. vm_compute. reflexivity. Qed.

Example scenario_execProposedTx :
  verifyThenInvoke (instance (proved 100 1)) (ledger 20) execProposedTx [] pocket
  = Returns (executed 100 0,
             mkResult
               [NewStateChange Update (B "coin-instance") "coin" (B "balance")
                  (B "darc");
                NewStateChange Update deferred_id "deferred"
                  (ser_deferredData (executed 100 0)) (B "darc")]
               pocket None).
Proof. vm_compute. reflexivity. Qed.

Example sha256_empty :
  map Z_of_byte (SHA256.Sum [])
  = [227; 176; 196; 66; 152; 252; 28; 20; 154; 251; 244; 200; 153; 111; 185; 36;
     39; 174; 65; 228; 100; 155; 147; 76; 164; 149; 153; 27; 120; 82; 184; 85].
Proof. vm_compute. reflexivity. Qed.

(** A message of 56 bytes, padded to two blocks. *)
Example sha256_two_blocks :
  map Z_of_byte
    (SHA256.Sum (B "abcdbcdecdefdefgefghfghighijhijkijkljklmklmnlmnomnopnopq"))
  = [36; 141; 106; 97; 210; 6; 56; 184; 229; 192; 38; 147; 12; 62; 96; 57;
     163; 60; 228; 89; 100; 255; 33; 103; 246; 236; 237; 212; 25; 219; 6; 193].
Proof. vm_compute. reflexivity. Qed.

Example sha256_abc :
  map Z_of_byte (SHA256.Sum (B "abc"))
  = [186; 120; 22; 191; 143; 1; 207; 234; 65; 65; 64; 222; 93; 174; 34; 35;
     176; 3; 97; 163; 150; 23; 122; 156; 180; 16; 255; 97; 242; 0; 21; 173].
Proof. vm_compute. reflexivity. Qed.

Lemma invoke_is_command (command : string) (args : Arguments) :
  is_command (invoke command args) command.
Proof. eexists. split; reflexivity. Qed.

(** The transfer, signed by Alice, passes every step of its processing. *)
Lemma transfer_signed_passes (d : deferredData) (i : Z) :
  passes (instance d) (ledger i) pocket transfer_signed transfer_hash
    [NewStateChange Update (B "coin-instance") "coin" (B "balance") (B "darc")].
Proof.
  exists (fun _ => inr coin), (ser_instruction transfer_signed), coin.
  split; [reflexivity |]. split; [reflexivity |]. split; [reflexivity |].
  split; [vm_compute; reflexivity |]. split; reflexivity.
Qed.

(** The transfer without a signature fails its deferred verification. *)
Lemma transfer_unsigned_fails (d : deferredData) (i : Z) :
  fails (instance d) (ledger i) pocket transfer transfer_hash.
Proof.
  apply (fails_verify _ _ _ _ _ (fun _ => inr coin) (ser_instruction transfer)
           coin "no valid signature"); [reflexivity .. |].
  vm_compute. reflexivity.
Qed.

(** *** C1 *)

Lemma execProposedTx_atomic_witness :
  exists r e,
    Invoke (instance (spawned 100 1)) (ledger 20) execProposedTx pocket
    = Returns (spawned 100 1, r)
    /\ sc r = []
    /\ err r = Some e.
Proof.
  apply (execProposedTx_atomic (instance (spawned 100 1)) (ledger 20)
           execProposedTx pocket 0 transfer transfer_hash).
  - apply invoke_is_command.
  - reflexivity.
  - reflexivity.
  - apply transfer_unsigned_fails.
Defined.

(** *** C2 *)

(** C2. Two Spawns of the same transfer, sent to the same instance
    ("darc-instance") with the expiries 100 and 200, create two instances
    under two identifiers, and store the same hash for the transfer in both:
    the hash bound to the instance the Spawns were sent to, which is not the
    hash bound to the identifier of either instance. Bound to the new
    identifiers the two hashes would differ; as they are, the one proof that
    Alice signs is admitted by the guard of both instances. *)
Theorem Spawn_hashes_shared_between_instances :
  contracts.Spawn (instance (spawned 0 0)) (ledger 5) (spawn "100" "1") pocket
  = Returns (mkResult
               [NewStateChange Create deferred_id "deferred"
                  (ser_deferredData (spawned 100 1)) (B "darc")]
               pocket None)
  /\ contracts.Spawn (instance (spawned 0 0)) (ledger 5) (spawn "200" "1") pocket
     = Returns (mkResult
                  [NewStateChange Create second_id "deferred"
                     (ser_deferredData (spawned 200 1)) (B "darc")]
                  pocket None)
  /\ Spawn_data (ledger 5) (spawn "100" "1") pocket
     = Next (B "darc", spawned 100 1)
  /\ Spawn_data (ledger 5) (spawn "200" "1") pocket
     = Next (B "darc", spawned 200 1)
  /\ deferred_id <> second_id
  /\ InstructionHashes (spawned 100 1)
     = [hashDeferred transfer (Instruction_InstanceID (spawn "100" "1"))]
  /\ InstructionHashes (spawned 200 1) = InstructionHashes (spawned 100 1)
  /\ InstructionHashes (spawned 100 1) <> [hashDeferred transfer deferred_id]
  /\ InstructionHashes (spawned 200 1) <> [hashDeferred transfer second_id]
  /\ hashDeferred transfer deferred_id <> hashDeferred transfer second_id
  /\ VerifyInstruction (instance (spawned 100 1)) (ledger 10)
       (addProof alice 0 transfer_hash) [] = Returns None
  /\ VerifyInstruction (instance (spawned 200 1)) (ledger 10)
       (addProof_second alice 0 transfer_hash) [] = Returns None.
Proof.
  split; [vm_compute; reflexivity |]. split; [vm_compute; reflexivity |].
  split; [vm_compute; reflexivity |]. split; [vm_compute; reflexivity |].
  split; [vm_compute; intros [=] |].
  split; [reflexivity |]. split; [reflexivity |].
  split; [vm_compute; intros [=] |]. split; [vm_compute; intros [=] |].
  split; [vm_compute; intros [=] |].
  split; vm_compute; reflexivity.
Qed.

(** *** C3 *)

(** Bob's proof for the index 1, on the instance that holds one proposed
    instruction: the guard reads the instruction out of range. *)
Example addProof_index_out_of_range_guard :
  VerifyInstruction (instance (proved 100 1)) (ledger 20)
    (addProof bob 1 transfer_hash) [] = Panics.
Proof. vm_compute. reflexivity. Qed.


(** The body of [Invoke] alone does return the error of the range. *)
Example addProof_index_out_of_range_body :
  Invoke (instance (proved 100 1)) (ledger 20) (addProof bob 1 transfer_hash)
    pocket
  = Returns (proved 100 1,
             mkResult [] [] (Some "Index is out of range (1 >= 1)")).
Proof. vm_compute. reflexivity. Qed.

(** *** C4 *)

Lemma execProposedTx_success_witness :
  ExecResult (executed 100 0)
  = map (fun proposedInstr => DeriveID proposedInstr "") [transfer_signed]
  /\ NumExecution (executed 100 0) = NumExecution (proved 100 1) - 1.
Proof.
  destruct (execProposedTx_success (instance (proved 100 1)) (ledger 20)
              execProposedTx [] pocket (executed 100 0)
              (mkResult
                 [NewStateChange Update (B "coin-instance") "coin" (B "balance")
                    (B "darc");
                  NewStateChange Update deferred_id "deferred"
                    (ser_deferredData (executed 100 0)) (B "darc")]
                 pocket None))
    as (Hresult & Hnum & _).
  - apply invoke_is_command.
  - by vm_compute.
  - exact scenario_execProposedTx.
  - reflexivity.
  - split; [exact Hresult | exact Hnum].
Defined.

(** *** C6 *)

Lemma VerifyInstruction_expired_witness :
  exists e,
    VerifyInstruction (instance (proved 5 1)) (ledger 20) execProposedTx []
    = Returns (Some e)
    /\ (1 <= NumExecution (proved 5 1) -> e = expired_error (u64 20) 5)
    /\ (NumExecution (proved 5 1) < 1 -> e = ceiling_error).
Proof.
  apply (VerifyInstruction_expired (instance (proved 5 1)) (ledger 20)
           execProposedTx []).
  - reflexivity.
  - reflexivity.
  - by vm_compute.
Defined.

(** The claim as the specification words it fails once no execution is left:
    at block 20, past the expiry at block 5, the Invoke is rejected with the
    error of the execution ceiling, not with the one of the expiry. *)
Lemma expired_with_no_execution_left :
  GetType execProposedTx = InvokeType
  /\ u64 (GetIndex (ledger 20)) > ExpireBlockIndex (proved 5 0)
  /\ exists e,
      VerifyInstruction (instance (proved 5 0)) (ledger 20) execProposedTx []
      = Returns (Some e)
      /\ ~ is_expired_error e.
Proof.
  split; [reflexivity |]. split; [by vm_compute |].
  exists ceiling_error. split; [vm_compute; reflexivity |].
  intros (currentIndex & expireBlockIndex & Heq). discriminate Heq.
Qed.

(** *** C7 *)

Lemma execProposedTx_exactly_once_witness :
  exists d' r,
    verifyThenInvoke (instance (proved 100 1)) (ledger 20) execProposedTx []
      pocket = Returns (d', r)
    /\ err r = None
    /\ NumExecution d' = 0
    /\ forall srv rst2 inst2 ctxHash2 coins2,
         GetType inst2 = InvokeType ->
         exists e,
           verifyThenInvoke {| c_deferredData := d'; s := srv |}
             rst2 inst2 ctxHash2 coins2
           = Returns (d', mkResult [] [] (Some e))
           /\ (BasicContract_VerifyInstruction rst2 inst2 ctxHash2 = None ->
               e = ceiling_error).
Proof.
  apply (execProposedTx_exactly_once (instance (proved 100 1)) (ledger 20)
           execProposedTx [] pocket).
  - reflexivity.
  - apply invoke_is_command.
  - reflexivity.
  - by vm_compute.
  - eexists. reflexivity.
  - intros [| k] proposedInstr Hk; [| done]. injection Hk as <-.
    exists transfer_hash. eexists. split; [reflexivity |].
    apply transfer_signed_passes.
  - intros d. eexists. reflexivity.
Defined.

(** The second "execProposedTx" of the scenario. *)
Example scenario_second_execProposedTx :
  verifyThenInvoke (instance (executed 100 0)) (ledger 20) execProposedTx []
    pocket
  = Returns (executed 100 0, mkResult [] [] (Some ceiling_error)).
Proof. vm_compute. reflexivity. Qed.

(** *** C8 *)

Lemma addProof_duplicate_rejected_witness :
  exists e,
    VerifyInstruction (instance (proved 100 1)) (ledger 20)
      (addProof alice 0 transfer_hash) [] = Returns (Some e)
    /\ verifyThenInvoke (instance (proved 100 1)) (ledger 20)
         (addProof alice 0 transfer_hash) [] pocket
       = Returns (proved 100 1, mkResult [] [] (Some e))
    /\ (BasicContract_VerifyInstruction (ledger 20)
          (addProof alice 0 transfer_hash) [] = None ->
        1 <= NumExecution (proved 100 1) ->
        u64 (GetIndex (ledger 20)) <= ExpireBlockIndex (proved 100 1) ->
        e = duplicate_error)
    /\ (forall base,
          BasicContract_VerifyInstruction (ledger 20)
            (addProof alice 0 transfer_hash) [] = Some base ->
          e = base)
    /\ (BasicContract_VerifyInstruction (ledger 20)
          (addProof alice 0 transfer_hash) [] = None ->
        NumExecution (proved 100 1) < 1 ->
        e = ceiling_error)
    /\ (BasicContract_VerifyInstruction (ledger 20)
          (addProof alice 0 transfer_hash) [] = None ->
        1 <= NumExecution (proved 100 1) ->
        u64 (GetIndex (ledger 20)) > ExpireBlockIndex (proved 100 1) ->
        e = expired_error (u64 (GetIndex (ledger 20)))
              (ExpireBlockIndex (proved 100 1))).
Proof.
  eapply (addProof_duplicate_rejected (D := darc) (instance (proved 100 1))
            (ledger 20) (addProof alice 0 transfer_hash) [] pocket _
            alice (Value (index_arg 0)) alice alice 0 transfer_signed).
  - reflexivity.
  - reflexivity.
  - reflexivity.
  - reflexivity.
  - reflexivity.
  - reflexivity.
  - reflexivity.
  - apply list_elem_of_here.
  - by vm_compute.
Defined.

(** The claim as the specification words it fails past the expiry: Alice's
    second proof for the transfer, sent at block 20 to an instance that
    expired at block 5, is rejected with the error of the expiry, not with
    the one of the duplicate proof. *)
Lemma duplicate_proof_after_expiry :
  alice ∈ SignerIdentities transfer_signed
  /\ Instructions (ProposedTransaction (proved 5 1)) !! 0%nat = Some transfer_signed
  /\ exists e,
      VerifyInstruction (instance (proved 5 1)) (ledger 20)
        (addProof alice 0 transfer_hash) [] = Returns (Some e)
      /\ e <> duplicate_error.
Proof.
  split; [apply list_elem_of_here |]. split; [reflexivity |].
  exists (expired_error 20 5). split; [vm_compute; reflexivity |].
  by vm_compute.
Qed.

(** *** C9 *)

Lemma NumExecution_never_increases_witness :
  is_u64 (NumExecution (executed 100 0))
  /\ NumExecution (executed 100 0) <= NumExecution (spawned 100 1).
Proof.
  apply (NumExecution_never_increases (spawned 100 1) (executed 100 0)).
  - by vm_compute.
  - apply (invoked_step _ (proved 100 1)).
    + eapply (invoked_intro service _ (ledger 10)
                (addProof alice 0 transfer_hash) [] pocket).
      * exact scenario_addProof.
      * reflexivity.
    + apply (invoked_step _ (executed 100 0)); [| apply invoked_refl].
      eapply (invoked_intro service _ (ledger 20) execProposedTx [] pocket).
      * exact scenario_execProposedTx.
      * reflexivity.
Defined.

(** *** C10 *)

(** The contract "coin" hands back one coin more than it is given; the
    "execProposedTx" that calls it returns the coins it was given. *)
Lemma coins_returned_unchanged_witness :
  cout (Contract_Invoke coin (ledger 20) transfer_signed pocket)
  = pocket ++ [change]
  /\ exists r,
      perform OpInvoke (instance (proved 100 1)) (ledger 20) execProposedTx
        pocket = Returns r
      /\ err r = None
      /\ cout r = pocket.
Proof.
  split; [reflexivity |]. eexists.
  split; [vm_compute; reflexivity |]. split; [reflexivity |].
  apply (coins_returned_unchanged OpInvoke (instance (proved 100 1)) (ledger 20)
           execProposedTx pocket); [vm_compute |]; reflexivity.
Defined.

(** The claim as the specification words it fails on a call that returns an
    error: a Spawn whose [expireBlockIndex] is not a number returns no coins,
    not the ones it was given. *)
Lemma failed_Spawn_returns_no_coins :
  exists r,
    perform OpSpawn (instance (spawned 0 0)) (ledger 5) (spawn "soon" "1") pocket
    = Returns r
    /\ r = mkResult [] []
             (Some "couldn't convert expireBlockIndex: invalid syntax")
    /\ cout r <> pocket.
Proof.
  eexists. split; [vm_compute; reflexivity |]. split; [reflexivity |].
  cbn. discriminate.
Qed.

(** * The further properties, on the scenario *)

(** The body of Alice's "addProof". *)
Example scenario_addProof_body :
  Invoke (instance (spawned 100 1)) (ledger 10) (addProof alice 0 transfer_hash)
    pocket
  = Returns (proved 100 1,
             mkResult
               [NewStateChange Update deferred_id "deferred"
                  (ser_deferredData (proved 100 1)) (B "darc")]
               pocket None).
Proof. vm_compute. reflexivity. Qed.

(** The scenario as a sequence of verified Invokes. *)
Lemma scenario_invoked_star : invoked_star (spawned 100 1) (executed 100 0).
Proof.
  apply (invoked_step _ (proved 100 1)).
  - eapply (invoked_intro service _ (ledger 10)
              (addProof alice 0 transfer_hash) [] pocket).
    + exact scenario_addProof.
    + reflexivity.
  - apply (invoked_step _ (executed 100 0)); [| apply invoked_refl].
    eapply (invoked_intro service _ (ledger 20) execProposedTx [] pocket).
    + exact scenario_execProposedTx.
    + reflexivity.
Qed.

Lemma encodes (d : deferredData) : exists buf, Encode_deferredData d = inr buf.
Proof. eexists. reflexivity. Qed.

(** ** The deferred contract *)

(** The instance that expired and has no execution left admits a Spawn. *)
Lemma VerifyInstruction_not_Invoke_witness :
  VerifyInstruction (instance (executed 5 0)) (ledger 20) (spawn "100" "1") []
  = Returns None.
Proof.
  refine (VerifyInstruction_not_Invoke (instance (executed 5 0)) (ledger 20)
            (spawn "100" "1") [] _).
  by vm_compute.
Defined.

(** The execution of the unsigned transfer. *)
Lemma error_without_state_change_witness :
  sc (mkResult [] []
        (Some "Verifying the instruction failed: no valid signature"))
  = [].
Proof.
  apply (error_without_state_change OpInvoke (instance (spawned 100 1))
           (ledger 20) execProposedTx pocket _
           "Verifying the instruction failed: no valid signature").
  - vm_compute. reflexivity.
  - reflexivity.
Defined.

Lemma addProof_appends_witness :
  exists indexBuf index identityBuf identity signature target buf darcID,
    Search (Invoke_Args (proof_invoke alice 0 transfer_hash)) "index"
    = Some indexBuf
    /\ LittleEndian_Uint32 indexBuf = Returns index
    /\ Search (Invoke_Args (proof_invoke alice 0 transfer_hash)) "identity"
       = Some identityBuf
    /\ Identity_Decode identityBuf = inr identity
    /\ Search (Invoke_Args (proof_invoke alice 0 transfer_hash)) "signature"
       = Some signature
    /\ Instructions (ProposedTransaction (spawned 100 1)) !! Z.to_nat index
       = Some target
    /\ proved 100 1
       = set_Instructions (spawned 100 1)
           (<[Z.to_nat index := deferred.add_signer identity signature target]>
              (Instructions (ProposedTransaction (spawned 100 1))))
    /\ Encode_deferredData (proved 100 1) = inr buf
    /\ [NewStateChange Update deferred_id "deferred"
          (ser_deferredData (proved 100 1)) (B "darc")]
       = [NewStateChange Update
            (Instruction_InstanceID (addProof alice 0 transfer_hash))
            ContractDeferredID buf darcID]
    /\ pocket = pocket.
Proof.
  exact (addProof_appends (instance (spawned 100 1)) (ledger 10)
           (addProof alice 0 transfer_hash)
           (proof_invoke alice 0 transfer_hash) pocket (proved 100 1)
           (mkResult
              [NewStateChange Update deferred_id "deferred"
                 (ser_deferredData (proved 100 1)) (B "darc")]
              pocket None)
           eq_refl eq_refl scenario_addProof_body eq_refl).
Defined.

Lemma invoked_star_grows_witness :
  deferred.grows (spawned 100 1) (executed 100 0).
Proof.
  apply (invoked_star_grows (spawned 100 1) (executed 100 0)).
  exact scenario_invoked_star.
Defined.

Lemma hashes_stay_canonical_witness :
  InstructionHashes (executed 100 0)
  = map (fun proposedInstr =>
           hashDeferred proposedInstr (Instruction_InstanceID (spawn "100" "1")))
        (Instructions (ProposedTransaction (executed 100 0)))
  /\ one_hash_each (executed 100 0).
Proof.
  apply (hashes_stay_canonical (ledger 5) (spawn "100" "1") pocket (B "darc")
           (spawned 100 1) (executed 100 0)).
  - vm_compute. reflexivity.
  - exact scenario_invoked_star.
Defined.

Lemma invoked_star_paired_witness : deferred.paired (executed 100 0).
Proof.
  apply (invoked_star_paired (spawned 100 1) (executed 100 0)).
  - repeat constructor.
  - exact scenario_invoked_star.
Defined.

Lemma exhausted_is_frozen_witness : executed 100 0 = executed 100 0.
Proof.
  apply (exhausted_is_frozen (executed 100 0) (executed 100 0)).
  - by vm_compute.
  - apply invoked_refl.
Defined.

Lemma VerifyInstruction_addProof_signature_witness :
  VerifyInstruction (instance (spawned 100 1)) (ledger 10)
    (addProof alice 0 transfer_hash) []
  = Returns (match Identity_Verify alice transfer_hash
                     (sign alice transfer_hash) with
             | None => None
             | Some _ => Some (errors_New "Bad signature")
             end).
Proof.
  apply (VerifyInstruction_addProof_signature (D := darc)
           (instance (spawned 100 1)) (ledger 10)
           (addProof alice 0 transfer_hash) []
           (proof_invoke alice 0 transfer_hash) alice (Value (index_arg 0))
           (sign alice transfer_hash) transfer_hash alice 0 transfer).
  - reflexivity.
  - reflexivity.
  - reflexivity.
  - by vm_compute.
  - by vm_compute.
  - reflexivity.
  - reflexivity.
  - reflexivity.
  - reflexivity.
  - reflexivity.
  - intros stored Hin. inversion Hin.
  - reflexivity.
  - reflexivity.
Defined.

Lemma admitted_addProof_succeeds_witness :
  exists d' r,
    verifyThenInvoke (instance (spawned 100 1)) (ledger 10)
      (addProof alice 0 transfer_hash) [] pocket = Returns (d', r)
    /\ err r = None.
Proof.
  apply (admitted_addProof_succeeds (instance (spawned 100 1)) (ledger 10)
           (addProof alice 0 transfer_hash) [] pocket).
  - apply invoke_is_command.
  - vm_compute. reflexivity.
  - by vm_compute.
  - eexists. reflexivity.
  - exact encodes.
Defined.

(** After her proof and the execution, Alice's proof is refused. *)
Lemma addProof_at_most_once_witness :
  exists e,
    VerifyInstruction (instance (proved 100 1)) (ledger 20)
      (addProof alice 0 transfer_hash) []
    = Returns (Some e).
Proof.
  apply (addProof_at_most_once (D := darc)
           (instance (spawned 100 1)) (ledger 10)
           (addProof alice 0 transfer_hash)
           (proof_invoke alice 0 transfer_hash) pocket (proved 100 1)
           (mkResult
              [NewStateChange Update deferred_id "deferred"
                 (ser_deferredData (proved 100 1)) (B "darc")]
              pocket None)
           alice (Value (index_arg 0)) alice 0
           (proved 100 1) service (ledger 20)
           (addProof alice 0 transfer_hash)
           (proof_invoke alice 0 transfer_hash) []
           alice (Value (index_arg 0)) alice).
  - reflexivity.
  - reflexivity.
  - reflexivity.
  - reflexivity.
  - reflexivity.
  - reflexivity.
  - exact scenario_addProof_body.
  - reflexivity.
  - apply invoked_refl.
  - reflexivity.
  - reflexivity.
  - reflexivity.
  - reflexivity.
  - reflexivity.
  - reflexivity.
  - reflexivity.
Defined.

(** Bob's proof for an instruction that is not there. *)
Lemma Invoke_returns_witness :
  exists d' r,
    Invoke (instance (proved 100 1)) (ledger 20) (addProof bob 1 transfer_hash)
      pocket = Returns (d', r).
Proof.
  apply (Invoke_returns (instance (proved 100 1)) (ledger 20)
           (addProof bob 1 transfer_hash) (proof_invoke bob 1 transfer_hash)
           pocket).
  - reflexivity.
  - reflexivity.
  - intros indexBuf _ [= <-]. vm_compute. lia.
Defined.

Lemma addProof_out_of_range_error_witness :
  Invoke (instance (proved 100 1)) (ledger 20) (addProof bob 1 transfer_hash)
    pocket
  = Returns (proved 100 1,
             mkResult [] [] (Some "Index is out of range (1 >= 1)")).
Proof.
  apply (addProof_out_of_range_error (instance (proved 100 1)) (ledger 20)
           (addProof bob 1 transfer_hash) (proof_invoke bob 1 transfer_hash)
           pocket (Value (index_arg 1)) 1).
  - reflexivity.
  - reflexivity.
  - eexists. reflexivity.
  - reflexivity.
  - reflexivity.
  - by vm_compute.
Defined.

Lemma execProposedTx_empty_witness :
  Invoke (instance (idle 100 1)) (ledger 20) execProposedTx pocket
  = Returns (idle 100 0,
             mkResult
               [NewStateChange Update (Instruction_InstanceID execProposedTx)
                  ContractDeferredID (ser_deferredData (idle 100 0)) (B "darc")]
               pocket None).
Proof.
  apply (execProposedTx_empty (instance (idle 100 1)) (ledger 20)
           execProposedTx pocket [] 0 "darc" (B "darc")
           (ser_deferredData (idle 100 0))).
  - apply invoke_is_command.
  - reflexivity.
  - reflexivity.
  - reflexivity.
Defined.

(** With two executions, the transfer is executed twice. *)
Lemma execProposedTx_again_witness :
  exists d2 r2 nested update1 update2,
    verifyThenInvoke (instance (executed 100 1)) (ledger 20) execProposedTx []
      pocket = Returns (d2, r2)
    /\ err r2 = None
    /\ ExecResult d2 = ExecResult (executed 100 1)
    /\ NumExecution d2 = NumExecution (proved 100 2) - 2
    /\ [NewStateChange Update (B "coin-instance") "coin" (B "balance")
          (B "darc");
        NewStateChange Update deferred_id "deferred"
          (ser_deferredData (executed 100 1)) (B "darc")]
       = nested ++ [update1]
    /\ sc r2 = nested ++ [update2].
Proof.
  apply (execProposedTx_again (instance (proved 100 2)) (ledger 20)
           execProposedTx [] pocket (executed 100 1)
           (mkResult
              [NewStateChange Update (B "coin-instance") "coin" (B "balance")
                 (B "darc");
               NewStateChange Update deferred_id "deferred"
                 (ser_deferredData (executed 100 1)) (B "darc")]
              pocket None)).
  - apply invoke_is_command.
  - by vm_compute.
  - by vm_compute.
  - vm_compute. reflexivity.
  - reflexivity.
  - exact encodes.
Defined.

(** A Spawn whose "NumExecution" is empty. *)
Lemma Spawn_defaults_witness :
  ExecResult (spawned 100 1) = [] /\ NumExecution (spawned 100 1) = 1.
Proof.
  destruct (Spawn_defaults (ledger 5) (spawn "100" "")
              {| Spawn_ContractID := "deferred";
                 Spawn_Args :=
                   [ {| Name := "proposedTransaction";
                        Value := ser_list ser_instruction [transfer] |};
                     {| Name := "expireBlockIndex"; Value := B "100" |};
                     {| Name := "NumExecution"; Value := B "" |} ] |}
              pocket (B "darc") (spawned 100 1))
    as [Hresult Hnum].
  - reflexivity.
  - vm_compute. reflexivity.
  - split; [exact Hresult | apply Hnum; reflexivity].
Defined.

(** ** The calypso contracts *)

Lemma search_from_finds (l : list Byte.byte) (x : Byte.byte) (i : Z) :
  0 <= i -> x ∈ l -> 0 <= search_from i l x.
Proof.
  revert i. induction l as [| y l IH]; intros i Hi Hin; [by inversion Hin |].
  cbn. destruct (Byte.eqb y x) eqn:Heq; [done |].
  apply IH; [lia |]. apply elem_of_cons in Hin as [-> | Hin]; [| done].
  by rewrite (@Byte.byte_dec_lb y y eq_refl) in Heq.
Qed.

Lemma search_finds (l : list Byte.byte) (x : Byte.byte) :
  x ∈ l -> search_from 0 l x <> -1.
Proof. intros Hin. pose proof (search_from_finds l x 0 ltac:(lia) Hin). lia. Qed.

(** Of the four nodes "abcd", the roster "abce" keeps three. *)
Lemma reshare_two_thirds_witness :
  exists r,
    calypso.contractLTS_Invoke (lts_ledger (B "abcd") 20) (reshare (B "abce"))
      pocket = Returns r
    /\ (err r = None
        <-> len (B "abcd") = 0
            \/ 2 * len (B "abcd")
               < 3 * calypso.intersectRosters (roster (B "abcd"))
                                              (roster (B "abce")))
    /\ (err r = None ->
        r = mkResult
              [NewStateChange Update (B "lts-instance") "longTermSecret"
                 (B "abce") (B "darc")]
              pocket None)
    /\ (err r <> None -> sc r = [] /\ cout r = []).
Proof.
  apply (reshare_two_thirds (C := calypso) (lts_ledger (B "abcd") 20) (reshare (B "abce"))
           pocket (reshare_invoke (B "abce")) (B "abcd") (B "abce") 0
           "longTermSecret" (B "darc") (B "abcd") (B "abce")).
  - reflexivity.
  - reflexivity.
  - reflexivity.
  - reflexivity.
  - by vm_compute.
  - reflexivity.
  - reflexivity.
Defined.

(** The roster "abcd" gains the node "e". *)
Lemma reshare_keeping_every_node_witness :
  calypso.contractLTS_Invoke (lts_ledger (B "abcd") 20) (reshare (B "abcde"))
    pocket
  = Returns (mkResult
               [NewStateChange Update (B "lts-instance") "longTermSecret"
                  (B "abcde") (B "darc")]
               pocket None).
Proof.
  apply (reshare_keeping_every_node (C := calypso) (lts_ledger (B "abcd") 20)
           (reshare (B "abcde")) pocket (reshare_invoke (B "abcde")) (B "abcd")
           (B "abcde") 0 "longTermSecret" (B "darc") (B "abcd") (B "abcde")).
  - exact search_finds.
  - reflexivity.
  - reflexivity.
  - reflexivity.
  - reflexivity.
  - by vm_compute.
  - reflexivity.
  - reflexivity.
  - vm_compute. repeat apply submseteq_skip. apply submseteq_cons.
    apply submseteq_nil.
Defined.

Lemma contractLTS_result_witness :
  let r := mkResult
             [NewStateChange Create (DeriveID (lts_spawn (B "abcd")) "")
                calypso.ContractLongTermSecretID (B "abcd") (B "darc")]
             pocket None in
  (err r <> None /\ sc r = [] /\ cout r = [])
  \/ (err r = None /\ cout r = pocket
      /\ exists change roster,
          sc r = [change]
          /\ StateChange_ContractID change = calypso.ContractLongTermSecretID
          /\ StateChange_Value change <> []
          /\ calypso.Decode_LtsInstanceInfo (StateChange_Value change)
             = inr roster).
Proof.
  refine (contractLTS_result (C := calypso) (ledger 5) (lts_spawn (B "abcd")) pocket _ _).
  left. vm_compute. reflexivity.
Defined.

(** A read of a write that costs 2 "fee", paid from the pocket of 3. *)
Lemma read_paid_by_first_coin_witness :
  calypso.ContractWrite_Spawn (costing 2) (ledger 20) read_spawn pocket
  = Returns
      (mkResult
         [NewStateChange Create (DeriveID read_spawn "") calypso.ContractReadID
            (B "write-instance") (B "darc")]
         [ {| Coin_Name := B "fee"; Coin_Value := 1 |} ] None).
Proof.
  refine (read_paid_by_first_coin (C := calypso) (costing 2) (ledger 20)
            read_spawn pocket read_spawn_body [] (B "write-instance") 0 "darc"
            (B "darc") (B "write-instance") 0
            {| Coin_Name := B "fee"; Coin_Value := 3 |} _ _ _ _ _ _ _ _ _ _ _).
  - reflexivity.
  - reflexivity.
  - reflexivity.
  - reflexivity.
  - by vm_compute.
  - reflexivity.
  - reflexivity.
  - by vm_compute.
  - reflexivity.
  - reflexivity.
  - intros j before Hj. lia.
Defined.

(** The same read, with the coin "change" only to pay from. *)
Lemma read_without_payment_witness :
  calypso.ContractWrite_Spawn (costing 2) (ledger 20) read_spawn
    [change]
  = Returns
      (mkResult
         [NewStateChange Create (DeriveID read_spawn "") calypso.ContractReadID
            (B "write-instance") (B "darc")]
         [change] None).
Proof.
  refine (read_without_payment (C := calypso) (costing 2) (ledger 20) read_spawn
           [change] read_spawn_body [] (B "write-instance") 0 "darc" (B "darc")
           (B "write-instance") _ _ _ _ _ _ _ _).
  - reflexivity.
  - reflexivity.
  - reflexivity.
  - reflexivity.
  - by vm_compute.
  - reflexivity.
  - reflexivity.
  - right. repeat constructor. by vm_compute.
Defined.

Lemma write_stored_under_checked_darc_witness :
  exists (w : bytes) (write : @calypso.Write calypso) (value : bytes) (version : Z)
         (contractID : string) (darcID : darc_ID),
    GetValues (ledger 20) (B "darc-instance")
    = inr (value, version, contractID, darcID)
    /\ Search (Spawn_Args (write_spawn_body "2")) "write" = Some w
    /\ w <> []
    /\ calypso.Decode_Write (costing 0) w = inr write
    /\ let darcID :=
         default darcID (Search (Spawn_Args (write_spawn_body "2")) "darcID") in
       calypso.Write_CheckProof write darcID = None
       /\ mkResult
            [NewStateChange Create (DeriveID (write_spawn "2") "") calypso.ContractWriteID
               (B "2") (B "darc")]
            pocket None
          = mkResult
              [NewStateChange Create (DeriveID (write_spawn "2") "")
                 calypso.ContractWriteID w darcID]
              pocket None.
Proof.
  refine (write_stored_under_checked_darc (C := calypso) (costing 0) (ledger 20)
           (write_spawn "2") pocket (write_spawn_body "2") _ _ _ _ _).
  - reflexivity.
  - reflexivity.
  - reflexivity.
  - reflexivity.
Defined.

Lemma ContractWrite_Spawn_result_witness :
  let r := mkResult [] pocket (Some "can only spawn writes and reads") in
  (err r <> None /\ sc r = [])
  \/ (err r = None /\ length (sc r) = 1%nat
      /\ length (cout r) = length pocket).
Proof.
  refine (ContractWrite_Spawn_result (C := calypso) (costing 0) (ledger 20)
           (spawn "100" "1") pocket _ _).
  reflexivity.
Defined.
